(** * The synthetic streaming-data generator of [src/data_generation/generate_data.py]

    A shallow embedding of the catalog loader and of the streaming simulator,
    followed by the properties of the specification checked against it, by
    further properties of the simulator and of the calendar it relies on, and
    by the embedding of [save_streaming_data] and [main] with theirs.

    Modelling choices, all taken from the source:
    - Python [float] and [numpy.float64] are IEEE-754 binary64 numbers: they
      are Rocq's primitive [float]s, with the same rounding.  [int(x)] is
      defined on the bits of [x] through [Prim2SF].
    - Python [int] is [Z].
    - The process-wide generator behind [np.random] is an explicit state,
      threaded through every call in program order (interface
      [RandomSource]).
    - Exceptions are values of the type [exn]; a computation that raises keeps
      the state it reached.
    - The [config] module of the repository is not part of the sources under
      study: its constants are the fields of the record [Config], a parameter
      of the whole development.  Its numeric constants are read as binary64
      values (an integer constant stands for the float of the same value).
    - [logger] calls append to a log held in the state. *)

From Stdlib Require Import ZArith List String Ascii Bool Lia Floats DecimalString.
Import ListNotations.

Local Open Scope Z_scope.

(** ** Python values *)

Module Py.

(** The exceptions the modelled code can raise or let through.  The message
    of an exception raised by a library is abbreviated; the messages built
    by the program itself are exact.  [LibraryError] stands for any other
    exception [pd.read_csv] may raise. *)
Inductive exn : Type :=
| ValueError (msg : string)
| OverflowError (msg : string)
| ZeroDivisionError (msg : string)
| FileNotFoundError (msg : string)
| LibraryError (msg : string).

(** [str(e)] *)
Definition str_exn (e : exn) : string :=
  match e with
  | ValueError m | OverflowError m | ZeroDivisionError m
  | FileNotFoundError m | LibraryError m => m
  end.

Definition result (A : Type) : Type := (exn + A)%type.

(** [str(n)] for an integer, as an f-string renders it. *)
Definition str_int (n : Z) : string := NilZero.string_of_int (Z.to_int n).

(** Conversion of an integer to binary64, rounding to nearest, ties to
    even (what numpy does for an [int64] operand of a float product, and
    what [float(n)] does when it does not overflow). *)
Definition float_of_Z (n : Z) : float :=
  SF2Prim (binary_normalize prec emax n 0 false).

(** [float(n)] for a Python [int]: raises when [n] is beyond the largest
    finite float. *)
Definition float_of_int (n : Z) : result float :=
  let f := float_of_Z n in
  if PrimFloat.is_infinity f
  then inl (OverflowError "int too large to convert to float")
  else inr f.

(** The integer part of a finite float with mantissa [m] and exponent [e],
    towards zero. *)
Definition trunc_finite (s : bool) (m : positive) (e : Z) : Z :=
  cond_Zopp s (Z.shiftl (Zpos m) e).

(** [int(x)] for a float: truncation towards zero; NaN and the infinities
    raise. *)
Definition int_of_float (x : float) : result Z :=
  match Prim2SF x with
  | S754_nan => inl (ValueError "cannot convert float NaN to integer")
  | S754_infinity _ => inl (OverflowError "cannot convert float infinity to integer")
  | S754_zero _ => inr 0
  | S754_finite s m e => inr (trunc_finite s m e)
  end.

(** [n / d] for a Python [int] [n] and a number [d] (true division). *)
Definition truediv_int (n : Z) (d : float) : result float :=
  if PrimFloat.is_zero d
  then inl (ZeroDivisionError "division by zero")
  else match float_of_int n with
       | inl e => inl e
       | inr f => inr (f / d)%float
       end.

(** [repr] of a list of plain ASCII strings without quotes or escapes, as
    in [f"{['a', 'b']}"]. *)
Fixpoint repr_items (l : list string) : string :=
  match l with
  | [] => ""
  | [x] => "'" ++ x ++ "'"
  | x :: rest => "'" ++ x ++ "', " ++ repr_items rest
  end.

Definition repr_list (l : list string) : string := "[" ++ repr_items l ++ "]".

End Py.

Import Py.

(** ** Dates: Python's [datetime] at midnight

    A [datetime] produced by [strptime(_, "%Y-%m-%d")] has no time of day, and
    adding whole days keeps it so.  It is represented by its proleptic
    Gregorian ordinal ([toordinal()]: 1 is 0001-01-01); the fields are read
    back with [_ord2ymd], as in CPython's [datetime.py]. *)

Module Datetime.

Definition datetime : Type := Z.

Definition MINYEAR : Z := 1.
Definition MAXYEAR : Z := 9999.
Definition _MAXORDINAL : Z := 3652059.

Definition _is_leap (year : Z) : bool :=
  (year mod 4 =? 0) && (negb (year mod 100 =? 0) || (year mod 400 =? 0)).

Definition _days_before_year (year : Z) : Z :=
  let y := year - 1 in
  y * 365 + y / 4 - y / 100 + y / 400.

Definition _DAYS_IN_MONTH : list Z :=
  [-1; 31; 28; 31; 30; 31; 30; 31; 31; 30; 31; 30; 31].

Definition _DAYS_BEFORE_MONTH : list Z :=
  [-1; 0; 31; 59; 90; 120; 151; 181; 212; 243; 273; 304; 334].

Definition _days_in_month (year month : Z) : Z :=
  if (month =? 2) && _is_leap year then 29
  else nth (Z.to_nat month) _DAYS_IN_MONTH 0.

Definition _days_before_month (year month : Z) : Z :=
  nth (Z.to_nat month) _DAYS_BEFORE_MONTH 0
  + (if (2 <? month) && _is_leap year then 1 else 0).

Definition _ymd2ord (year month day : Z) : Z :=
  _days_before_year year + _days_before_month year month + day.

Definition _DI400Y : Z := 146097.
Definition _DI100Y : Z := 36524.
Definition _DI4Y : Z := 1461.

Definition _ord2ymd (n : Z) : Z * Z * Z :=
  let n := n - 1 in
  let n400 := n / _DI400Y in
  let n := n mod _DI400Y in
  let year := n400 * 400 + 1 in
  let n100 := n / _DI100Y in
  let n := n mod _DI100Y in
  let n4 := n / _DI4Y in
  let n := n mod _DI4Y in
  let n1 := n / 365 in
  let n := n mod 365 in
  let year := year + (n100 * 100 + n4 * 4 + n1) in
  if (n1 =? 4) || (n100 =? 4) then (year - 1, 12, 31)
  else
    let leapyear := (n1 =? 3) && (negb (n4 =? 24) || (n100 =? 3)) in
    let month := Z.shiftr (n + 50) 5 in
    let preceding :=
      nth (Z.to_nat month) _DAYS_BEFORE_MONTH 0
      + (if (2 <? month) && leapyear then 1 else 0) in
    if n <? preceding
    then
      let month := month - 1 in
      let preceding :=
        preceding - (nth (Z.to_nat month) _DAYS_IN_MONTH 0
                     + (if (month =? 2) && leapyear then 1 else 0)) in
      (year, month, n - preceding + 1)
    else (year, month, n - preceding + 1).

Definition year (d : datetime) : Z := fst (fst (_ord2ymd d)).
Definition month (d : datetime) : Z := snd (fst (_ord2ymd d)).
Definition day (d : datetime) : Z := snd (_ord2ymd d).

(** [d.weekday()]: Monday is 0, Sunday is 6. *)
Definition weekday (d : datetime) : Z := (d + 6) mod 7.

(** [d + timedelta(days=k)] *)
Definition add_days (d : datetime) (k : Z) : result datetime :=
  if (0 <? d + k) && (d + k <=? _MAXORDINAL)
  then inr (d + k)
  else inl (OverflowError "date value out of range").

(** *** [datetime.strptime(s, "%Y-%m-%d")] on ASCII input

    The format compiles to the regular expression
    [(\d\d\d\d)-(1[0-2]|0[1-9]|[1-9])-(3[01]|[12]\d|0[1-9]|[1-9]| [1-9])],
    matched at the start of the string; text left after the match is an
    error, and so is a day that the month does not have. *)

Definition digit_of (c : ascii) : option Z :=
  let n := Z.of_nat (nat_of_ascii c) in
  if (48 <=? n) && (n <=? 57) then Some (n - 48) else None.

Definition in_range (lo hi : Z) (c : ascii) : option Z :=
  match digit_of c with
  | Some v => if (lo <=? v) && (v <=? hi) then Some v else None
  | None => None
  end.

Definition is_dash (c : ascii) : bool := Ascii.eqb c "-".

Definition orelse {A} (a b : option A) : option A :=
  match a with Some r => Some r | None => b end.

(** Two characters read by [f], and the rest of the string. *)
Definition two_chars (f : ascii -> ascii -> option Z) (s : string)
  : option (Z * string) :=
  match s with
  | String c1 (String c2 rest) =>
      match f c1 c2 with Some v => Some (v, rest) | None => None end
  | _ => None
  end.

(** One character read by [f], and the rest of the string. *)
Definition one_char (f : ascii -> option Z) (s : string) : option (Z * string) :=
  match s with
  | String c1 rest =>
      match f c1 with Some v => Some (v, rest) | None => None end
  | _ => None
  end.

(** The dash that must follow a group. *)
Definition then_dash (r : option (Z * string)) : option (Z * string) :=
  match r with
  | Some (v, String c rest) => if is_dash c then Some (v, rest) else None
  | _ => None
  end.

(** The month group and the dash after it: the alternatives
    [1[0-2]], [0[1-9]], [[1-9]] are tried in this order, the first one that
    the dash can follow being kept. *)
Definition match_month (s : string) : option (Z * string) :=
  orelse (then_dash (two_chars (fun c1 c2 =>
            match in_range 1 1 c1, in_range 0 2 c2 with
            | Some _, Some v => Some (10 + v) | _, _ => None end) s))
 (orelse (then_dash (two_chars (fun c1 c2 =>
            match in_range 0 0 c1, in_range 1 9 c2 with
            | Some _, Some v => Some v | _, _ => None end) s))
         (then_dash (one_char (in_range 1 9) s))).

(** The day group, last in the pattern: the alternatives [3[01]],
    [[12]\d], [0[1-9]], [[1-9]], [ [1-9]] in this order, the first one that
    matches a prefix being kept. *)
Definition match_day (s : string) : option (Z * string) :=
  orelse (two_chars (fun c1 c2 =>
            match in_range 3 3 c1, in_range 0 1 c2 with
            | Some _, Some v => Some (30 + v) | _, _ => None end) s)
 (orelse (two_chars (fun c1 c2 =>
            match in_range 1 2 c1, digit_of c2 with
            | Some u, Some v => Some (10 * u + v) | _, _ => None end) s)
 (orelse (two_chars (fun c1 c2 =>
            match in_range 0 0 c1, in_range 1 9 c2 with
            | Some _, Some v => Some v | _, _ => None end) s)
 (orelse (one_char (in_range 1 9) s)
         (two_chars (fun c1 c2 =>
            if Ascii.eqb c1 " " then in_range 1 9 c2 else None) s)))).

(** The four digits of the year and the dash after them. *)
Definition match_year (s : string) : option (Z * string) :=
  match s with
  | String y1 (String y2 (String y3 (String y4 rest))) =>
      match digit_of y1, digit_of y2, digit_of y3, digit_of y4 with
      | Some a, Some b, Some c, Some d =>
          then_dash (Some (1000 * a + 100 * b + 10 * c + d, rest))
      | _, _, _, _ => None
      end
  | _ => None
  end.

(** The three fields of a string that matches the format, or the message of
    the [ValueError]. *)
Definition parse_ymd (s : string) : string + (Z * Z * Z) :=
  let no_match := inl "time data does not match format"%string in
  match match_year s with
  | Some (year, rest) =>
      match match_month rest with
      | Some (month, rest) =>
          match match_day rest with
          | Some (day, EmptyString) => inr (year, month, day)
          | Some (_, String _ _) => inl "unconverted data remains"%string
          | None => no_match
          end
      | None => no_match
      end
  | None => no_match
  end.

Definition strptime_ymd (s : string) : result datetime :=
  match parse_ymd s with
  | inl msg => inl (ValueError msg)
  | inr (year, month, day) =>
      if year <? MINYEAR
      then inl (ValueError "year is out of range")
      else if _days_in_month year month <? day
      then inl (ValueError "day is out of range for month")
      else inr (_ymd2ord year month day)
  end.

(** *** [d.strftime('%Y-%m-%d')]

    The month and the day are written on two digits.  The year is written
    by the C library, in decimal and on as many digits as it has: glibc does
    not pad it, so that a year below 1000 comes out on fewer than four
    digits (the last day of year 999 is written [999-12-31]); from year 1000
    on the year has four digits. *)

Definition digit_char (v : Z) : ascii := ascii_of_nat (Z.to_nat (48 + v mod 10)).

Definition pad2 (v : Z) : string :=
  String (digit_char (v / 10)) (String (digit_char v) EmptyString).

Definition pad4 (v : Z) : string := pad2 (v / 100) ++ pad2 v.

(** [%Y], for the years 1 to 9999 of a [datetime]. *)
Definition year_text (y : Z) : string :=
  if y <? 10 then String (digit_char y) EmptyString
  else if y <? 100 then pad2 y
  else if y <? 1000 then String (digit_char (y / 100)) (pad2 y)
  else pad4 y.

Definition strftime_ymd (d : datetime) : string :=
  year_text (year d) ++ "-" ++ pad2 (month d) ++ "-" ++ pad2 (day d).

End Datetime.

Import Datetime.


(** ** Effects: the random source, the log, exceptions *)

Module Effects.

Inductive level : Type := INFO | ERROR.

(** The state a call can change: the generator behind [np.random] and the
    lines handed to [logger]. *)
Record world (G : Type) : Type := mkWorld {
  rng : G;
  log : list (level * string)
}.
Arguments mkWorld {G} _ _.
Arguments rng {G} _.
Arguments log {G} _.

Definition M (G A : Type) : Type := world G -> result A * world G.

Definition ret {G A} (a : A) : M G A := fun w => (inr a, w).

Definition bind {G A B} (m : M G A) (k : A -> M G B) : M G B :=
  fun w =>
    match m w with
    | (inr a, w') => k a w'
    | (inl e, w') => (inl e, w')
    end.

Definition raise {G A} (e : exn) : M G A := fun w => (inl e, w).

(** A pure call that may raise. *)
Definition lift {G A} (r : result A) : M G A := fun w => (r, w).

(** [try: m except Exception as e: handler e] *)
Definition try_except {G A} (m : M G A) (handler : exn -> M G A) : M G A :=
  fun w =>
    match m w with
    | (inr a, w') => (inr a, w')
    | (inl e, w') => handler e w'
    end.

Definition logger_info {G} (msg : string) : M G unit :=
  fun w => (inr tt, mkWorld (rng w) (log w ++ [(INFO, msg)])).

Definition logger_error {G} (msg : string) : M G unit :=
  fun w => (inr tt, mkWorld (rng w) (log w ++ [(ERROR, msg)])).

(** [for x in xs: body], with the variables the body updates carried as
    [s]. *)
Fixpoint for_ {G A S} (xs : list A) (body : A -> S -> M G S) (s : S) : M G S :=
  match xs with
  | [] => ret s
  | x :: xs' => bind (body x s) (for_ xs' body)
  end.

(** [range(n)] *)
Definition range (n : Z) : list Z := map Z.of_nat (seq 0 (Z.to_nat n)).

End Effects.

Import Effects.

Declare Scope monad_scope.
Delimit Scope monad_scope with monad.
Notation "x <- m ;; k" := (bind m (fun x => k))
  (at level 61, m at next level, right associativity) : monad_scope.
Notation "m ;; k" := (bind m (fun _ => k))
  (at level 61, right associativity) : monad_scope.

(** The two entry points of [np.random] the program calls, each returning
    its draw and the next state of the generator.  The interface describes
    the calls that return: numpy's [uniform] raises [OverflowError] when
    [high - low] is not finite, which no statement below relies on. *)
Class RandomSource (G : Type) : Type := {
  (** [np.random.uniform(low, high)] *)
  np_random_uniform : float -> float -> G -> float * G;
  (** [np.random.random()] *)
  np_random_random : G -> float * G
}.

(** A scripted source: the unit draws in [[0, 1)] are read off a list (and
    are 0 once it is exhausted); [uniform] scales a unit draw as numpy does,
    [low + (high - low) * u]. *)
Module Tape.

Definition next (t : list float) : float * list float :=
  match t with
  | [] => (0%float, [])
  | u :: t' => (u, t')
  end.

Definition uniform (low high : float) (t : list float) : float * list float :=
  let (u, t') := next t in ((low + (high - low) * u)%float, t').

#[global] Instance source : RandomSource (list float) := {
  np_random_uniform := uniform;
  np_random_random := next
}.

End Tape.

(** ** The [config] module, as far as the generator reads it *)

Record Config : Type := {
  BASE_STREAM_MULTIPLIER_MIN : float;
  BASE_STREAM_MULTIPLIER_MAX : float;
  WEEKEND_BOOST_MIN : float;
  WEEKEND_BOOST_MAX : float;
  VIRAL_SPIKE_PROBABILITY : float;
  VIRAL_SPIKE_MULTIPLIER_MIN : float;
  VIRAL_SPIKE_MULTIPLIER_MAX : float;
  SUMMER_BOOST : float;
  PLAYLIST_ADDS_DIVISOR : float
}.

(** ** Data *)

(** A row of the catalog as [iterrows] yields it to the simulator, reduced to
    the four columns the simulator looks up; [popularity] is an integer
    ([int64]) column. *)
Record Track : Type := {
  track_id : string;
  track_name : string;
  artists : string;
  popularity : Z
}.

(** An output row: the dictionary built for each (day, track, region). *)
Record StreamingRecord : Type := {
  r_date : string;
  r_track_id : string;
  r_track_name : string;
  r_artists : string;
  r_streams : Z;
  r_region : string;
  r_playlist_adds : Z;
  r_popularity : Z
}.

(** A table as the loader sees it: its column labels and its rows, in file
    order. *)
Record DataFrame (Row : Type) : Type := {
  columns : list string;
  rows : list Row
}.
Arguments columns {Row} _.
Arguments rows {Row} _.

(** The literals [0.8] and [1.2] of [calculate_playlist_adds], as binary64. *)
Definition lit_0_8 : float := 0x1.999999999999ap-1%float.
Definition lit_1_2 : float := 0x1.3333333333333p+0%float.

(** ** The program *)

Section Program.

Context {G : Type} {RS : RandomSource G}.
Variable config : Config.

Local Open Scope monad_scope.

Definition uniform (low high : float) : M G float :=
  fun w => let (x, g) := np_random_uniform low high (rng w) in
           (inr x, mkWorld g (log w)).

Definition random : M G float :=
  fun w => let (x, g) := np_random_random (rng w) in
           (inr x, mkWorld g (log w)).

(** *** The catalog loader *)

Section Loader.

Context {Row : Type}.
(** [pd.read_csv]: what the file system holds at each path. *)
Variable read_csv : string -> result (DataFrame Row).

Definition required_columns : list string :=
  ["track_id"; "track_name"; "artists"; "popularity"]%string.

Definition col_in (col : string) (cols : list string) : bool :=
  existsb (String.eqb col) cols.

Definition load_spotify_dataset (dataset_path : string) : M G (DataFrame Row) :=
  try_except
    (logger_info ("Loading Spotify dataset from " ++ dataset_path) ;;
     df <- lift (read_csv dataset_path) ;;
     let missing_columns :=
       filter (fun col => negb (col_in col (columns df))) required_columns in
     (match missing_columns with
      | _ :: _ =>
          raise (ValueError ("Missing required columns: "
                             ++ repr_list missing_columns))
      | [] => ret tt
      end) ;;
     logger_info ("Loaded " ++ str_int (Z.of_nat (List.length (rows df)))
                  ++ " tracks from dataset") ;;
     ret df)
    (fun e =>
       match e with
       | FileNotFoundError _ =>
           logger_error ("Dataset file not found: " ++ dataset_path) ;;
           raise e
       | _ =>
           logger_error ("Error loading dataset: " ++ str_exn e) ;;
           raise e
       end).

End Loader.

(** *** The simulator *)

Definition is_weekend (date : datetime) : bool :=
  existsb (Z.eqb (weekday date)) [4; 5].

Definition is_summer_month (date : datetime) : bool :=
  existsb (Z.eqb (month date)) [6; 7; 8].

Definition calculate_streams (popularity : Z) (date : datetime)
           (base_streams : float) : M G Z :=
  let streams := base_streams in
  streams <-
    (if is_weekend date then
       u <- uniform (WEEKEND_BOOST_MIN config) (WEEKEND_BOOST_MAX config) ;;
       let weekend_multiplier := (1 + u)%float in
       ret (streams * weekend_multiplier)%float
     else ret streams) ;;
  r <- random ;;
  streams <-
    (if (r <? VIRAL_SPIKE_PROBABILITY config)%float then
       viral_multiplier <- uniform (VIRAL_SPIKE_MULTIPLIER_MIN config)
                                   (VIRAL_SPIKE_MULTIPLIER_MAX config) ;;
       ret (streams * viral_multiplier)%float
     else ret streams) ;;
  let streams :=
    if is_summer_month date
    then (streams * (1 + SUMMER_BOOST config))%float
    else streams in
  lift (int_of_float streams).

Definition calculate_playlist_adds (streams : Z) : M G Z :=
  base_adds <- lift (truediv_int streams (PLAYLIST_ADDS_DIVISOR config)) ;;
  variance <- uniform lit_0_8 lit_1_2 ;;
  lift (int_of_float (base_adds * variance)%float).

(** The body of the innermost loop, from the base draw to the [append]. *)
Definition loop_body (current_date : datetime) (track : Track) (region : string)
           (streaming_records : list StreamingRecord)
  : M G (list StreamingRecord) :=
  u <- uniform (BASE_STREAM_MULTIPLIER_MIN config)
               (BASE_STREAM_MULTIPLIER_MAX config) ;;
  let base_streams := (float_of_Z (popularity track) * u)%float in
  streams <- calculate_streams (popularity track) current_date base_streams ;;
  playlist_adds <- calculate_playlist_adds streams ;;
  let record := {|
    r_date := strftime_ymd current_date;
    r_track_id := track_id track;
    r_track_name := track_name track;
    r_artists := artists track;
    r_streams := streams;
    r_region := region;
    r_playlist_adds := playlist_adds;
    r_popularity := popularity track
  |} in
  ret (streaming_records ++ [record]).

Definition generate_streaming_data (tracks_df : list Track) (num_days : Z)
           (start_date : string) (regions : list string)
  : M G (list StreamingRecord) :=
  logger_info ("Generating " ++ str_int num_days
               ++ " days of streaming data for "
               ++ str_int (Z.of_nat (List.length tracks_df)) ++ " tracks") ;;
  let streaming_records := [] in
  start <- lift (strptime_ymd start_date) ;;
  streaming_records <-
    for_ (range num_days)
      (fun day_offset streaming_records =>
         current_date <- lift (add_days start day_offset) ;;
         (if (day_offset + 1) mod 30 =? 0
          then logger_info ("Progress: " ++ str_int (day_offset + 1) ++ "/"
                            ++ str_int num_days ++ " days completed")
          else ret tt) ;;
         for_ tracks_df
           (fun track streaming_records =>
              for_ regions (loop_body current_date track) streaming_records)
           streaming_records)
      streaming_records ;;
  logger_info ("Generated " ++ str_int (Z.of_nat (List.length streaming_records))
               ++ " streaming records") ;;
  ret streaming_records.

End Program.

(** ** The model of the specification

    Definitions that follow the words of the specification (section 4.2),
    to be compared with the program above. *)

Module Spec.
Section Model.

Context {G : Type} {RS : RandomSource G}.
Variable config : Config.

(** One (day, track, region) combination, the unit of simulation. *)
Definition triple : Type := (datetime * Track * string)%type.

(** Weekday indices 4 and 5, Monday being 0. *)
Definition weekend_day (day : datetime) : bool :=
  (weekday day =? 4) || (weekday day =? 5).

(** June, July or August. *)
Definition summer_month (day : datetime) : bool :=
  (month day =? 6) || (month day =? 7) || (month day =? 8).

(** Steps 3 to 5: the viral spike, drawn with probability
    [viral_spike_probability], the seasonal factor, then the one
    truncation. *)
Definition viral_season_truncate (day : datetime) (streams : float) (g : G)
  : result Z * G :=
  let (r, g1) := np_random_random g in
  let (after_viral, g2) :=
    if (r <? VIRAL_SPIKE_PROBABILITY config)%float
    then
      let (v, g') := np_random_uniform (VIRAL_SPIKE_MULTIPLIER_MIN config)
                                       (VIRAL_SPIKE_MULTIPLIER_MAX config) g1 in
      ((streams * v)%float, g')
    else (streams, g1) in
  let final :=
    if summer_month day
    then (after_viral * (1 + SUMMER_BOOST config))%float
    else after_viral in
  (int_of_float final, g2).

(** Steps 2 to 5, from a base value. *)
Definition layers_after_base (day : datetime) (base : float) (g : G)
  : result Z * G :=
  if weekend_day day
  then
    let (b, g1) := np_random_uniform (WEEKEND_BOOST_MIN config)
                                     (WEEKEND_BOOST_MAX config) g in
    viral_season_truncate day (base * (1 + b))%float g1
  else viral_season_truncate day base g.

(** Steps 1 to 5: the streaming count of a triple. *)
Definition layered_streams (popularity : Z) (day : datetime) (g : G)
  : result Z * G :=
  let (u, g1) := np_random_uniform (BASE_STREAM_MULTIPLIER_MIN config)
                                   (BASE_STREAM_MULTIPLIER_MAX config) g in
  layers_after_base day (float_of_Z popularity * u)%float g1.

(** [floor(x)] of a float, the rounding the specification names in
    step 6. *)
Definition floor_of_float (x : float) : result Z :=
  match Prim2SF x with
  | S754_nan => inl (ValueError "cannot convert float NaN to integer")
  | S754_infinity _ =>
      inl (OverflowError "cannot convert float infinity to integer")
  | S754_zero _ => inr 0
  | S754_finite s m e => inr (Z.shiftl (cond_Zopp s (Zpos m)) e)
  end.

(** Step 6 as the specification words it:
    [floor((streams / playlist_adds_divisor) * U(0.8, 1.2))]. *)
Definition playlist_adds_floor (streams : Z) (g : G) : result Z * G :=
  let (v, g') := np_random_uniform lit_0_8 lit_1_2 g in
  (floor_of_float
     ((float_of_Z streams / PLAYLIST_ADDS_DIVISOR config) * v)%float, g').

(** Step 6 with the conversion the program uses: the quotient (which
    raises on a zero divisor), one draw, truncation towards zero. *)
Definition playlist_adds (streams : Z) (g : G) : result Z * G :=
  match truediv_int streams (PLAYLIST_ADDS_DIVISOR config) with
  | inl e => (inl e, g)
  | inr q =>
      let (v, g') := np_random_uniform lit_0_8 lit_1_2 g in
      (int_of_float (q * v)%float, g')
  end.

(** The record of a triple, the track's attributes copied into it. *)
Definition record_of (t : triple) (streams adds : Z) : StreamingRecord :=
  let '(day, track, region) := t in
  {| r_date := strftime_ymd day;
     r_track_id := track_id track;
     r_track_name := track_name track;
     r_artists := artists track;
     r_streams := streams;
     r_region := region;
     r_playlist_adds := adds;
     r_popularity := popularity track |}.

(** What one triple does to the generator, and the record it yields. *)
Definition simulate_triple (t : triple) (g : G) : result StreamingRecord * G :=
  let '(day, track, region) := t in
  match layered_streams (popularity track) day g with
  | (inl e, g1) => (inl e, g1)
  | (inr streams, g1) =>
      match playlist_adds streams g1 with
      | (inl e, g2) => (inl e, g2)
      | (inr adds, g2) => (inr (record_of t streams adds), g2)
      end
  end.

(** The triples of a run as one flat sequence: day-major, then the tracks
    in catalog order, then the regions in list order; day [k] is
    [start + k]. *)
Definition triples_of_track (day : datetime) (regions : list string)
           (track : Track) : list triple :=
  map (fun region => (day, track, region)) regions.

Definition triples_of_day (tracks : list Track) (regions : list string)
           (day : datetime) : list triple :=
  flat_map (triples_of_track day regions) tracks.

Definition triples (start : datetime) (num_days : Z) (tracks : list Track)
           (regions : list string) : list triple :=
  flat_map (fun k => triples_of_day tracks regions (start + k))
           (range num_days).

End Model.
End Spec.

(** A sequence of steps that all return, each starting in the state its
    predecessor left: [Chain R ts g rs g'] relates the inputs [ts] and the
    state [g] before the first step to the outputs [rs] and the state [g']
    after the last, [R t g r g1] describing one step. *)
Inductive Chain {T A G : Type} (R : T -> G -> A -> G -> Prop)
  : list T -> G -> list A -> G -> Prop :=
| Chain_nil : forall g, Chain R [] g [] g
| Chain_cons : forall t ts g a g1 rs g2,
    R t g a g1 -> Chain R ts g1 rs g2 -> Chain R (t :: ts) g (a :: rs) g2.

(** The configuration invariants of the specification (section 3): horizon
    of at least one day, a non-empty region list, every range with
    [min <= max]. *)
Definition config_invariant (config : Config) (num_days : Z)
           (regions : list string) : bool :=
  (1 <=? num_days)
  && negb (Nat.eqb (List.length regions) 0)
  && (BASE_STREAM_MULTIPLIER_MIN config <=? BASE_STREAM_MULTIPLIER_MAX config)%float
  && (WEEKEND_BOOST_MIN config <=? WEEKEND_BOOST_MAX config)%float
  && (VIRAL_SPIKE_MULTIPLIER_MIN config <=? VIRAL_SPIKE_MULTIPLIER_MAX config)%float.

(** * Facts *)

(** ** Signs of binary64 values *)

Module FloatFacts.

(** The sign of a float as far as the proofs need it: [sf_nonneg] holds of
    the zeros, of the positive numbers and of NaN; [sf_null] of the zeros
    and of NaN. *)
Definition sf_nonneg (x : spec_float) : bool :=
  match x with
  | S754_zero _ | S754_nan => true
  | S754_infinity s | S754_finite s _ _ => negb s
  end.

Definition sf_null (x : spec_float) : bool :=
  match x with
  | S754_zero _ | S754_nan => true
  | _ => false
  end.

Definition sf_positive (x : spec_float) : bool :=
  match x with
  | S754_infinity s | S754_finite s _ _ => negb s
  | _ => false
  end.

Definition has_sign (s : bool) (x : spec_float) : Prop :=
  match x with
  | S754_zero s' | S754_infinity s' | S754_finite s' _ _ => s' = s
  | S754_nan => True
  end.

Lemma binary_round_aux_sign s m e l :
  has_sign s (binary_round_aux prec emax s m e l).
Proof.
  unfold binary_round_aux.
  destruct (shr_fexp prec emax m e l) as [mrs' e'].
  destruct (shr_fexp prec emax _ e' loc_Exact) as [mrs'' e''].
  destruct (shr_m mrs''); simpl; auto.
  match goal with |- context [if ?c then _ else _] => destruct c end;
    simpl; auto.
Qed.

Lemma binary_round_sign s m e : has_sign s (binary_round prec emax s m e).
Proof.
  unfold binary_round.
  destruct (shl_align m e _) as [mz ez].
  apply binary_round_aux_sign.
Qed.

Lemma has_sign_nonneg x : has_sign false x -> sf_nonneg x = true.
Proof. destruct x; simpl; intros; subst; auto. Qed.

Lemma binary_normalize_nonneg n e :
  0 <= n -> sf_nonneg (binary_normalize prec emax n e false) = true.
Proof.
  intros Hn. destruct n as [|p|p]; simpl; auto; try lia.
  apply has_sign_nonneg, binary_round_sign.
Qed.

Lemma SFmul_nonneg x y :
  sf_nonneg x = true -> sf_nonneg y = true ->
  sf_nonneg (SFmul prec emax x y) = true.
Proof.
  destruct x as [sx|sx| |sx mx ex], y as [sy|sy| |sy my ey]; simpl; auto;
    try (destruct sx; simpl; try discriminate);
    try (destruct sy; simpl; try discriminate); auto.
  intros _ _. apply has_sign_nonneg.
  apply (binary_round_aux_sign false).
Qed.

Lemma SFmul_null_l x y : sf_null x = true -> sf_null (SFmul prec emax x y) = true.
Proof.
  destruct x as [sx|sx| |sx mx ex], y as [sy|sy| |sy my ey]; simpl; auto;
    discriminate.
Qed.

Lemma SFadd_nonneg x y :
  sf_nonneg x = true -> sf_nonneg y = true ->
  sf_nonneg (SFadd prec emax x y) = true.
Proof.
  destruct x as [sx|sx| |sx mx ex], y as [sy|sy| |sy my ey]; simpl; auto;
    try (destruct sx; simpl; try discriminate);
    try (destruct sy; simpl; try discriminate); auto.
  intros _ _. apply has_sign_nonneg, binary_round_sign.
Qed.

Lemma SFdiv_nonneg x y :
  sf_nonneg x = true -> sf_positive y = true ->
  sf_nonneg (SFdiv prec emax x y) = true.
Proof.
  destruct x as [sx|sx| |sx mx ex], y as [sy|sy| |sy my ey]; simpl; auto;
    try discriminate;
    try (destruct sx; simpl; try discriminate);
    try (destruct sy; simpl; try discriminate); auto.
  intros _ _.
  destruct (SFdiv_core_binary prec emax (Z.pos mx) ex (Z.pos my) ey) as [[mz ez] lz].
  apply has_sign_nonneg, binary_round_aux_sign.
Qed.

Lemma SFdiv_null_l x y : sf_null x = true -> sf_null (SFdiv prec emax x y) = true.
Proof.
  destruct x as [sx|sx| |sx mx ex], y as [sy|sy| |sy my ey]; simpl; auto;
    discriminate.
Qed.

Definition nonneg_or_nan (x : float) : Prop := sf_nonneg (Prim2SF x) = true.
Definition zero_or_nan (x : float) : Prop := sf_null (Prim2SF x) = true.

Lemma mul_nonneg x y :
  nonneg_or_nan x -> nonneg_or_nan y -> nonneg_or_nan (x * y).
Proof. unfold nonneg_or_nan. rewrite mul_spec. apply SFmul_nonneg. Qed.

Lemma add_nonneg x y :
  nonneg_or_nan x -> nonneg_or_nan y -> nonneg_or_nan (x + y).
Proof. unfold nonneg_or_nan. rewrite add_spec. apply SFadd_nonneg. Qed.

Lemma mul_null_l x y : zero_or_nan x -> zero_or_nan (x * y).
Proof. unfold zero_or_nan. rewrite mul_spec. apply SFmul_null_l. Qed.

Lemma div_null_l x y : zero_or_nan x -> zero_or_nan (x / y).
Proof. unfold zero_or_nan. rewrite div_spec. apply SFdiv_null_l. Qed.

Lemma one_nonneg : nonneg_or_nan 1.
Proof. reflexivity. Qed.

Lemma leb_zero_nonneg x : (0 <=? x)%float = true -> nonneg_or_nan x.
Proof.
  unfold nonneg_or_nan. rewrite leb_spec.
  change (Prim2SF 0) with (S754_zero false).
  destruct (Prim2SF x) as [s|s| |s m e]; simpl; auto;
    destruct s; simpl; auto; discriminate.
Qed.

Lemma ltb_zero_positive x : (0 <? x)%float = true -> sf_positive (Prim2SF x) = true.
Proof.
  rewrite ltb_spec.
  change (Prim2SF 0) with (S754_zero false).
  destruct (Prim2SF x) as [s|s| |s m e]; simpl; auto;
    try destruct s; simpl; auto; discriminate.
Qed.

Lemma div_nonneg x y :
  nonneg_or_nan x -> (0 <? y)%float = true -> nonneg_or_nan (x / y).
Proof.
  unfold nonneg_or_nan. intros Hx Hy. rewrite div_spec.
  apply SFdiv_nonneg; auto using ltb_zero_positive.
Qed.

(** A draw at or above a non-negative bound is non-negative. *)
Lemma leb_nonneg_trans a x :
  nonneg_or_nan a -> (a <=? x)%float = true -> nonneg_or_nan x.
Proof.
  unfold nonneg_or_nan. rewrite leb_spec.
  destruct (Prim2SF a) as [sa|sa| |sa ma ea], (Prim2SF x) as [s|s| |s m e];
    simpl; auto; try discriminate;
    try (destruct sa; simpl; try discriminate);
    try (destruct s; simpl; try discriminate); auto.
Qed.

Lemma SF2Prim_nonneg x : sf_nonneg x = true -> nonneg_or_nan (SF2Prim x).
Proof.
  destruct x as [s|s| |s m e]; simpl; try (destruct s; try discriminate; intros _; reflexivity).
  - intros _; reflexivity.
  - destruct s; simpl; try discriminate. intros _.
    unfold nonneg_or_nan. rewrite Z_ldexp_spec, of_uint63_spec.
    pose proof (Uint63.to_Z_bounded (Uint63.of_Z (Z.pos m))) as Hb.
    pose proof (binary_normalize_nonneg (Uint63.to_Z (Uint63.of_Z (Z.pos m))) 0 (proj1 Hb)) as Hn.
    destruct (binary_normalize _ _ _ _ _) as [s|s| |s m' e']; simpl in *; auto.
    destruct s; try discriminate.
    apply has_sign_nonneg, binary_round_sign.
Qed.

End FloatFacts.

Import FloatFacts.

(** ** Chains *)

Section ChainFacts.

Context {T A G : Type}.
Implicit Types R : T -> G -> A -> G -> Prop.

Lemma Chain_app R ts1 ts2 g rs1 g1 rs2 g2 :
  Chain R ts1 g rs1 g1 -> Chain R ts2 g1 rs2 g2 ->
  Chain R (ts1 ++ ts2) g (rs1 ++ rs2) g2.
Proof.
  induction 1 as [|t ts g a g1' rs g1 Hstep Hrest IH]; intros Hnext; simpl.
  - exact Hnext.
  - econstructor; [exact Hstep | apply IH, Hnext].
Qed.

Lemma Chain_impl R R' ts g rs g' :
  (forall t g a g1, R t g a g1 -> R' t g a g1) ->
  Chain R ts g rs g' -> Chain R' ts g rs g'.
Proof.
  intros Himp. induction 1; econstructor; eauto.
Qed.

Lemma Chain_length R ts g rs g' :
  Chain R ts g rs g' -> List.length rs = List.length ts.
Proof. induction 1; simpl; congruence. Qed.

(** A property of every step that does not mention the states holds of
    every input paired with its output. *)
Lemma Chain_Forall2 R (P : T -> A -> Prop) ts g rs g' :
  (forall t g a g1, R t g a g1 -> P t a) ->
  Chain R ts g rs g' -> Forall2 P ts rs.
Proof.
  intros Himp. induction 1; constructor; eauto.
Qed.

Lemma Chain_Forall R (P : A -> Prop) ts g rs g' :
  (forall t g a g1, R t g a g1 -> P a) ->
  Chain R ts g rs g' -> Forall P rs.
Proof.
  intros Himp. induction 1; constructor; eauto.
Qed.

End ChainFacts.

(** ** Lists: the flat sequence of triples *)

Lemma range_length n : List.length (range n) = Z.to_nat n.
Proof. unfold range. now rewrite length_map, length_seq. Qed.

Lemma range_nth n k :
  (k < Z.to_nat n)%nat -> nth_error (range n) k = Some (Z.of_nat k).
Proof.
  intros Hk. unfold range.
  rewrite nth_error_map, nth_error_nth' with (d := 0%nat) by now rewrite length_seq.
  rewrite seq_nth by assumption. reflexivity.
Qed.

Lemma flat_map_length_uniform {A B} (f : A -> list B) (m : nat) (xs : list A) :
  (forall x, List.length (f x) = m) ->
  List.length (flat_map f xs) = (List.length xs * m)%nat.
Proof.
  intros Hf. induction xs as [|x xs IH]; simpl; [reflexivity|].
  now rewrite length_app, Hf, IH.
Qed.

(** In a concatenation of blocks of the same length [m], element [j] of
    block [i] sits at index [i * m + j]. *)
Lemma flat_map_nth_uniform {A B} (f : A -> list B) (m : nat) (xs : list A) :
  (forall x, List.length (f x) = m) ->
  forall i j x, nth_error xs i = Some x -> (j < m)%nat ->
  nth_error (flat_map f xs) (i * m + j) = nth_error (f x) j.
Proof.
  intros Hf. induction xs as [|y xs IH]; intros i j x Hi Hj.
  - destruct i; discriminate.
  - destruct i as [|i]; simpl in *.
    + injection Hi as ->. rewrite nth_error_app1 by (rewrite Hf; lia).
      reflexivity.
    + rewrite nth_error_app2 by (rewrite Hf; lia).
      rewrite Hf. replace (m + i * m + j - m)%nat with (i * m + j)%nat by lia.
      now apply IH.
Qed.

Lemma Forall2_nth_error {A B} (P : A -> B -> Prop) xs ys :
  Forall2 P xs ys ->
  forall i x, nth_error xs i = Some x ->
  exists y, nth_error ys i = Some y /\ P x y.
Proof.
  induction 1 as [|x0 y0 xs ys Hxy Hrest IH]; intros i x Hi.
  - destruct i; discriminate.
  - destruct i as [|i]; simpl in *.
    + injection Hi as ->. eauto.
    + eauto.
Qed.

Section TripleFacts.

Import Spec.

Lemma triples_of_track_length day regions track :
  List.length (triples_of_track day regions track) = List.length regions.
Proof. unfold triples_of_track. apply length_map. Qed.

Lemma triples_of_day_length tracks regions day :
  List.length (triples_of_day tracks regions day)
  = (List.length tracks * List.length regions)%nat.
Proof.
  unfold triples_of_day. apply flat_map_length_uniform.
  intros; apply triples_of_track_length.
Qed.

Lemma triples_length start num_days tracks regions :
  List.length (triples start num_days tracks regions)
  = (Z.to_nat num_days * (List.length tracks * List.length regions))%nat.
Proof.
  unfold triples.
  rewrite flat_map_length_uniform
    with (m := (List.length tracks * List.length regions)%nat).
  - now rewrite range_length.
  - intros; apply triples_of_day_length.
Qed.

(** Day [k], track [i], region [j] is the triple at index
    [k * (|tracks| * |regions|) + (i * |regions| + j)]. *)
Lemma triples_nth start num_days tracks regions k i j track region :
  (k < Z.to_nat num_days)%nat ->
  nth_error tracks i = Some track ->
  nth_error regions j = Some region ->
  nth_error (triples start num_days tracks regions)
            (k * (List.length tracks * List.length regions)
             + (i * List.length regions + j))
  = Some (start + Z.of_nat k, track, region).
Proof.
  intros Hk Hi Hj.
  assert (Hjlt : (j < List.length regions)%nat)
    by (apply nth_error_Some; congruence).
  assert (Hilt : (i < List.length tracks)%nat)
    by (apply nth_error_Some; congruence).
  unfold triples.
  rewrite flat_map_nth_uniform
    with (m := (List.length tracks * List.length regions)%nat)
         (x := Z.of_nat k).
  - unfold triples_of_day.
    rewrite flat_map_nth_uniform with (m := List.length regions) (x := track);
      auto using triples_of_track_length.
    unfold triples_of_track. rewrite nth_error_map, Hj. reflexivity.
  - intros; apply triples_of_day_length.
  - now apply range_nth.
  - nia.
Qed.

End TripleFacts.

(** ** The program against the model *)

(** The outcome of a step on the generator alone, put back in a world whose
    log is that of [w]. *)
Definition on_rng {G A : Type} (w : world G) (p : result A * G)
  : result A * world G :=
  (fst p, mkWorld (snd p) (log w)).

Lemma flat_map_singleton {A B} (f : A -> B) (l : list A) :
  flat_map (fun x => [f x]) l = map f l.
Proof. induction l; simpl; congruence. Qed.

Section ProgramFacts.

Context {G : Type} {RS : RandomSource G}.
Variable config : Config.

Lemma is_weekend_spec date : is_weekend date = Spec.weekend_day date.
Proof.
  unfold is_weekend, Spec.weekend_day. simpl. now rewrite orb_false_r.
Qed.

Lemma is_summer_month_spec date :
  is_summer_month date = Spec.summer_month date.
Proof.
  unfold is_summer_month, Spec.summer_month. simpl.
  now rewrite orb_false_r, orb_assoc.
Qed.

(** [calculate_streams] applies the layers of steps 2 to 5 to the value it
    is given. *)
Lemma calculate_streams_layers popularity date base_streams w :
  calculate_streams config popularity date base_streams w
  = on_rng w (Spec.layers_after_base config date base_streams (rng w)).
Proof.
  unfold calculate_streams, Spec.layers_after_base,
    Spec.viral_season_truncate, on_rng, bind, ret, lift, uniform, random.
  rewrite is_weekend_spec, is_summer_month_spec.
  destruct (Spec.weekend_day date); simpl.
  - destruct (np_random_uniform _ _ (rng w)) as [b g1]; simpl.
    destruct (np_random_random g1) as [r g2]; simpl.
    destruct (r <? VIRAL_SPIKE_PROBABILITY config)%float; simpl.
    + destruct (np_random_uniform _ _ g2) as [v g3]; reflexivity.
    + reflexivity.
  - destruct (np_random_random (rng w)) as [r g2]; simpl.
    destruct (r <? VIRAL_SPIKE_PROBABILITY config)%float; simpl.
    + destruct (np_random_uniform _ _ g2) as [v g3]; reflexivity.
    + reflexivity.
Qed.

Lemma calculate_playlist_adds_spec streams w :
  calculate_playlist_adds config streams w
  = on_rng w (Spec.playlist_adds config streams (rng w)).
Proof.
  unfold calculate_playlist_adds, Spec.playlist_adds, on_rng, bind, lift,
    uniform.
  destruct w as [g l]; simpl.
  destruct (truediv_int streams (PLAYLIST_ADDS_DIVISOR config)) as [e|q];
    simpl; [reflexivity|].
  destruct (np_random_uniform lit_0_8 lit_1_2 g) as [v g']; reflexivity.
Qed.

(** One pass through the innermost loop is one simulated triple, its
    record appended. *)
Lemma loop_body_spec date track region records w :
  loop_body config date track region records w
  = match Spec.simulate_triple config (date, track, region) (rng w) with
    | (inl e, g) => (inl e, mkWorld g (log w))
    | (inr record, g) => (inr (records ++ [record]), mkWorld g (log w))
    end.
Proof.
  unfold loop_body, Spec.simulate_triple, Spec.layered_streams.
  unfold bind at 1. unfold uniform at 1.
  destruct (np_random_uniform _ _ (rng w)) as [u g1].
  unfold bind at 1. rewrite calculate_streams_layers. unfold on_rng; simpl.
  destruct (Spec.layers_after_base config date _ g1) as [[e|streams] g2];
    simpl; [reflexivity|].
  unfold bind at 1. rewrite calculate_playlist_adds_spec.
  unfold on_rng; simpl.
  destruct (Spec.playlist_adds config streams g2) as [[e|adds] g3];
    reflexivity.
Qed.

(** The step relation of a run: a triple that returns its record. *)
Definition triple_step (t : Spec.triple) (g : G) (r : StreamingRecord)
           (g' : G) : Prop :=
  Spec.simulate_triple config t g = (inr r, g').

(** A loop whose every pass appends the records of a chain of steps
    appends, when it returns, the records of the chained passes. *)
Lemma for_chain {X : Type} (f : X -> list Spec.triple)
      (body : X -> list StreamingRecord -> M G (list StreamingRecord))
      (xs : list X) :
  (forall x acc w acc' w',
      In x xs ->
      body x acc w = (inr acc', w') ->
      exists rs, acc' = acc ++ rs
                 /\ Chain triple_step (f x) (rng w) rs (rng w')) ->
  forall acc w acc' w',
    for_ xs body acc w = (inr acc', w') ->
    exists rs, acc' = acc ++ rs
               /\ Chain triple_step (flat_map f xs) (rng w) rs (rng w').
Proof.
  induction xs as [|x xs IH]; intros Hbody acc w acc' w' Hrun; simpl in *.
  - unfold ret in Hrun. injection Hrun as <- <-.
    exists []. split; [now rewrite app_nil_r | constructor].
  - unfold bind in Hrun.
    destruct (body x acc w) as [[e|acc1] w1] eqn:Hx; [discriminate|].
    destruct (Hbody x acc w acc1 w1 (or_introl eq_refl) Hx)
      as (rs1 & -> & Hc1).
    destruct (IH (fun y a v a' v' Hin => Hbody y a v a' v' (or_intror Hin))
                 _ _ _ _ Hrun) as (rs2 & -> & Hc2).
    exists (rs1 ++ rs2). split; [now rewrite app_assoc|].
    eapply Chain_app; eauto.
Qed.

Lemma regions_loop_chain date track regions acc w acc' w' :
  for_ regions (loop_body config date track) acc w = (inr acc', w') ->
  exists rs, acc' = acc ++ rs
             /\ Chain triple_step (Spec.triples_of_track date regions track)
                      (rng w) rs (rng w').
Proof.
  intros Hrun. unfold Spec.triples_of_track.
  rewrite <- flat_map_singleton.
  eapply for_chain; [|exact Hrun].
  intros region a v a' v' _ Hbody.
  rewrite loop_body_spec in Hbody.
  destruct (Spec.simulate_triple config (date, track, region) (rng v))
    as [[e|record] g1] eqn:Hstep; [discriminate|].
  injection Hbody as <- <-. exists [record]. split; [reflexivity|].
  econstructor; [exact Hstep | constructor].
Qed.

Lemma tracks_loop_chain date tracks regions acc w acc' w' :
  for_ tracks
    (fun track records => for_ regions (loop_body config date track) records)
    acc w = (inr acc', w') ->
  exists rs, acc' = acc ++ rs
             /\ Chain triple_step (Spec.triples_of_day tracks regions date)
                      (rng w) rs (rng w').
Proof.
  intros Hrun. unfold Spec.triples_of_day.
  eapply for_chain; [|exact Hrun].
  intros track a v a' v' _ Hbody. now apply regions_loop_chain.
Qed.

(** A run that returns parsed its start date and chained the triples of
    every day of the horizon, in order, each day [k] dated [start + k]. *)
Lemma generate_chain tracks num_days start_date regions w records w' :
  generate_streaming_data config tracks num_days start_date regions w
  = (inr records, w') ->
  exists start,
    strptime_ymd start_date = inr start
    /\ Chain triple_step (Spec.triples start num_days tracks regions)
             (rng w) records (rng w').
Proof.
  unfold generate_streaming_data. intros Hrun.
  unfold bind at 1 in Hrun. unfold logger_info at 1 in Hrun.
  unfold bind at 1 in Hrun. unfold lift at 1 in Hrun.
  destruct (strptime_ymd start_date) as [e|start]; [discriminate|].
  exists start. split; [reflexivity|].
  unfold bind at 1 in Hrun.
  match type of Hrun with
  | context [for_ ?xs ?body ?acc ?v] =>
      destruct (for_ xs body acc v) as [[e|recs1] w1] eqn:Hdays
  end; [discriminate|].
  unfold bind, logger_info, ret in Hrun. simpl in Hrun.
  injection Hrun as <- <-. simpl.
  unfold Spec.triples.
  eapply for_chain in Hdays.
  - destruct Hdays as (rs & -> & Hc). exact Hc.
  - intros k a v a' v' _ Hbody.
    unfold bind at 1 in Hbody. unfold lift at 1 in Hbody.
    unfold add_days in Hbody.
    destruct ((0 <? start + k) && (start + k <=? _MAXORDINAL));
      [|discriminate].
    unfold bind at 1 in Hbody.
    destruct ((k + 1) mod 30 =? 0).
    + unfold logger_info at 1 in Hbody.
      apply tracks_loop_chain in Hbody. exact Hbody.
    + unfold ret at 1 in Hbody.
      apply tracks_loop_chain in Hbody. exact Hbody.
Qed.

End ProgramFacts.

(** ** A concrete run, for the instances below

    Two tracks (popularity 50 and 0), one region, three days from Saturday
    2023-01-07; every constant and every unit draw is a dyadic number, so
    the figures can be checked by hand. *)

Module Demo.

Import Tape.

Definition cfg : Config := {|
  BASE_STREAM_MULTIPLIER_MIN := 100;
  BASE_STREAM_MULTIPLIER_MAX := 1000;
  WEEKEND_BOOST_MIN := 0.125;
  WEEKEND_BOOST_MAX := 0.25;
  VIRAL_SPIKE_PROBABILITY := 0.0625;
  VIRAL_SPIKE_MULTIPLIER_MIN := 2;
  VIRAL_SPIKE_MULTIPLIER_MAX := 5;
  SUMMER_BOOST := 0.125;
  PLAYLIST_ADDS_DIVISOR := 100
|}.

Definition hit : Track :=
  {| track_id := "t1"; track_name := "Hit"; artists := "A"; popularity := 50 |}.

Definition flop : Track :=
  {| track_id := "t0"; track_name := "Flop"; artists := "B"; popularity := 0 |}.

Definition tracks : list Track := [hit; flop].

Definition regions : list string := ["US"%string].

(** Unit draws: one half throughout, so that no viral spike fires. *)
Definition w0 : world (list float) :=
  mkWorld (repeat 0.5%float 32) [].

Definition run : result (list StreamingRecord) * world (list float) :=
  Eval vm_compute in
    generate_streaming_data cfg tracks 3 "2023-01-07" regions w0.

Definition records : list StreamingRecord :=
  match fst run with inr rs => rs | inl _ => [] end.

Lemma demo_run_eq :
  generate_streaming_data cfg tracks 3 "2023-01-07" regions w0
  = (inr records, snd run).
Proof. vm_compute. reflexivity. Defined.

End Demo.

Example demo_first_record :
  nth_error Demo.records 0
  = Some {| r_date := "2023-01-07"; r_track_id := "t1"; r_track_name := "Hit";
            r_artists := "A"; r_streams := 32656; r_region := "US";
            r_playlist_adds := 326; r_popularity := 50 |}.
Proof. reflexivity. Qed.

(** 2023-01-06 was a Friday, 2023-01-07 a Saturday, 2023-01-08 a Sunday. *)
Example strptime_2023_01_06 : strptime_ymd "2023-01-06" = inr 738526.
Proof. reflexivity. Qed.

Example weekday_friday_saturday_sunday :
  map weekday [738526; 738527; 738528] = [4; 5; 6].
Proof. reflexivity. Qed.

Example is_weekend_friday_saturday_sunday :
  map is_weekend [738526; 738527; 738528] = [true; true; false].
Proof. reflexivity. Qed.

(** Years of fewer than four digits are not padded. *)
Example strftime_short_years :
  map strftime_ymd [_ymd2ord 999 12 31; _ymd2ord 1000 1 1; _ymd2ord 87 6 5;
                    _ymd2ord 1 1 1]
  = ["999-12-31"; "1000-01-01"; "87-06-05"; "1-01-01"]%string.
Proof. reflexivity. Qed.

Example strftime_round_trip : strftime_ymd 738526 = "2023-01-06"%string.
Proof. reflexivity. Qed.

(** ** The claims about the simulator *)

Section SimulatorClaims.

Context {G : Type} {RS : RandomSource G}.
Variable config : Config.

(** C10.  [calculate_streams] ignores its popularity argument: for any two
    popularity values, and the same date, base value and state (generator
    and log), it returns the same count and leaves the same state. *)
Theorem C10_popularity_argument_unused :
  forall (p1 p2 : Z) (date : datetime) (base_streams : float) (w : world G),
    calculate_streams config p1 date base_streams w
    = calculate_streams config p2 date base_streams w.
Proof. intros. reflexivity. Qed.

(** C5.  [calculate_streams] applies the weekend factor
    [1 + U(weekend_boost_min, weekend_boost_max)] exactly when the weekday
    index of the date, Monday being 0, is 4 or 5 (Friday or Saturday); on
    any other day the value goes to the later layers unchanged, from the
    same generator state: no weekend draw is consumed. *)
Theorem C5_weekend_is_friday_saturday :
  forall (popularity : Z) (date : datetime) (base_streams : float)
         (w : world G),
    calculate_streams config popularity date base_streams w
    = if (weekday date =? 4) || (weekday date =? 5)
      then
        let (b, g1) := np_random_uniform (WEEKEND_BOOST_MIN config)
                                         (WEEKEND_BOOST_MAX config) (rng w) in
        on_rng w (Spec.viral_season_truncate config date
                    (base_streams * (1 + b))%float g1)
      else
        on_rng w (Spec.viral_season_truncate config date base_streams (rng w)).
Proof.
  intros. rewrite calculate_streams_layers.
  unfold Spec.layers_after_base, Spec.weekend_day.
  destruct ((weekday date =? 4) || (weekday date =? 5)); [|reflexivity].
  destruct (np_random_uniform _ _ (rng w)); reflexivity.
Qed.

(** C1.  In a run that returns, the records are those of the triples taken
    in order, each from the generator state its predecessor left, and the
    streaming count of each is the layered product of the model: a fresh
    base draw times the popularity, then the weekend, viral and summer
    factors in that order, truncated towards zero once at the end.  The
    next triple starts from the state left by the playlist-adds step. *)
Theorem C1_streams_layered_product :
  forall tracks num_days start_date regions (w : world G) records w',
    generate_streaming_data config tracks num_days start_date regions w
    = (inr records, w') ->
    exists start,
      strptime_ymd start_date = inr start
      /\ Chain
           (fun (t : Spec.triple) g r g' =>
              exists g1,
                Spec.layered_streams config (popularity (snd (fst t)))
                  (fst (fst t)) g = (inr (r_streams r), g1)
                /\ snd (Spec.playlist_adds config (r_streams r) g1) = g')
           (Spec.triples start num_days tracks regions)
           (rng w) records (rng w').
Proof.
  intros * Hrun.
  destruct (generate_chain config _ _ _ _ _ _ _ Hrun) as (start & Hs & Hc).
  exists start. split; [exact Hs|].
  eapply Chain_impl; [|exact Hc].
  intros [[day track] region] g r g1. unfold triple_step, Spec.simulate_triple.
  simpl.
  destruct (Spec.layered_streams config (popularity track) day g)
    as [[e|streams] g2]; [discriminate|].
  destruct (Spec.playlist_adds config streams g2) as [[e|adds] g3] eqn:Ha;
    [discriminate|].
  intros [= <- <-]. simpl. exists g2. now rewrite Ha.
Qed.

(** C3.  A run that returns yields exactly
    [num_days * |tracks| * |regions|] records (none for a horizon that is
    not positive). *)
Theorem C3_record_count :
  forall tracks num_days start_date regions (w : world G) records w',
    generate_streaming_data config tracks num_days start_date regions w
    = (inr records, w') ->
    List.length records
    = (Z.to_nat num_days * List.length tracks * List.length regions)%nat.
Proof.
  intros * Hrun.
  destruct (generate_chain config _ _ _ _ _ _ _ Hrun) as (start & _ & Hc).
  apply Chain_length in Hc. rewrite Hc, triples_length. lia.
Qed.

(** C4.  In a run that returns, the record of day offset [k], of the
    [i]-th track of the catalog and of the [j]-th region of the list is at
    index [k * (|tracks| * |regions|) + i * |regions| + j]: the order is
    day-major, then track, then region.  It carries the date
    [start_date + k] days ([start_date] itself for [k = 0]), the track's
    attributes and the region. *)
Theorem C4_day_major_order :
  forall tracks num_days start_date regions (w : world G) records w',
    generate_streaming_data config tracks num_days start_date regions w
    = (inr records, w') ->
    exists start,
      strptime_ymd start_date = inr start
      /\ forall k i j track region,
          (k < Z.to_nat num_days)%nat ->
          nth_error tracks i = Some track ->
          nth_error regions j = Some region ->
          exists r,
            nth_error records
              (k * (List.length tracks * List.length regions)
               + (i * List.length regions + j)) = Some r
            /\ r_date r = strftime_ymd (start + Z.of_nat k)
            /\ r_track_id r = track_id track
            /\ r_track_name r = track_name track
            /\ r_artists r = artists track
            /\ r_popularity r = popularity track
            /\ r_region r = region.
Proof.
  intros * Hrun.
  destruct (generate_chain config _ _ _ _ _ _ _ Hrun) as (start & Hs & Hc).
  exists start. split; [exact Hs|].
  intros k i j track region Hk Hi Hj.
  pose proof (triples_nth start num_days tracks regions k i j track region
                Hk Hi Hj) as Hnth.
  eapply Chain_Forall2 with
    (P := fun (t : Spec.triple) r =>
            r_date r = strftime_ymd (fst (fst t))
            /\ r_track_id r = track_id (snd (fst t))
            /\ r_track_name r = track_name (snd (fst t))
            /\ r_artists r = artists (snd (fst t))
            /\ r_popularity r = popularity (snd (fst t))
            /\ r_region r = snd t) in Hc.
  - destruct (Forall2_nth_error _ _ _ Hc _ _ Hnth) as (r & Hr & HP).
    exists r. split; [exact Hr | exact HP].
  - intros [[day tr] reg] g r g1. unfold triple_step, Spec.simulate_triple.
    destruct (Spec.layered_streams config (popularity tr) day g)
      as [[e|streams] g2]; [discriminate|].
    destruct (Spec.playlist_adds config streams g2) as [[e|adds] g3];
      [discriminate|].
    intros [= <- <-]. simpl. repeat split; reflexivity.
Qed.

End SimulatorClaims.

Lemma C1_witness :
  generate_streaming_data Demo.cfg Demo.tracks 3 "2023-01-07" Demo.regions Demo.w0
  = (inr Demo.records, snd Demo.run)
  /\ exists start,
      strptime_ymd "2023-01-07" = inr start
      /\ Chain
           (fun (t : Spec.triple) g r g' =>
              exists g1,
                Spec.layered_streams Demo.cfg (popularity (snd (fst t)))
                  (fst (fst t)) g = (inr (r_streams r), g1)
                /\ snd (Spec.playlist_adds Demo.cfg (r_streams r) g1) = g')
           (Spec.triples start 3 Demo.tracks Demo.regions)
           (rng Demo.w0) Demo.records (rng (snd Demo.run)).
Proof.
  split; [exact Demo.demo_run_eq|].
  exact (C1_streams_layered_product Demo.cfg _ _ _ _ _ _ _ Demo.demo_run_eq).
Defined.

Lemma C3_witness :
  generate_streaming_data Demo.cfg Demo.tracks 3 "2023-01-07" Demo.regions Demo.w0
  = (inr Demo.records, snd Demo.run)
  /\ List.length Demo.records = (3 * 2 * 1)%nat.
Proof.
  split; [exact Demo.demo_run_eq|].
  exact (C3_record_count Demo.cfg _ _ _ _ _ _ _ Demo.demo_run_eq).
Defined.

Lemma C4_witness :
  generate_streaming_data Demo.cfg Demo.tracks 3 "2023-01-07" Demo.regions Demo.w0
  = (inr Demo.records, snd Demo.run)
  /\ exists start,
      strptime_ymd "2023-01-07" = inr start
      /\ forall k i j track region,
          (k < Z.to_nat 3)%nat ->
          nth_error Demo.tracks i = Some track ->
          nth_error Demo.regions j = Some region ->
          exists r,
            nth_error Demo.records
              (k * (List.length Demo.tracks * List.length Demo.regions)
               + (i * List.length Demo.regions + j)) = Some r
            /\ r_date r = strftime_ymd (start + Z.of_nat k)
            /\ r_track_id r = track_id track
            /\ r_track_name r = track_name track
            /\ r_artists r = artists track
            /\ r_popularity r = popularity track
            /\ r_region r = region.
Proof.
  split; [exact Demo.demo_run_eq|].
  exact (C4_day_major_order Demo.cfg _ _ _ _ _ _ _ Demo.demo_run_eq).
Defined.

(** ** Conversions to integers *)

Lemma int_of_float_nonneg x z :
  nonneg_or_nan x -> int_of_float x = inr z -> 0 <= z.
Proof.
  unfold nonneg_or_nan, int_of_float, trunc_finite.
  destruct (Prim2SF x) as [s|s| |s m e]; simpl; try discriminate.
  - intros _ [= <-]. lia.
  - destruct s; simpl; [discriminate|]. intros _ [= <-].
    apply Z.shiftl_nonneg. lia.
Qed.

Lemma int_of_float_null x z :
  zero_or_nan x -> int_of_float x = inr z -> z = 0.
Proof.
  unfold zero_or_nan, int_of_float.
  destruct (Prim2SF x) as [s|s| |s m e]; simpl; try discriminate.
  now intros _ [= <-].
Qed.

(** On a value that is not negative, truncation and floor agree. *)
Lemma floor_of_float_nonneg x :
  nonneg_or_nan x -> Spec.floor_of_float x = int_of_float x.
Proof.
  unfold nonneg_or_nan, Spec.floor_of_float, int_of_float, trunc_finite.
  destruct (Prim2SF x) as [s|s| |s m e]; simpl; try reflexivity.
  destruct s; simpl; [discriminate | reflexivity].
Qed.

(** [int] rounds towards zero: the integer part of [m * 2^e], with the
    sign put back. *)
Lemma trunc_finite_quot s m e :
  trunc_finite s m e
  = Z.quot (cond_Zopp s (Zpos m) * 2 ^ Z.max e 0) (2 ^ Z.max (- e) 0).
Proof.
  unfold trunc_finite.
  destruct (Z.le_ge_cases 0 e) as [He|He].
  - rewrite Z.shiftl_mul_pow2 by assumption.
    rewrite (Z.max_l e 0), (Z.max_r (- e) 0) by lia.
    rewrite Z.pow_0_r, Z.quot_1_r. unfold cond_Zopp.
    destruct s; [now rewrite Z.mul_opp_l | reflexivity].
  - rewrite Z.shiftl_div_pow2 by assumption.
    rewrite (Z.max_r e 0), (Z.max_l (- e) 0) by lia.
    rewrite Z.pow_0_r, Z.mul_1_r.
    assert (Hp : 0 < 2 ^ (- e)) by (apply Z.pow_pos_nonneg; lia).
    unfold cond_Zopp. destruct s.
    + rewrite Z.quot_opp_l by lia.
      f_equal. symmetry. apply Z.quot_div_nonneg; lia.
    + symmetry. apply Z.quot_div_nonneg; lia.
Qed.

Lemma float_of_Z_nonneg n : 0 <= n -> nonneg_or_nan (float_of_Z n).
Proof.
  intros Hn. apply SF2Prim_nonneg, binary_normalize_nonneg, Hn.
Qed.

Lemma float_of_Z_zero_null : zero_or_nan (float_of_Z 0).
Proof. reflexivity. Qed.

Lemma float_of_int_eq n f : float_of_int n = inr f -> f = float_of_Z n.
Proof.
  unfold float_of_int. destruct (is_infinity (float_of_Z n)); congruence.
Qed.

Lemma truediv_int_eq n d q :
  truediv_int n d = inr q ->
  is_zero d = false /\ q = (float_of_Z n / d)%float.
Proof.
  unfold truediv_int. destruct (is_zero d); [discriminate|].
  destruct (float_of_int n) as [e|f] eqn:Hf; [discriminate|].
  intros [= <-]. apply float_of_int_eq in Hf. now subst.
Qed.

(** ** The playlist-adds step (C2) *)

(** A configuration with a negative divisor, and a generator whose next
    unit draw is one half (so that the variance drawn is
    [0.8 + 0.4 * 0.5 = 1]). *)
Module NegativeDivisor.

Definition cfg : Config := {|
  BASE_STREAM_MULTIPLIER_MIN := 100;
  BASE_STREAM_MULTIPLIER_MAX := 1000;
  WEEKEND_BOOST_MIN := 0.125;
  WEEKEND_BOOST_MAX := 0.25;
  VIRAL_SPIKE_PROBABILITY := 0.0625;
  VIRAL_SPIKE_MULTIPLIER_MIN := 2;
  VIRAL_SPIKE_MULTIPLIER_MAX := 5;
  SUMMER_BOOST := 0.125;
  PLAYLIST_ADDS_DIVISOR := (-100)
|}.

Definition w0 : world (list float) := mkWorld [0.5%float] [].

End NegativeDivisor.

(** C2, as stated, fails: with [streams = 150], a divisor of [-100] and a
    variance of 1, the product is [-1.5]; the program returns
    [int(-1.5) = -1], the floor is [-2]. *)
Lemma C2_counterexample :
  fst (calculate_playlist_adds NegativeDivisor.cfg 150 NegativeDivisor.w0)
  = inr (-1)
  /\ fst (Spec.playlist_adds_floor NegativeDivisor.cfg 150
            (rng NegativeDivisor.w0)) = inr (-2).
Proof. split; vm_compute; reflexivity. Qed.

Section PlaylistAdds.

Context {G : Type} {RS : RandomSource G}.
Variable config : Config.

(** A zero divisor raises before the variance is drawn: the state is left
    as it was. *)
Lemma calculate_playlist_adds_zero_divisor streams (w : world G) :
  is_zero (PLAYLIST_ADDS_DIVISOR config) = true ->
  calculate_playlist_adds config streams w
  = (inl (ZeroDivisionError "division by zero"), w).
Proof.
  intros Hz. unfold calculate_playlist_adds, bind, lift, truediv_int.
  now rewrite Hz.
Qed.

(** C2 (amended).  In a run that returns, the playlist-add count of every
    triple is [int((streams / playlist_adds_divisor) * v)], truncated
    towards zero, where [streams] is the count already truncated for the
    triple and [v] is drawn by [uniform(0.8, 1.2)] from the state the
    streaming step left; the state after the draw is the one the next triple
    starts from, whatever [streams] is.  Whenever the product is not
    negative, the count is also its floor. *)
Theorem C2_playlist_adds_truncated :
  forall tracks num_days start_date regions (w : world G) records w',
    generate_streaming_data config tracks num_days start_date regions w
    = (inr records, w') ->
    exists start,
      strptime_ymd start_date = inr start
      /\ Chain
           (fun (t : Spec.triple) g r g' =>
              exists g1 q v,
                Spec.layered_streams config (popularity (snd (fst t)))
                  (fst (fst t)) g = (inr (r_streams r), g1)
                /\ truediv_int (r_streams r) (PLAYLIST_ADDS_DIVISOR config)
                   = inr q
                /\ np_random_uniform lit_0_8 lit_1_2 g1 = (v, g')
                /\ int_of_float (q * v) = inr (r_playlist_adds r)
                /\ (nonneg_or_nan (q * v) ->
                    Spec.floor_of_float (q * v) = inr (r_playlist_adds r)))
           (Spec.triples start num_days tracks regions)
           (rng w) records (rng w').
Proof.
  intros * Hrun.
  destruct (generate_chain config _ _ _ _ _ _ _ Hrun) as (start & Hs & Hc).
  exists start. split; [exact Hs|].
  eapply Chain_impl; [|exact Hc].
  intros [[day track] region] g r g3. unfold triple_step, Spec.simulate_triple.
  simpl.
  destruct (Spec.layered_streams config (popularity track) day g)
    as [[e|streams] g1]; [discriminate|].
  unfold Spec.playlist_adds.
  destruct (truediv_int streams (PLAYLIST_ADDS_DIVISOR config)) as [e|q] eqn:Hq;
    [discriminate|].
  destruct (np_random_uniform lit_0_8 lit_1_2 g1) as [v g2] eqn:Hv.
  destruct (int_of_float (q * v)) as [e|adds] eqn:Ha; [discriminate|].
  intros [= <- <-]. simpl. exists g1, q, v.
  repeat split; auto.
  intros Hnn. now rewrite floor_of_float_nonneg.
Qed.

End PlaylistAdds.

Lemma C2_witness :
  generate_streaming_data Demo.cfg Demo.tracks 3 "2023-01-07" Demo.regions Demo.w0
  = (inr Demo.records, snd Demo.run)
  /\ exists start,
      strptime_ymd "2023-01-07" = inr start
      /\ Chain
           (fun (t : Spec.triple) g r g' =>
              exists g1 q v,
                Spec.layered_streams Demo.cfg (popularity (snd (fst t)))
                  (fst (fst t)) g = (inr (r_streams r), g1)
                /\ truediv_int (r_streams r) (PLAYLIST_ADDS_DIVISOR Demo.cfg)
                   = inr q
                /\ np_random_uniform lit_0_8 lit_1_2 g1 = (v, g')
                /\ int_of_float (q * v) = inr (r_playlist_adds r)
                /\ (nonneg_or_nan (q * v) ->
                    Spec.floor_of_float (q * v) = inr (r_playlist_adds r)))
           (Spec.triples start 3 Demo.tracks Demo.regions)
           (rng Demo.w0) Demo.records (rng (snd Demo.run)).
Proof.
  split; [exact Demo.demo_run_eq|].
  exact (C2_playlist_adds_truncated Demo.cfg _ _ _ _ _ _ _ Demo.demo_run_eq).
Defined.

(** ** Tracks of popularity zero (C9) *)

Section ZeroPopularity.

Context {G : Type} {RS : RandomSource G}.
Variable config : Config.

Lemma viral_season_truncate_null day streams (g : G) z g' :
  zero_or_nan streams ->
  Spec.viral_season_truncate config day streams g = (inr z, g') -> z = 0.
Proof.
  intros Hnull. unfold Spec.viral_season_truncate.
  destruct (np_random_random g) as [r g1].
  destruct (r <? VIRAL_SPIKE_PROBABILITY config)%float.
  - destruct (np_random_uniform _ _ g1) as [v g2].
    destruct (Spec.summer_month day); intros [= Hz _];
      refine (int_of_float_null _ _ _ Hz); auto using mul_null_l.
  - destruct (Spec.summer_month day); intros [= Hz _];
      refine (int_of_float_null _ _ _ Hz); auto using mul_null_l.
Qed.

Lemma layered_streams_null day (g : G) z g' :
  Spec.layered_streams config 0 day g = (inr z, g') -> z = 0.
Proof.
  unfold Spec.layered_streams, Spec.layers_after_base.
  destruct (np_random_uniform _ _ g) as [u g1].
  assert (Hbase : zero_or_nan (float_of_Z 0 * u))
    by apply mul_null_l, float_of_Z_zero_null.
  destruct (Spec.weekend_day day).
  - destruct (np_random_uniform _ _ g1) as [b g2].
    apply viral_season_truncate_null. now apply mul_null_l.
  - now apply viral_season_truncate_null.
Qed.

Lemma playlist_adds_null (g : G) a g' :
  Spec.playlist_adds config 0 g = (inr a, g') -> a = 0.
Proof.
  unfold Spec.playlist_adds.
  destruct (truediv_int 0 (PLAYLIST_ADDS_DIVISOR config)) as [e|q] eqn:Hq;
    [discriminate|].
  apply truediv_int_eq in Hq. destruct Hq as [_ ->].
  destruct (np_random_uniform lit_0_8 lit_1_2 g) as [v g1].
  intros [= Ha _]. eapply int_of_float_null; [|exact Ha].
  apply mul_null_l, div_null_l, float_of_Z_zero_null.
Qed.

(** C9.  In a run that returns, every record of a track whose popularity is
    0 has [streams = 0] and [playlist_adds = 0], on every day and in every
    region, whatever the generator draws (the divisor need not even be
    positive: a zero divisor makes the run raise, any other one gives 0). *)
Theorem C9_zero_popularity_zero_counts :
  forall tracks num_days start_date regions (w : world G) records w',
    generate_streaming_data config tracks num_days start_date regions w
    = (inr records, w') ->
    Forall (fun r => r_popularity r = 0 ->
                     r_streams r = 0 /\ r_playlist_adds r = 0) records.
Proof.
  intros * Hrun.
  destruct (generate_chain config _ _ _ _ _ _ _ Hrun) as (start & _ & Hc).
  eapply Chain_Forall; [|exact Hc].
  intros [[day track] region] g r g3. unfold triple_step, Spec.simulate_triple.
  destruct (Spec.layered_streams config (popularity track) day g)
    as [[e|streams] g1] eqn:Hs; [discriminate|].
  destruct (Spec.playlist_adds config streams g1) as [[e|adds] g2] eqn:Ha;
    [discriminate|].
  intros [= <- <-]. simpl. intros Hpop. rewrite Hpop in Hs.
  apply layered_streams_null in Hs. subst streams.
  apply playlist_adds_null in Ha. now subst adds.
Qed.

End ZeroPopularity.

Lemma C9_witness :
  generate_streaming_data Demo.cfg Demo.tracks 3 "2023-01-07" Demo.regions Demo.w0
  = (inr Demo.records, snd Demo.run)
  /\ Forall (fun r => r_popularity r = 0 ->
                      r_streams r = 0 /\ r_playlist_adds r = 0) Demo.records.
Proof.
  split; [exact Demo.demo_run_eq|].
  exact (C9_zero_popularity_zero_counts Demo.cfg _ _ _ _ _ _ _ Demo.demo_run_eq).
Defined.

(** ** The order on binary64 values *)

Lemma SFcompare_refl x : x <> S754_nan -> SFcompare x x = Some Eq.
Proof.
  destruct x as [s|s| |s m e]; simpl; intros Hx; try congruence.
  - destruct s; reflexivity.
  - rewrite Z.compare_refl, Pos.compare_cont_refl. destruct s; reflexivity.
Qed.

Lemma leb_refl_l a b : (a <=? b)%float = true -> (a <=? a)%float = true.
Proof.
  rewrite !leb_spec. unfold SFleb. intros H.
  rewrite SFcompare_refl; [reflexivity|].
  intros Hn. rewrite Hn in H. discriminate.
Qed.

Lemma leb_refl_r a b : (a <=? b)%float = true -> (b <=? b)%float = true.
Proof.
  rewrite !leb_spec. unfold SFleb. intros H.
  rewrite SFcompare_refl; [reflexivity|].
  intros Hn. rewrite Hn in H.
  destruct (Prim2SF a); discriminate.
Qed.

(** Two values that are not negative (hence not NaN) are comparable. *)
Lemma leb_total_nonneg a b :
  (0 <=? a)%float = true -> (0 <=? b)%float = true ->
  (a <=? b)%float = true \/ (b <=? a)%float = true.
Proof.
  rewrite !leb_spec. change (Prim2SF 0) with (S754_zero false).
  unfold SFleb.
  destruct (Prim2SF a) as [sa|sa| |sa ma ea], (Prim2SF b) as [sb|sb| |sb mb eb];
    simpl; try discriminate;
    try (destruct sa; try discriminate); try (destruct sb; try discriminate);
    intros _ _; auto.
  rewrite (Z.compare_antisym ea eb).
  change (Pos.compare_cont Eq mb ma)
    with (Pos.compare_cont (CompOpp Eq) mb ma).
  rewrite <- (Pos.compare_cont_antisym ma mb Eq).
  destruct (ea ?= eb); simpl; auto.
  destruct (Pos.compare_cont Eq ma mb); simpl; auto.
Qed.

(** ** Non-negative counts (C6) *)

(** The contract of [uniform(low, high)]: the draw lies between its
    endpoints, whichever is the smaller. *)
Definition draws_within_bounds (G : Type) {RS : RandomSource G} : Prop :=
  forall (low high : float) (g : G),
    let x := fst (np_random_uniform low high g) in
    ((low <=? high)%float = true ->
     (low <=? x)%float = true /\ (x <=? high)%float = true)
    /\ ((high <=? low)%float = true ->
        (high <=? x)%float = true /\ (x <=? low)%float = true).

(** Every multiplier endpoint, the summer boost and the viral parameters are
    at least 0, and the divisor is above 0. *)
Definition config_nonneg (config : Config) : Prop :=
  (0 <=? BASE_STREAM_MULTIPLIER_MIN config)%float = true
  /\ (0 <=? BASE_STREAM_MULTIPLIER_MAX config)%float = true
  /\ (0 <=? WEEKEND_BOOST_MIN config)%float = true
  /\ (0 <=? WEEKEND_BOOST_MAX config)%float = true
  /\ (0 <=? VIRAL_SPIKE_PROBABILITY config)%float = true
  /\ (0 <=? VIRAL_SPIKE_MULTIPLIER_MIN config)%float = true
  /\ (0 <=? VIRAL_SPIKE_MULTIPLIER_MAX config)%float = true
  /\ (0 <=? SUMMER_BOOST config)%float = true
  /\ (0 <? PLAYLIST_ADDS_DIVISOR config)%float = true.

(** A source whose unit draw is always 0: [uniform] answers its low
    endpoint, [random] answers 0. *)
Module LowEnd.

#[global] Instance source : RandomSource unit := {
  np_random_uniform := fun low _ g => (low, g);
  np_random_random := fun g => (0%float, g)
}.

Lemma within_bounds : draws_within_bounds unit.
Proof.
  intros low high g. simpl. split; intros H; split; auto.
  - exact (leb_refl_l _ _ H).
  - exact (leb_refl_r _ _ H).
Defined.

Definition w0 : world unit := mkWorld tt [].

Definition run : result (list StreamingRecord) * world unit :=
  Eval vm_compute in
    generate_streaming_data Demo.cfg Demo.tracks 3 "2023-01-07" Demo.regions w0.

Definition records : list StreamingRecord :=
  match fst run with inr rs => rs | inl _ => [] end.

Lemma low_run_eq :
  generate_streaming_data Demo.cfg Demo.tracks 3 "2023-01-07" Demo.regions w0
  = (inr records, snd run).
Proof. vm_compute. reflexivity. Defined.

End LowEnd.

Lemma Chain_Forall_in {T A G : Type} (R : T -> G -> A -> G -> Prop)
      (P : A -> Prop) ts g rs g' :
  (forall t g a g1, In t ts -> R t g a g1 -> P a) ->
  Chain R ts g rs g' -> Forall P rs.
Proof.
  intros Himp Hc. induction Hc as [|t ts g a g1 rs g2 Hstep Hrest IH].
  - constructor.
  - constructor.
    + eapply Himp; [left; reflexivity | exact Hstep].
    + apply IH. intros t' h a' h1 Hin. apply Himp. now right.
Qed.

Lemma triples_track_in start num_days tracks regions day track region :
  In (day, track, region) (Spec.triples start num_days tracks regions) ->
  In track tracks.
Proof.
  unfold Spec.triples, Spec.triples_of_day, Spec.triples_of_track.
  intros Hin. apply in_flat_map in Hin. destruct Hin as (k & _ & Hin).
  apply in_flat_map in Hin. destruct Hin as (t & Ht & Hin).
  apply in_map_iff in Hin. destruct Hin as (reg & [= _ <- _] & _).
  exact Ht.
Qed.

Section NonNegative.

Context {G : Type} {RS : RandomSource G}.
Variable config : Config.
Hypothesis within : draws_within_bounds G.

Lemma uniform_nonneg low high (g : G) :
  (0 <=? low)%float = true -> (0 <=? high)%float = true ->
  nonneg_or_nan (fst (np_random_uniform low high g)).
Proof.
  intros Hl Hh. destruct (within low high g) as [Hup Hdown].
  destruct (leb_total_nonneg low high Hl Hh) as [Hle|Hle].
  - apply leb_nonneg_trans with (a := low);
      [now apply leb_zero_nonneg | apply Hup, Hle].
  - apply leb_nonneg_trans with (a := high);
      [now apply leb_zero_nonneg | apply Hdown, Hle].
Qed.

Lemma one_plus_nonneg x : nonneg_or_nan x -> nonneg_or_nan (1 + x).
Proof. intros Hx. apply add_nonneg; [exact one_nonneg | exact Hx]. Qed.

Hypothesis cfg_ok : config_nonneg config.

Lemma viral_season_truncate_nonneg day streams (g : G) z g' :
  nonneg_or_nan streams ->
  Spec.viral_season_truncate config day streams g = (inr z, g') -> 0 <= z.
Proof.
  destruct cfg_ok as (_ & _ & _ & _ & _ & Hvmin & Hvmax & Hsum & _).
  intros Hnn. unfold Spec.viral_season_truncate.
  destruct (np_random_random g) as [r g1].
  assert (Hseason : nonneg_or_nan (1 + SUMMER_BOOST config))
    by now apply one_plus_nonneg, leb_zero_nonneg.
  destruct (r <? VIRAL_SPIKE_PROBABILITY config)%float.
  - pose proof (uniform_nonneg _ _ g1 Hvmin Hvmax) as Hv.
    destruct (np_random_uniform _ _ g1) as [v g2]. simpl in Hv.
    destruct (Spec.summer_month day); intros [= Hz _];
      refine (int_of_float_nonneg _ _ _ Hz); auto using mul_nonneg.
  - destruct (Spec.summer_month day); intros [= Hz _];
      refine (int_of_float_nonneg _ _ _ Hz); auto using mul_nonneg.
Qed.

Lemma layered_streams_nonneg popularity day (g : G) z g' :
  0 <= popularity ->
  Spec.layered_streams config popularity day g = (inr z, g') -> 0 <= z.
Proof.
  destruct cfg_ok as (Hbmin & Hbmax & Hwmin & Hwmax & _).
  intros Hpop. unfold Spec.layered_streams, Spec.layers_after_base.
  pose proof (uniform_nonneg _ _ g Hbmin Hbmax) as Hu.
  destruct (np_random_uniform _ _ g) as [u g1]. simpl in Hu.
  assert (Hbase : nonneg_or_nan (float_of_Z popularity * u))
    by (apply mul_nonneg; [now apply float_of_Z_nonneg | exact Hu]).
  destruct (Spec.weekend_day day).
  - pose proof (uniform_nonneg _ _ g1 Hwmin Hwmax) as Hb.
    destruct (np_random_uniform _ _ g1) as [b g2]. simpl in Hb.
    apply viral_season_truncate_nonneg.
    apply mul_nonneg; [exact Hbase | now apply one_plus_nonneg].
  - now apply viral_season_truncate_nonneg.
Qed.

Lemma playlist_adds_nonneg streams (g : G) a g' :
  0 <= streams ->
  Spec.playlist_adds config streams g = (inr a, g') -> 0 <= a.
Proof.
  destruct cfg_ok as (_ & _ & _ & _ & _ & _ & _ & _ & Hdiv).
  intros Hs. unfold Spec.playlist_adds.
  destruct (truediv_int streams (PLAYLIST_ADDS_DIVISOR config)) as [e|q] eqn:Hq;
    [discriminate|].
  apply truediv_int_eq in Hq. destruct Hq as [_ ->].
  assert (Hv : nonneg_or_nan (fst (np_random_uniform lit_0_8 lit_1_2 g)))
    by (apply uniform_nonneg; reflexivity).
  destruct (np_random_uniform lit_0_8 lit_1_2 g) as [v g1]. simpl in Hv.
  intros [= Ha _]. refine (int_of_float_nonneg _ _ _ Ha).
  apply mul_nonneg; [|exact Hv].
  apply div_nonneg; [now apply float_of_Z_nonneg | exact Hdiv].
Qed.

(** C6.  When every popularity is in [[0, 100]], every multiplier endpoint,
    the summer boost and the viral parameters are at least 0, the divisor is
    positive, and [uniform] draws between its endpoints, every record of a
    run that returns has [streams >= 0] and [playlist_adds >= 0] (both are
    integers by their type). *)
Theorem C6_counts_nonnegative :
  forall tracks num_days start_date regions (w : world G) records w',
    (forall t, In t tracks -> 0 <= popularity t <= 100) ->
    generate_streaming_data config tracks num_days start_date regions w
    = (inr records, w') ->
    Forall (fun r => 0 <= r_streams r /\ 0 <= r_playlist_adds r) records.
Proof.
  intros * Hpop Hrun.
  destruct (generate_chain config _ _ _ _ _ _ _ Hrun) as (start & _ & Hc).
  eapply Chain_Forall_in; [|exact Hc].
  intros [[day track] region] g r g3 Hin.
  apply triples_track_in in Hin.
  unfold triple_step, Spec.simulate_triple.
  destruct (Spec.layered_streams config (popularity track) day g)
    as [[e|streams] g1] eqn:Hs; [discriminate|].
  destruct (Spec.playlist_adds config streams g1) as [[e|adds] g2] eqn:Ha;
    [discriminate|].
  intros [= <- <-]. simpl.
  apply layered_streams_nonneg in Hs; [|apply Hpop, Hin].
  split; [exact Hs|]. now apply playlist_adds_nonneg in Ha.
Qed.

End NonNegative.

Lemma demo_config_nonneg : config_nonneg Demo.cfg.
Proof. repeat split. Defined.

Lemma demo_popularity_bounds :
  forall t, In t Demo.tracks -> 0 <= popularity t <= 100.
Proof.
  intros t [<-|[<-|[]]]; simpl; lia.
Defined.

Lemma C6_witness :
  draws_within_bounds unit
  /\ config_nonneg Demo.cfg
  /\ (forall t, In t Demo.tracks -> 0 <= popularity t <= 100)
  /\ generate_streaming_data Demo.cfg Demo.tracks 3 "2023-01-07" Demo.regions
       LowEnd.w0 = (inr LowEnd.records, snd LowEnd.run)
  /\ Forall (fun r => 0 <= r_streams r /\ 0 <= r_playlist_adds r)
       LowEnd.records.
Proof.
  split; [exact LowEnd.within_bounds|].
  split; [exact demo_config_nonneg|].
  split; [exact demo_popularity_bounds|].
  split; [exact LowEnd.low_run_eq|].
  exact (C6_counts_nonnegative Demo.cfg LowEnd.within_bounds demo_config_nonneg
           _ _ _ _ _ _ _ demo_popularity_bounds LowEnd.low_run_eq).
Defined.

(** ** The catalog loader (C7) *)

Lemma string_app_assoc (a b c : string) :
  ((a ++ b) ++ c)%string = (a ++ b ++ c)%string.
Proof. induction a as [|x a IH]; simpl; [reflexivity | now rewrite IH]. Qed.

(** [mentions msg s]: the text [s] occurs in the message. *)
Definition mentions (msg s : string) : Prop :=
  exists before after, msg = (before ++ s ++ after)%string.

Lemma mentions_prepend p msg s : mentions msg s -> mentions (p ++ msg) s.
Proof.
  intros (a & b & ->). exists (p ++ a)%string, b.
  now rewrite string_app_assoc.
Qed.

Lemma mentions_append p msg s : mentions msg s -> mentions (msg ++ p) s.
Proof.
  intros (a & b & ->). exists a, (b ++ p)%string.
  now rewrite !string_app_assoc.
Qed.

Lemma repr_items_cons x y rest :
  repr_items (x :: y :: rest) = ("'" ++ x ++ "', " ++ repr_items (y :: rest))%string.
Proof. reflexivity. Qed.

Lemma repr_items_mentions l c : In c l -> mentions (repr_items l) c.
Proof.
  induction l as [|x l IH]; intros Hin; [contradiction|].
  destruct Hin as [->|Hin].
  - destruct l as [|y l].
    + exists "'"%string, "'"%string. reflexivity.
    + rewrite repr_items_cons.
      exists "'"%string, ("', " ++ repr_items (y :: l))%string. reflexivity.
  - destruct l as [|y l]; [contradiction|].
    rewrite repr_items_cons.
    change ("'" ++ x ++ "', " ++ repr_items (y :: l))%string
      with ("'" ++ (x ++ "', " ++ repr_items (y :: l)))%string.
    apply mentions_prepend.
    rewrite <- string_app_assoc. apply mentions_prepend, IH, Hin.
Qed.

Lemma col_in_spec col cols : col_in col cols = true <-> In col cols.
Proof.
  unfold col_in. rewrite existsb_exists. split.
  - intros (x & Hin & Heq). apply String.eqb_eq in Heq. now subst.
  - intros Hin. exists col. split; [exact Hin | apply String.eqb_refl].
Qed.

Section LoaderClaims.

Context {G : Type} {RS : RandomSource G}.
Context {Row : Type}.
Variable read_csv : string -> result (DataFrame Row).

(** The required columns the table lacks, in the order of
    [required_columns]. *)
Definition missing_columns_of (df : DataFrame Row) : list string :=
  filter (fun col => negb (col_in col (columns df))) required_columns.

Lemma missing_columns_spec df c :
  In c (missing_columns_of df)
  <-> In c required_columns /\ ~ In c (columns df).
Proof.
  unfold missing_columns_of. rewrite filter_In, negb_true_iff.
  rewrite <- (col_in_spec c (columns df)).
  destruct (col_in c (columns df)); intuition congruence.
Qed.

Lemma load_outcome dataset_path df (w : world G) :
  read_csv dataset_path = inr df ->
  fst (load_spotify_dataset read_csv dataset_path w)
  = match missing_columns_of df with
    | [] => inr df
    | _ :: _ =>
        inl (ValueError ("Missing required columns: "
                         ++ repr_list (missing_columns_of df)))
    end.
Proof.
  intros Hread.
  unfold load_spotify_dataset, try_except, bind, lift, logger_info,
    logger_error, raise, ret, missing_columns_of.
  rewrite Hread.
  destruct (filter _ required_columns); reflexivity.
Qed.

(** C7.  When the catalog is read, the loader raises one [ValueError] if
    any of [track_id], [track_name], [artists], [popularity] is absent from
    its columns, and its message, ["Missing required columns: [...]"], lists
    every absent one; when the four are present it raises nothing and
    returns the table as read, rows in file order. *)
Theorem C7_loader_reports_all_missing :
  forall (dataset_path : string) (df : DataFrame Row) (w : world G),
    read_csv dataset_path = inr df ->
    let missing := missing_columns_of df in
    let outcome := fst (load_spotify_dataset read_csv dataset_path w) in
    (forall c, In c missing <-> In c required_columns /\ ~ In c (columns df))
    /\ (missing <> [] ->
        outcome = inl (ValueError ("Missing required columns: "
                                   ++ repr_list missing))
        /\ forall c, In c missing ->
             mentions ("Missing required columns: " ++ repr_list missing) c)
    /\ (missing = [] -> outcome = inr df).
Proof.
  intros dataset_path df w Hread missing outcome.
  split; [apply missing_columns_spec|].
  subst outcome. rewrite (load_outcome _ _ _ Hread). fold missing.
  split.
  - intros Hne. split.
    + destruct missing; [congruence | reflexivity].
    + intros c Hin. apply mentions_prepend.
      unfold repr_list. apply (mentions_prepend "["), mentions_append.
      now apply repr_items_mentions.
  - intros ->. reflexivity.
Qed.

End LoaderClaims.

(** A file system holding one catalog, which lacks [artists] and
    [popularity]. *)
Module Catalog.

Definition df : DataFrame (list string) := {|
  columns := ["track_id"; "track_name"; "album_name"]%string;
  rows := [["t1"; "Hit"; "First"]; ["t0"; "Flop"; "Second"]]%string
|}.

Definition read_csv (path : string) : result (DataFrame (list string)) :=
  if String.eqb path "tracks.csv" then inr df
  else inl (FileNotFoundError "No such file or directory").

End Catalog.

Example loader_message :
  fst (load_spotify_dataset Catalog.read_csv "tracks.csv" Demo.w0)
  = inl (ValueError "Missing required columns: ['artists', 'popularity']").
Proof. reflexivity. Qed.

Lemma C7_witness :
  Catalog.read_csv "tracks.csv" = inr Catalog.df
  /\ let missing := missing_columns_of Catalog.df in
     let outcome :=
       fst (load_spotify_dataset Catalog.read_csv "tracks.csv" Demo.w0) in
     (forall c, In c missing
                <-> In c required_columns /\ ~ In c (columns Catalog.df))
     /\ (missing <> [] ->
         outcome = inl (ValueError ("Missing required columns: "
                                    ++ repr_list missing))
         /\ forall c, In c missing ->
              mentions ("Missing required columns: " ++ repr_list missing) c)
     /\ (missing = [] -> outcome = inr Catalog.df).
Proof.
  split; [reflexivity|].
  exact (C7_loader_reports_all_missing Catalog.read_csv "tracks.csv"
           Catalog.df Demo.w0 eq_refl).
Defined.

(** ** Failures of the simulator (C8) *)

(** *** The start date *)

Lemma digit_of_bounds c v : digit_of c = Some v -> 0 <= v <= 9.
Proof.
  unfold digit_of.
  destruct ((48 <=? Z.of_nat (nat_of_ascii c))
            && (Z.of_nat (nat_of_ascii c) <=? 57)) eqn:Hc; [|discriminate].
  intros [= <-]. lia.
Qed.

Lemma in_range_bounds lo hi c v : in_range lo hi c = Some v -> lo <= v <= hi.
Proof.
  unfold in_range. destruct (digit_of c) as [u|]; [|discriminate].
  destruct ((lo <=? u) && (u <=? hi)) eqn:Hu; [|discriminate].
  intros [= <-]. lia.
Qed.

Lemma then_dash_value r v rest :
  then_dash r = Some (v, rest) -> exists rest', r = Some (v, rest').
Proof.
  unfold then_dash. destruct r as [[u [|c s]]|]; try discriminate.
  destruct (is_dash c); [|discriminate]. intros [= <- _]. eauto.
Qed.

Lemma two_chars_value f s v rest :
  two_chars f s = Some (v, rest) -> exists c1 c2, f c1 c2 = Some v.
Proof.
  unfold two_chars. destruct s as [|c1 [|c2 s]]; try discriminate.
  destruct (f c1 c2) as [u|] eqn:Hf; [|discriminate].
  intros [= <- _]. eauto.
Qed.

Lemma one_char_value f s v rest :
  one_char f s = Some (v, rest) -> exists c1, f c1 = Some v.
Proof.
  unfold one_char. destruct s as [|c1 s]; try discriminate.
  destruct (f c1) as [u|] eqn:Hf; [|discriminate].
  intros [= <- _]. eauto.
Qed.

Lemma orelse_cases {A} (a b : option A) r :
  orelse a b = Some r -> a = Some r \/ b = Some r.
Proof. destruct a; simpl; auto. Qed.

Ltac range_of_digits :=
  cbv beta in *;
  repeat match goal with
    | H : match in_range ?lo ?hi ?c with _ => _ end = Some _ |- _ =>
        let E := fresh "E" in
        destruct (in_range lo hi c) eqn:E; [apply in_range_bounds in E|];
        try discriminate
    | H : match digit_of ?c with _ => _ end = Some _ |- _ =>
        let E := fresh "E" in
        destruct (digit_of c) eqn:E; [apply digit_of_bounds in E|];
        try discriminate
    | H : (if ?b then _ else _) = Some _ |- _ =>
        destruct b; try discriminate
    | H : in_range _ _ _ = Some _ |- _ => apply in_range_bounds in H
    | H : Some ?a = Some ?b |- _ =>
        let E := fresh "E" in
        assert (E : a = b) by congruence; clear H
    end.

Lemma match_month_bounds s m rest :
  match_month s = Some (m, rest) -> 1 <= m <= 12.
Proof.
  unfold match_month. intros H.
  apply orelse_cases in H. destruct H as [H|H];
    [|apply orelse_cases in H; destruct H as [H|H]];
    apply then_dash_value in H; destruct H as (rest' & H).
  - apply two_chars_value in H. destruct H as (c1 & c2 & H).
    range_of_digits. lia.
  - apply two_chars_value in H. destruct H as (c1 & c2 & H).
    range_of_digits. lia.
  - apply one_char_value in H. destruct H as (c1 & H).
    range_of_digits. lia.
Qed.

Lemma match_day_bounds s d rest :
  match_day s = Some (d, rest) -> 1 <= d <= 31.
Proof.
  unfold match_day. intros H.
  repeat (apply orelse_cases in H; destruct H as [H|H]);
    try (apply two_chars_value in H; destruct H as (c1 & c2 & H));
    try (apply one_char_value in H; destruct H as (c1 & H));
    range_of_digits; lia.
Qed.

Lemma strptime_ymd_raises s e :
  strptime_ymd s = inl e -> exists msg, e = ValueError msg.
Proof.
  unfold strptime_ymd.
  destruct (parse_ymd s) as [msg|[[y m] d]].
  - intros [= <-]. eauto.
  - destruct (y <? MINYEAR); [intros [= <-]; eauto|].
    destruct (_days_in_month y m <? d); [intros [= <-]; eauto | discriminate].
Qed.

Lemma _days_before_month_nonneg y m :
  1 <= m <= 12 -> 0 <= _days_before_month y m.
Proof.
  intros Hm. unfold _days_before_month.
  assert (Hcases : m = 1 \/ m = 2 \/ m = 3 \/ m = 4 \/ m = 5 \/ m = 6 \/ m = 7
                   \/ m = 8 \/ m = 9 \/ m = 10 \/ m = 11 \/ m = 12) by lia.
  repeat (destruct Hcases as [->|Hcases]); try subst m; simpl;
    destruct (_is_leap y); simpl; lia.
Qed.

(** A parsed date is on or after 0001-01-01. *)
Lemma strptime_ymd_ordinal s start : strptime_ymd s = inr start -> 1 <= start.
Proof.
  unfold strptime_ymd, parse_ymd.
  destruct (match_year s) as [[y rest]|]; [|discriminate].
  destruct (match_month rest) as [[m rest1]|] eqn:Hm; [|discriminate].
  destruct (match_day rest1) as [[d [|c rest2]]|] eqn:Hd; try discriminate.
  destruct (y <? MINYEAR) eqn:Hy; [discriminate|].
  destruct (_days_in_month y m <? d); [discriminate|].
  intros [= <-].
  apply match_month_bounds in Hm. apply match_day_bounds in Hd.
  apply Z.ltb_ge in Hy. unfold MINYEAR in Hy.
  pose proof (_days_before_month_nonneg y m Hm) as Hbm.
  unfold _ymd2ord, _days_before_year.
  assert (0 <= (y - 1) * 365 + (y - 1) / 4 - (y - 1) / 100 + (y - 1) / 400).
  { pose proof (Z.div_le_compat_l (y - 1) 4 100) as H4.
    assert (0 <= (y - 1) / 400) by (apply Z.div_pos; lia).
    assert ((y - 1) / 100 <= (y - 1) / 4) by (apply H4; lia).
    lia. }
  lia.
Qed.

(** *** What a run can raise *)

Lemma int_of_float_raises x e :
  int_of_float x = inl e ->
  (exists msg, e = ValueError msg) \/ (exists msg, e = OverflowError msg).
Proof.
  unfold int_of_float. destruct (Prim2SF x); intros [= <-]; eauto.
Qed.

Lemma truediv_int_raises n d e :
  truediv_int n d = inl e ->
  ((exists msg, e = ZeroDivisionError msg) /\ is_zero d = true)
  \/ (exists msg, e = OverflowError msg).
Proof.
  unfold truediv_int, float_of_int. destruct (is_zero d).
  - intros [= <-]. eauto.
  - destruct (is_infinity (float_of_Z n)); [|discriminate].
    intros [= <-]. eauto.
Qed.

(** The exceptions of a run: a [ValueError] or an [OverflowError], or a
    [ZeroDivisionError] when the divisor of the configuration is zero. *)
Definition run_error (config : Config) (e : exn) : Prop :=
  match e with
  | ValueError _ | OverflowError _ => True
  | ZeroDivisionError _ => is_zero (PLAYLIST_ADDS_DIVISOR config) = true
  | FileNotFoundError _ | LibraryError _ => False
  end.

Lemma for_raises {G X S : Type} (P : exn -> Prop)
      (body : X -> S -> M G S) (xs : list X) :
  (forall x s w e w', body x s w = (inl e, w') -> P e) ->
  forall s w e w', for_ xs body s w = (inl e, w') -> P e.
Proof.
  intros Hbody. induction xs as [|x xs IH]; intros s w e w'; simpl.
  - discriminate.
  - unfold bind. destruct (body x s w) as [[e1|s1] w1] eqn:Hx.
    + intros [= <- <-]. eauto.
    + apply IH.
Qed.

Lemma for_unchanged {G X S : Type} (body : X -> S -> M G S) (xs : list X) :
  (forall x s w, In x xs -> fst (body x s w) = inr s) ->
  forall s w, fst (for_ xs body s w) = inr s.
Proof.
  induction xs as [|x xs IH]; intros Hbody s w; simpl; [reflexivity|].
  unfold bind.
  pose proof (Hbody x s w (or_introl eq_refl)) as Hx.
  destruct (body x s w) as [[e|s1] w1]; simpl in Hx; [discriminate|].
  injection Hx as ->. apply IH. intros y t v Hin. apply Hbody. now right.
Qed.

Lemma range_in n k : In k (range n) -> 0 <= k < n.
Proof.
  unfold range. intros Hin. apply in_map_iff in Hin.
  destruct Hin as (i & <- & Hi). apply in_seq in Hi. lia.
Qed.

Lemma range_nonpositive n : n <= 0 -> range n = [].
Proof.
  intros Hn. unfold range. now replace (Z.to_nat n) with 0%nat by lia.
Qed.

Section Failures.

Context {G : Type} {RS : RandomSource G}.
Variable config : Config.

Lemma viral_season_truncate_raises day streams (g : G) e g' :
  Spec.viral_season_truncate config day streams g = (inl e, g') ->
  run_error config e.
Proof.
  unfold Spec.viral_season_truncate.
  destruct (np_random_random g) as [r g1].
  destruct (r <? VIRAL_SPIKE_PROBABILITY config)%float;
    [destruct (np_random_uniform _ _ g1) as [v g2]|];
    destruct (Spec.summer_month day); intros [= He _];
    apply int_of_float_raises in He;
    destruct He as [[msg ->]|[msg ->]]; exact I.
Qed.

Lemma simulate_triple_raises t (g : G) e g' :
  Spec.simulate_triple config t g = (inl e, g') -> run_error config e.
Proof.
  destruct t as [[day track] region]. unfold Spec.simulate_triple.
  destruct (Spec.layered_streams config (popularity track) day g)
    as [[e1|streams] g1] eqn:Hs.
  - intros [= <- <-]. revert Hs.
    unfold Spec.layered_streams, Spec.layers_after_base.
    destruct (np_random_uniform _ _ g) as [u g2].
    destruct (Spec.weekend_day day);
      [destruct (np_random_uniform _ _ g2) as [b g3]|];
      apply viral_season_truncate_raises.
  - destruct (Spec.playlist_adds config streams g1) as [[e1|adds] g2] eqn:Ha;
      [|discriminate].
    intros [= <- <-]. revert Ha. unfold Spec.playlist_adds.
    destruct (truediv_int streams (PLAYLIST_ADDS_DIVISOR config))
      as [e2|q] eqn:Hq.
    + intros [= <- _]. apply truediv_int_raises in Hq.
      destruct Hq as [[[msg ->] Hz]|[msg ->]]; simpl; auto.
    + destruct (np_random_uniform lit_0_8 lit_1_2 g1) as [v g3].
      intros [= He _]. apply int_of_float_raises in He.
      destruct He as [[msg ->]|[msg ->]]; exact I.
Qed.

Lemma generate_raises tracks num_days start_date regions (w : world G) e w' :
  generate_streaming_data config tracks num_days start_date regions w
  = (inl e, w') ->
  run_error config e.
Proof.
  unfold generate_streaming_data.
  unfold bind at 1. unfold logger_info at 1.
  unfold bind at 1. unfold lift at 1.
  destruct (strptime_ymd start_date) as [e0|start] eqn:Hs.
  - intros [= <- _]. apply strptime_ymd_raises in Hs.
    destruct Hs as [msg ->]. exact I.
  - unfold bind at 1.
    match goal with
    | |- context [for_ ?xs ?body ?acc ?v] =>
        destruct (for_ xs body acc v) as [[e1|recs] w1] eqn:Hdays
    end.
    + intros [= <- <-]. revert Hdays. apply for_raises.
      intros k acc v e2 v'. unfold bind at 1. unfold lift at 1.
      unfold add_days.
      destruct ((0 <? start + k) && (start + k <=? _MAXORDINAL));
        cbv iota; [|intros [= <- _]; exact I].
      unfold bind at 1.
      assert (Htracks : forall v0,
                 for_ tracks
                   (fun track records =>
                      for_ regions (loop_body config (start + k) track) records)
                   acc v0 = (inl e2, v') -> run_error config e2).
      { intros v0. apply for_raises. intros track acc1 v1 e3 v1'.
        apply for_raises. intros region acc2 v2 e4 v2'.
        rewrite loop_body_spec.
        match goal with
        | |- context [Spec.simulate_triple ?c ?t ?g] =>
            destruct (Spec.simulate_triple c t g) as [[e5|r] g5] eqn:Hstep
        end; [|discriminate].
        intros [= <- _]. eapply simulate_triple_raises, Hstep. }
      destruct ((k + 1) mod 30 =? 0); apply Htracks.
    + unfold bind, logger_info, ret. discriminate.
Qed.

Lemma generate_no_days tracks num_days start_date regions (w : world G) start :
  strptime_ymd start_date = inr start ->
  num_days <= 0 ->
  fst (generate_streaming_data config tracks num_days start_date regions w)
  = inr [].
Proof.
  intros Hs Hn. unfold generate_streaming_data.
  unfold bind at 1. unfold logger_info at 1.
  unfold bind at 1. unfold lift at 1. rewrite Hs.
  rewrite (range_nonpositive _ Hn). reflexivity.
Qed.

Lemma generate_nothing_to_do tracks num_days start_date regions (w : world G)
      start :
  strptime_ymd start_date = inr start ->
  start + num_days - 1 <= _MAXORDINAL ->
  tracks = [] \/ regions = [] ->
  fst (generate_streaming_data config tracks num_days start_date regions w)
  = inr [].
Proof.
  intros Hs Hend Hempty. unfold generate_streaming_data.
  unfold bind at 1. unfold logger_info at 1.
  unfold bind at 1. unfold lift at 1. rewrite Hs.
  pose proof (strptime_ymd_ordinal _ _ Hs) as Hstart.
  unfold bind at 1.
  match goal with
  | |- context [for_ ?xs ?body ?acc ?v] =>
      assert (Hloop : fst (for_ xs body acc v) = inr acc);
      [ apply for_unchanged
      | destruct (for_ xs body acc v) as [[e1|recs] w1]; simpl in Hloop;
        [discriminate | injection Hloop as ->; reflexivity] ]
  end.
  intros k acc v Hk. apply range_in in Hk.
  unfold bind at 1. unfold lift at 1. unfold add_days.
  replace ((0 <? start + k) && (start + k <=? _MAXORDINAL)) with true
    by (symmetry; apply andb_true_iff; split;
        [apply Z.ltb_lt | apply Z.leb_le]; lia).
  unfold bind at 1.
  assert (Htracks : forall v0,
             fst (for_ tracks
                    (fun track records =>
                       for_ regions (loop_body config (start + k) track)
                            records) acc v0) = inr acc).
  { intros v0. destruct Hempty as [-> | ->]; [reflexivity|].
    apply for_unchanged. intros; reflexivity. }
  destruct ((k + 1) mod 30 =? 0); apply Htracks.
Qed.

(** C8 (amended).  The simulator checks no invariant of its configuration.
    A run that fails raises a [ValueError] (start date that does not parse,
    NaN converted to an integer), an [OverflowError] (date past
    9999-12-31, infinite value converted to an integer) or, only when
    [playlist_adds_divisor] is zero, a [ZeroDivisionError].  With a start
    date that parses, a horizon of less than one day yields the empty
    output, and so does an empty track or region list when the horizon ends
    within the calendar. *)
Theorem C8_failures_arise_during_the_run :
  forall tracks num_days start_date regions (w : world G),
    let outcome :=
      fst (generate_streaming_data config tracks num_days start_date regions w)
    in
    (forall e, outcome = inl e -> run_error config e)
    /\ (forall e, strptime_ymd start_date = inl e -> outcome = inl e)
    /\ (forall start,
          strptime_ymd start_date = inr start ->
          (num_days <= 0 -> outcome = inr [])
          /\ (start + num_days - 1 <= _MAXORDINAL ->
              tracks = [] \/ regions = [] -> outcome = inr [])).
Proof.
  intros tracks num_days start_date regions w outcome. subst outcome.
  split; [|split].
  - intros e He.
    destruct (generate_streaming_data config tracks num_days start_date
                regions w) as [r w'] eqn:Hrun.
    simpl in He. subst r. eapply generate_raises, Hrun.
  - intros e He. unfold generate_streaming_data.
    unfold bind at 1. unfold logger_info at 1.
    unfold bind at 1. unfold lift at 1. now rewrite He.
  - intros start Hs. split.
    + now apply generate_no_days with (start := start).
    + now apply generate_nothing_to_do.
Qed.

End Failures.

(** A configuration that satisfies every invariant of the specification and
    whose divisor is zero; one whose base range is reversed. *)
Module Degenerate.

Definition zero_divisor : Config := {|
  BASE_STREAM_MULTIPLIER_MIN := 100;
  BASE_STREAM_MULTIPLIER_MAX := 1000;
  WEEKEND_BOOST_MIN := 0.125;
  WEEKEND_BOOST_MAX := 0.25;
  VIRAL_SPIKE_PROBABILITY := 0.0625;
  VIRAL_SPIKE_MULTIPLIER_MIN := 2;
  VIRAL_SPIKE_MULTIPLIER_MAX := 5;
  SUMMER_BOOST := 0.125;
  PLAYLIST_ADDS_DIVISOR := 0
|}.

Definition reversed_range : Config := {|
  BASE_STREAM_MULTIPLIER_MIN := 1000;
  BASE_STREAM_MULTIPLIER_MAX := 100;
  WEEKEND_BOOST_MIN := 0.125;
  WEEKEND_BOOST_MAX := 0.25;
  VIRAL_SPIKE_PROBABILITY := 0.0625;
  VIRAL_SPIKE_MULTIPLIER_MIN := 2;
  VIRAL_SPIKE_MULTIPLIER_MAX := 5;
  SUMMER_BOOST := 0.125;
  PLAYLIST_ADDS_DIVISOR := 100
|}.

End Degenerate.

(** C8, as stated, fails both ways.  Configurations that break an invariant
    are accepted: a horizon of 0 days with no region returns the empty
    output, a reversed base range returns six records.  A configuration that
    satisfies the invariants fails, and only inside the first iteration,
    after three draws were consumed: a zero divisor raises
    [ZeroDivisionError]. *)
Lemma C8_counterexample :
  (config_invariant Demo.cfg 0 [] = false
   /\ fst (generate_streaming_data Demo.cfg Demo.tracks 0 "2023-01-07" []
             Demo.w0) = inr [])
  /\ (config_invariant Degenerate.reversed_range 3 Demo.regions = false
      /\ exists records,
          fst (generate_streaming_data Degenerate.reversed_range Demo.tracks 3
                 "2023-01-07" Demo.regions Demo.w0) = inr records
          /\ List.length records = 6%nat)
  /\ (config_invariant Degenerate.zero_divisor 1 Demo.regions = true
      /\ exists w',
          generate_streaming_data Degenerate.zero_divisor Demo.tracks 1
            "2023-01-07" Demo.regions Demo.w0
          = (inl (ZeroDivisionError "division by zero"), w')
          /\ List.length (rng w') = (List.length (rng Demo.w0) - 3)%nat).
Proof.
  split; [split; vm_compute; reflexivity|].
  split.
  - split; [vm_compute; reflexivity|].
    eexists. split; vm_compute; reflexivity.
  - split; [vm_compute; reflexivity|].
    eexists. split; vm_compute; reflexivity.
Qed.

Lemma C8_witness :
  let outcome :=
    fst (generate_streaming_data Demo.cfg Demo.tracks 0 "2023-01-07" []
           Demo.w0) in
  (forall e, outcome = inl e -> run_error Demo.cfg e)
  /\ (forall e, strptime_ymd "2023-01-07" = inl e -> outcome = inl e)
  /\ (forall start,
        strptime_ymd "2023-01-07" = inr start ->
        (0 <= 0 -> outcome = inr [])
        /\ (start + 0 - 1 <= _MAXORDINAL ->
            Demo.tracks = [] \/ @nil string = [] -> outcome = inr [])).
Proof.
  exact (C8_failures_arise_during_the_run Demo.cfg Demo.tracks 0 "2023-01-07"
           [] Demo.w0).
Defined.

(** ** When a run returns

    The converse of [generate_chain]: the run returns as soon as the start
    date parses, the horizon ends within the calendar and every triple, taken
    in order, returns. *)

Lemma Chain_app_inv {T A G : Type} (R : T -> G -> A -> G -> Prop) ts1 ts2 :
  forall g rs g2,
    Chain R (ts1 ++ ts2) g rs g2 ->
    exists rs1 rs2 g1,
      rs = rs1 ++ rs2 /\ Chain R ts1 g rs1 g1 /\ Chain R ts2 g1 rs2 g2.
Proof.
  induction ts1 as [|t ts1 IH]; intros g rs g2 Hc; simpl in Hc.
  - exists [], rs, g. repeat split; [constructor | exact Hc].
  - inversion Hc as [|t' ts' g0 a g1 rs' g2' Hstep Hrest]; subst.
    destruct (IH _ _ _ Hrest) as (rs1 & rs2 & g3 & -> & H1 & H2).
    exists (a :: rs1), rs2, g3. repeat split; [|exact H2].
    econstructor; eauto.
Qed.

Section Returns.

Context {G : Type} {RS : RandomSource G}.
Variable config : Config.

Lemma for_returns {X : Type} (f : X -> list Spec.triple)
      (body : X -> list StreamingRecord -> M G (list StreamingRecord))
      (xs : list X) :
  (forall x acc w rs g',
      In x xs ->
      Chain (triple_step config) (f x) (rng w) rs g' ->
      exists w', body x acc w = (inr (acc ++ rs), w') /\ rng w' = g') ->
  forall acc w rs g',
    Chain (triple_step config) (flat_map f xs) (rng w) rs g' ->
    exists w', for_ xs body acc w = (inr (acc ++ rs), w') /\ rng w' = g'.
Proof.
  induction xs as [|x xs IH]; intros Hbody acc w rs g' Hc; simpl in *.
  - inversion Hc; subst. exists w. rewrite app_nil_r. now split.
  - apply Chain_app_inv in Hc. destruct Hc as (rs1 & rs2 & g1 & -> & H1 & H2).
    destruct (Hbody x acc w rs1 g1 (or_introl eq_refl) H1) as (w1 & Hx & Hg).
    unfold bind. rewrite Hx. rewrite <- Hg in H2.
    destruct (IH (fun y a v r h Hin => Hbody y a v r h (or_intror Hin))
                 (acc ++ rs1) w1 rs2 g' H2) as (w2 & Hrest & Hg2).
    exists w2. now rewrite app_assoc.
Qed.

Lemma tracks_loop_returns date tracks regions acc (w : world G) rs g' :
  Chain (triple_step config) (Spec.triples_of_day tracks regions date)
        (rng w) rs g' ->
  exists w',
    for_ tracks
      (fun track records => for_ regions (loop_body config date track) records)
      acc w = (inr (acc ++ rs), w')
    /\ rng w' = g'.
Proof.
  intros Hc. unfold Spec.triples_of_day in Hc.
  eapply for_returns in Hc; [exact Hc|].
  intros track a v r h _ Hct. unfold Spec.triples_of_track in Hct.
  rewrite <- flat_map_singleton in Hct.
  eapply for_returns in Hct; [exact Hct|].
  intros region b u s h' _ Hstep.
  inversion Hstep as [|t ts g0 rec g1 rs' g2 Hone Hnil]; subst.
  inversion Hnil; subst.
  rewrite loop_body_spec. unfold triple_step in Hone. rewrite Hone.
  eexists. split; reflexivity.
Qed.

Lemma generate_returns tracks num_days start_date regions (w : world G)
      start records g' :
  strptime_ymd start_date = inr start ->
  num_days <= 0 \/ start + num_days - 1 <= _MAXORDINAL ->
  Chain (triple_step config) (Spec.triples start num_days tracks regions)
        (rng w) records g' ->
  exists w',
    generate_streaming_data config tracks num_days start_date regions w
    = (inr records, w') /\ rng w' = g'.
Proof.
  intros Hs Hend Hc.
  pose proof (strptime_ymd_ordinal _ _ Hs) as Hstart.
  unfold generate_streaming_data.
  unfold bind at 1. unfold logger_info at 1.
  unfold bind at 1. unfold lift at 1. rewrite Hs.
  unfold bind at 1. unfold Spec.triples in Hc.
  match goal with
  | |- context [for_ ?xs ?body ?acc ?v] =>
      assert (Hdays : exists w1,
                 for_ xs body acc v = (inr (acc ++ records), w1)
                 /\ rng w1 = g')
  end.
  { apply for_returns
      with (f := fun k => Spec.triples_of_day tracks regions (start + k));
      [|exact Hc].
    intros k acc v rs h Hk Hday. apply range_in in Hk.
    unfold bind at 1. unfold lift at 1. unfold add_days.
    replace ((0 <? start + k) && (start + k <=? _MAXORDINAL)) with true
      by (symmetry; apply andb_true_iff; split;
          [apply Z.ltb_lt | apply Z.leb_le]; lia).
    unfold bind at 1.
    destruct ((k + 1) mod 30 =? 0).
    - unfold logger_info at 1.
      destruct (tracks_loop_returns (start + k) tracks regions acc
                  (mkWorld (rng v) (log v ++ [(INFO,
                     ("Progress: " ++ str_int (k + 1) ++ "/"
                      ++ str_int num_days ++ " days completed")%string)]))
                  rs h Hday) as (w1 & Hrun & Hg).
      exists w1. split; [exact Hrun | exact Hg].
    - unfold ret at 1.
      destruct (tracks_loop_returns (start + k) tracks regions acc v rs h Hday)
        as (w1 & Hrun & Hg).
      exists w1. split; [exact Hrun | exact Hg]. }
  destruct Hdays as (w1 & Hrun & Hg). rewrite Hrun.
  unfold bind, logger_info, ret. simpl. eexists. split; [reflexivity|exact Hg].
Qed.

End Returns.

(** * Further properties of the generator *)

(** ** The weekend test through the week *)

Lemma weekday_shift d k : weekday (d + k) = (weekday d + k) mod 7.
Proof.
  unfold weekday. rewrite Zplus_mod_idemp_l. f_equal. lia.
Qed.

Lemma weekday_bounds d : 0 <= weekday d < 7.
Proof. unfold weekday. apply Z.mod_pos_bound. lia. Qed.

(** [is_weekend] has period 7, and of any seven consecutive days it holds
    of exactly two. *)
Theorem is_weekend_two_days_a_week :
  forall d : datetime,
    is_weekend (d + 7) = is_weekend d
    /\ List.length (filter is_weekend (map (Z.add d) (range 7))) = 2%nat.
Proof.
  intros d. split.
  - unfold is_weekend. rewrite weekday_shift.
    rewrite <- (Z.mul_1_l 7) at 1. rewrite Z.mod_add by lia.
    rewrite Z.mod_small by apply weekday_bounds. reflexivity.
  - change (range 7) with [0; 1; 2; 3; 4; 5; 6]. cbn [map filter].
    unfold is_weekend. rewrite !weekday_shift.
    pose proof (weekday_bounds d) as Hb.
    assert (Hcases : weekday d = 0 \/ weekday d = 1 \/ weekday d = 2
                     \/ weekday d = 3 \/ weekday d = 4 \/ weekday d = 5
                     \/ weekday d = 6) by lia.
    repeat (destruct Hcases as [Hw|Hcases]); try rewrite Hw;
      try rewrite Hcases; reflexivity.
Qed.

(** ** A viral spike that cannot fire *)

Lemma ltb_nonneg_nonpos r p :
  (0 <=? r)%float = true -> (p <=? 0)%float = true -> (r <? p)%float = false.
Proof.
  rewrite !leb_spec, ltb_spec. change (Prim2SF 0) with (S754_zero false).
  unfold SFleb, SFltb.
  destruct (Prim2SF r) as [sr|sr| |sr mr er], (Prim2SF p) as [sp|sp| |sp mp ep];
    simpl; try discriminate; try reflexivity;
    try (destruct sr; try discriminate); try (destruct sp; try discriminate);
    reflexivity.
Qed.

Section NoViralSpike.

Context {G : Type} {RS : RandomSource G}.
Variable config : Config.

(** [np.random.random()] answers in [[0, 1)]; only the lower bound matters
    here. *)
Hypothesis random_nonneg :
  forall g : G, (0 <=? fst (np_random_random g))%float = true.

(** With a viral probability of 0 (or below), [calculate_streams] never
    draws a viral multiplier: after the weekend layer it consumes the one
    [random()] draw and nothing else, and on a day that is neither a weekend
    day nor in summer it returns [int(base_streams)]. *)
Theorem calculate_streams_without_viral_spike :
  forall (popularity : Z) (date : datetime) (base_streams : float)
         (w : world G),
    (VIRAL_SPIKE_PROBABILITY config <=? 0)%float = true ->
    calculate_streams config popularity date base_streams w
    = (if is_weekend date
       then
         let (b, g1) := np_random_uniform (WEEKEND_BOOST_MIN config)
                                          (WEEKEND_BOOST_MAX config) (rng w) in
         let x := (base_streams * (1 + b))%float in
         (int_of_float (if is_summer_month date
                        then (x * (1 + SUMMER_BOOST config))%float else x),
          mkWorld (snd (np_random_random g1)) (log w))
       else
         (int_of_float (if is_summer_month date
                        then (base_streams * (1 + SUMMER_BOOST config))%float
                        else base_streams),
          mkWorld (snd (np_random_random (rng w))) (log w))).
Proof.
  intros popularity date base_streams w Hp.
  rewrite calculate_streams_layers, is_weekend_spec, is_summer_month_spec.
  unfold Spec.layers_after_base, Spec.viral_season_truncate, on_rng.
  destruct (Spec.weekend_day date).
  - destruct (np_random_uniform _ _ (rng w)) as [b g1].
    pose proof (random_nonneg g1) as Hr.
    destruct (np_random_random g1) as [r g2]. simpl in Hr.
    rewrite (ltb_nonneg_nonpos _ _ Hr Hp). reflexivity.
  - pose proof (random_nonneg (rng w)) as Hr.
    destruct (np_random_random (rng w)) as [r g2]. simpl in Hr.
    rewrite (ltb_nonneg_nonpos _ _ Hr Hp). reflexivity.
Qed.

End NoViralSpike.

(** The scripted source answers a unit draw that is not negative when the
    script holds none that is. *)
Module QuietDemo.

Definition cfg : Config := {|
  BASE_STREAM_MULTIPLIER_MIN := 100;
  BASE_STREAM_MULTIPLIER_MAX := 1000;
  WEEKEND_BOOST_MIN := 0.125;
  WEEKEND_BOOST_MAX := 0.25;
  VIRAL_SPIKE_PROBABILITY := 0;
  VIRAL_SPIKE_MULTIPLIER_MIN := 2;
  VIRAL_SPIKE_MULTIPLIER_MAX := 5;
  SUMMER_BOOST := 0.125;
  PLAYLIST_ADDS_DIVISOR := 100
|}.

Lemma low_end_random_nonneg :
  forall g : unit, (0 <=? fst (np_random_random g))%float = true.
Proof. intros g. reflexivity. Defined.

End QuietDemo.

Lemma calculate_streams_without_viral_spike_witness :
  (VIRAL_SPIKE_PROBABILITY QuietDemo.cfg <=? 0)%float = true
  /\ calculate_streams QuietDemo.cfg 50 738528 27500 LowEnd.w0
     = (inr 27500, LowEnd.w0).
Proof.
  split; [reflexivity|].
  exact (calculate_streams_without_viral_spike QuietDemo.cfg
           QuietDemo.low_end_random_nonneg 50 738528 27500 LowEnd.w0 eq_refl).
Defined.

(** ** A zero divisor *)

Section ZeroDivisor.

Context {G : Type} {RS : RandomSource G}.
Variable config : Config.

(** With [PLAYLIST_ADDS_DIVISOR] equal to zero (of either sign) no record is
    ever produced: a run that returns returns the empty table, and a run
    over at least one triple raises. *)
Theorem zero_divisor_no_record :
  forall tracks num_days start_date regions (w : world G) outcome w',
    is_zero (PLAYLIST_ADDS_DIVISOR config) = true ->
    generate_streaming_data config tracks num_days start_date regions w
    = (outcome, w') ->
    match outcome with
    | inr records =>
        records = []
        /\ (Z.to_nat num_days * List.length tracks * List.length regions = 0)%nat
    | inl e => run_error config e
    end.
Proof.
  intros * Hz Hrun. destruct outcome as [e|records].
  - eapply generate_raises, Hrun.
  - destruct (generate_chain config _ _ _ _ _ _ _ Hrun) as (start & _ & Hc).
    pose proof (Chain_length _ _ _ _ _ Hc) as Hlen.
    rewrite triples_length in Hlen.
    assert (Hnil : records = []).
    { destruct Hc as [|[[day track] region] ts g r g1 rs g2 Hstep Hrest];
        [reflexivity|].
      exfalso. unfold triple_step, Spec.simulate_triple in Hstep.
      destruct (Spec.layered_streams config (popularity track) day g)
        as [[e|streams] g3]; [discriminate|].
      unfold Spec.playlist_adds, truediv_int in Hstep.
      rewrite Hz in Hstep. discriminate. }
    subst records. split; [reflexivity|]. simpl in Hlen. lia.
Qed.

End ZeroDivisor.

(** The run of the demonstration catalog for one day with a zero divisor. *)
Module ZeroDivisorRun.

Definition run : result (list StreamingRecord) * world (list float) :=
  Eval vm_compute in
    generate_streaming_data Degenerate.zero_divisor Demo.tracks 1 "2023-01-07"
      Demo.regions Demo.w0.

Lemma zero_run_eq :
  generate_streaming_data Degenerate.zero_divisor Demo.tracks 1 "2023-01-07"
    Demo.regions Demo.w0 = (fst run, snd run).
Proof. vm_compute. reflexivity. Defined.

End ZeroDivisorRun.

Lemma zero_divisor_no_record_witness :
  is_zero (PLAYLIST_ADDS_DIVISOR Degenerate.zero_divisor) = true
  /\ generate_streaming_data Degenerate.zero_divisor Demo.tracks 1
       "2023-01-07" Demo.regions Demo.w0
     = (fst ZeroDivisorRun.run, snd ZeroDivisorRun.run)
  /\ match fst ZeroDivisorRun.run with
     | inr records =>
         records = []
         /\ (Z.to_nat 1 * List.length Demo.tracks * List.length Demo.regions
             = 0)%nat
     | inl e => run_error Degenerate.zero_divisor e
     end.
Proof.
  split; [reflexivity|]. split; [exact ZeroDivisorRun.zero_run_eq|].
  exact (zero_divisor_no_record Degenerate.zero_divisor Demo.tracks 1
           "2023-01-07" Demo.regions Demo.w0 _ _ eq_refl
           ZeroDivisorRun.zero_run_eq).
Defined.

(** ** The loader: failures to read, the log, the generator *)

Section LoaderFrame.

Context {G : Type} {RS : RandomSource G}.
Context {Row : Type}.
Variable read_csv : string -> result (DataFrame Row).

(** The line the loader logs at level ERROR for an exception. *)
Definition loader_error_line (dataset_path : string) (e : exn) : string :=
  match e with
  | FileNotFoundError _ => ("Dataset file not found: " ++ dataset_path)%string
  | _ => ("Error loading dataset: " ++ str_exn e)%string
  end.

(** Whatever happens, the loader leaves the generator alone and appends
    exactly two lines to the log: the announcement, then either the count of
    rows loaded or one ERROR line.  An exception of [pd.read_csv] is raised
    again unchanged. *)
Theorem load_spotify_dataset_frame :
  forall (dataset_path : string) (w : world G),
    let run := load_spotify_dataset read_csv dataset_path w in
    rng (snd run) = rng w
    /\ (exists line,
           log (snd run)
           = log w
               ++ [(INFO, ("Loading Spotify dataset from " ++ dataset_path)%string);
                   line]
           /\ match fst run with
              | inr df =>
                  line = (INFO, ("Loaded "
                                 ++ str_int (Z.of_nat (List.length (rows df)))
                                 ++ " tracks from dataset")%string)
              | inl e => line = (ERROR, loader_error_line dataset_path e)
              end)
    /\ (forall e, read_csv dataset_path = inl e -> fst run = inl e).
Proof.
  intros dataset_path w run. subst run.
  unfold load_spotify_dataset, try_except, bind, lift, logger_info,
    logger_error, raise, ret.
  destruct (read_csv dataset_path) as [e|df].
  - destruct e; simpl; rewrite <- app_assoc;
      (split; [reflexivity|]); (split; [eexists; split; reflexivity|]);
      intros e' [= <-]; reflexivity.
  - destruct (filter _ required_columns) as [|c rest]; simpl;
      rewrite <- app_assoc;
      (split; [reflexivity|]); (split; [eexists; split; reflexivity|]);
      intros e' He; discriminate.
Qed.

End LoaderFrame.

Example loader_file_not_found :
  load_spotify_dataset Catalog.read_csv "absent.csv" Demo.w0
  = (inl (FileNotFoundError "No such file or directory"),
     mkWorld (rng Demo.w0)
       [(INFO, "Loading Spotify dataset from absent.csv"%string);
        (ERROR, "Dataset file not found: absent.csv"%string)]).
Proof. reflexivity. Qed.

(** ** What a run logs *)

(** The line logged after day offset [k] when [k + 1] is a multiple of 30. *)
Definition progress_line (num_days k : Z) : level * string :=
  (INFO, ("Progress: " ++ str_int (k + 1) ++ "/" ++ str_int num_days
          ++ " days completed")%string).

Definition reports_progress (k : Z) : bool := (k + 1) mod 30 =? 0.

Lemma for_log_unchanged {G X S : Type} (body : X -> S -> M G S) (xs : list X) :
  (forall x s w, log (snd (body x s w)) = log w) ->
  forall s w, log (snd (for_ xs body s w)) = log w.
Proof.
  intros Hbody. induction xs as [|x xs IH]; intros s w; simpl; [reflexivity|].
  unfold bind. pose proof (Hbody x s w) as Hx.
  destruct (body x s w) as [[e|s1] w1]; simpl in *; [exact Hx|].
  now rewrite IH.
Qed.

Lemma range_succ n :
  0 <= n -> range (n + 1) = range n ++ [n].
Proof.
  intros Hn. unfold range.
  replace (Z.to_nat (n + 1)) with (S (Z.to_nat n)) by lia.
  rewrite seq_S, map_app. simpl. now rewrite Z2Nat.id by assumption.
Qed.

(** Day offsets [k] below [n] with [k + 1] a multiple of 30: there are
    [n / 30] of them. *)
Lemma progress_count n :
  0 <= n ->
  Z.of_nat (List.length (filter reports_progress (range n))) = n / 30.
Proof.
  intros Hn. pattern n. apply natlike_ind; [reflexivity| |exact Hn].
  clear n Hn. intros n Hn IH. unfold Z.succ.
  rewrite range_succ, filter_app, length_app, Nat2Z.inj_add, IH by assumption.
  cbn [filter]. unfold reports_progress.
  destruct ((n + 1) mod 30 =? 0) eqn:Hm; cbn [List.length].
  - apply Z.eqb_eq in Hm.
    pose proof (Z.div_mod (n + 1) 30 ltac:(lia)) as H1.
    pose proof (Z.div_mod n 30 ltac:(lia)) as H2.
    pose proof (Z.mod_pos_bound n 30 ltac:(lia)) as H3. lia.
  - apply Z.eqb_neq in Hm.
    pose proof (Z.div_mod (n + 1) 30 ltac:(lia)) as H1.
    pose proof (Z.div_mod n 30 ltac:(lia)) as H2.
    pose proof (Z.mod_pos_bound n 30 ltac:(lia)) as H3.
    pose proof (Z.mod_pos_bound (n + 1) 30 ltac:(lia)) as H4. lia.
Qed.

Section RunLog.

Context {G : Type} {RS : RandomSource G}.
Variable config : Config.

Lemma loop_body_log date track region records (w : world G) :
  log (snd (loop_body config date track region records w)) = log w.
Proof.
  rewrite loop_body_spec.
  destruct (Spec.simulate_triple config (date, track, region) (rng w))
    as [[e|r] g]; reflexivity.
Qed.

Lemma tracks_loop_log date tracks regions records (w : world G) :
  log (snd (for_ tracks
              (fun track acc => for_ regions (loop_body config date track) acc)
              records w)) = log w.
Proof.
  apply for_log_unchanged. intros track acc v.
  apply for_log_unchanged. intros region acc' v'. apply loop_body_log.
Qed.

(** A run that returns has logged, in this order: the announcement, one
    progress line for each day offset [k] of the horizon with [k + 1] a
    multiple of 30 (there are [num_days / 30] of them), and the number of
    records it returns. *)
Theorem generate_streaming_data_log :
  forall tracks num_days start_date regions (w : world G) records w',
    generate_streaming_data config tracks num_days start_date regions w
    = (inr records, w') ->
    log w'
    = log w
        ++ [(INFO, ("Generating " ++ str_int num_days
                    ++ " days of streaming data for "
                    ++ str_int (Z.of_nat (List.length tracks))
                    ++ " tracks")%string)]
        ++ map (progress_line num_days)
               (filter reports_progress (range num_days))
        ++ [(INFO, ("Generated "
                    ++ str_int (Z.of_nat (List.length records))
                    ++ " streaming records")%string)]
    /\ (0 <= num_days ->
        Z.of_nat (List.length (filter reports_progress (range num_days)))
        = num_days / 30).
Proof.
  intros * Hrun. split; [|apply progress_count].
  unfold generate_streaming_data in Hrun.
  unfold bind at 1 in Hrun. unfold logger_info at 1 in Hrun.
  unfold bind at 1 in Hrun. unfold lift at 1 in Hrun.
  destruct (strptime_ymd start_date) as [e|start]; [discriminate|].
  unfold bind at 1 in Hrun.
  match type of Hrun with
  | context [for_ ?xs ?body ?acc ?v] =>
      assert (Hdays : forall ks a (u : world G) a' u',
                 for_ ks body a u = (inr a', u') ->
                 log u' = log u ++ map (progress_line num_days)
                                      (filter reports_progress ks));
      [|destruct (for_ xs body acc v) as [[e|recs] w1] eqn:Hloop;
        [discriminate|]]
  end.
  { induction ks as [|k ks IH]; intros a u a' u'; simpl.
    - intros [= _ <-]. now rewrite app_nil_r.
    - unfold bind at 1. unfold bind at 1. unfold lift at 1.
      destruct (add_days start k) as [e|date]; [discriminate|].
      unfold bind at 1. unfold reports_progress at 1.
      destruct ((k + 1) mod 30 =? 0).
      + unfold logger_info at 1.
        match goal with
        | |- context [for_ tracks ?f a ?v] =>
            pose proof (tracks_loop_log date tracks regions a v) as Hlog;
            destruct (for_ tracks f a v) as [[e|a1] u1]
        end; [discriminate|].
        intros Hrest. apply IH in Hrest. simpl in Hlog.
        rewrite Hrest, Hlog. cbn [map]. unfold progress_line at 2.
        now rewrite <- app_assoc.
      + unfold ret at 1.
        match goal with
        | |- context [for_ tracks ?f a ?v] =>
            pose proof (tracks_loop_log date tracks regions a v) as Hlog;
            destruct (for_ tracks f a v) as [[e|a1] u1]
        end; [discriminate|].
        intros Hrest. apply IH in Hrest. simpl in Hlog.
        now rewrite Hrest, Hlog. }
  apply Hdays in Hloop. simpl in Hloop.
  unfold bind, logger_info, ret in Hrun. simpl in Hrun.
  injection Hrun as <- <-. simpl. rewrite Hloop.
  now rewrite <- !app_assoc.
Qed.

End RunLog.

Lemma generate_streaming_data_log_witness :
  generate_streaming_data Demo.cfg Demo.tracks 3 "2023-01-07" Demo.regions
    Demo.w0 = (inr Demo.records, snd Demo.run)
  /\ log (snd Demo.run)
     = log Demo.w0
         ++ [(INFO, ("Generating " ++ str_int 3
                     ++ " days of streaming data for "
                     ++ str_int (Z.of_nat (List.length Demo.tracks))
                     ++ " tracks")%string)]
         ++ map (progress_line 3) (filter reports_progress (range 3))
         ++ [(INFO, ("Generated "
                     ++ str_int (Z.of_nat (List.length Demo.records))
                     ++ " streaming records")%string)]
     /\ (0 <= 3 ->
         Z.of_nat (List.length (filter reports_progress (range 3))) = 3 / 30).
Proof.
  split; [exact Demo.demo_run_eq|].
  exact (generate_streaming_data_log Demo.cfg _ _ _ _ _ _ _ Demo.demo_run_eq).
Defined.

(** ** How many draws a run consumes *)

(** A source that counts the calls made to it: the state is the one of the
    source it wraps, paired with the number of draws so far. *)
Module Counting.

Definition source {G : Type} (RS : RandomSource G) : RandomSource (G * nat) := {|
  np_random_uniform := fun low high s =>
    let (x, g') := np_random_uniform low high (fst s) in (x, (g', S (snd s)));
  np_random_random := fun s =>
    let (x, g') := np_random_random (fst s) in (x, (g', S (snd s)))
|}.

End Counting.

Section DrawCount.

Context {G : Type} {RS : RandomSource G}.
Variable config : Config.

Let counted : RandomSource (G * nat) := Counting.source RS.

Lemma viral_season_truncate_counted day x (g : G) (n : nat) :
  exists k : nat,
    Spec.viral_season_truncate (RS := counted) config day x (g, n)
    = (fst (Spec.viral_season_truncate config day x g),
       (snd (Spec.viral_season_truncate config day x g), (n + k)%nat))
    /\ (1 <= k <= 2)%nat.
Proof.
  unfold Spec.viral_season_truncate.
  cbn [np_random_uniform np_random_random counted Counting.source fst snd].
  destruct (np_random_random g) as [r g1].
  destruct (r <? VIRAL_SPIKE_PROBABILITY config)%float.
  - cbn [np_random_uniform np_random_random counted Counting.source fst snd].
    destruct (np_random_uniform _ _ g1) as [v g2].
    exists 2%nat. cbn [fst snd]. split; [|lia].
    now replace (n + 2)%nat with (S (S n)) by lia.
  - exists 1%nat. cbn [fst snd]. split; [|lia].
    now replace (n + 1)%nat with (S n) by lia.
Qed.

Lemma layered_streams_counted popularity day (g : G) (n : nat) :
  exists k : nat,
    Spec.layered_streams (RS := counted) config popularity day (g, n)
    = (fst (Spec.layered_streams config popularity day g),
       (snd (Spec.layered_streams config popularity day g), (n + k)%nat))
    /\ (2 <= k <= 4)%nat
    /\ (Spec.weekend_day day = false -> (k <= 3)%nat).
Proof.
  unfold Spec.layered_streams, Spec.layers_after_base.
  cbn [np_random_uniform np_random_random counted Counting.source fst snd].
  destruct (np_random_uniform _ _ g) as [u g1].
  destruct (Spec.weekend_day day).
  - cbn [np_random_uniform np_random_random counted Counting.source fst snd].
    destruct (np_random_uniform _ _ g1) as [b g2].
    destruct (viral_season_truncate_counted day
                (float_of_Z popularity * u * (1 + b))%float g2 (S (S n)))
      as (k & Heq & Hk).
    exists (2 + k)%nat. rewrite Heq.
    split; [|split; [lia | discriminate]].
    now replace (S (S n) + k)%nat with (n + (2 + k))%nat by lia.
  - destruct (viral_season_truncate_counted day
                (float_of_Z popularity * u)%float g1 (S n)) as (k & Heq & Hk).
    exists (1 + k)%nat. rewrite Heq.
    split; [|split; [lia | intros _; lia]].
    now replace (S n + k)%nat with (n + (1 + k))%nat by lia.
Qed.

Lemma playlist_adds_counted streams (g : G) (n : nat) :
  exists k : nat,
    Spec.playlist_adds (RS := counted) config streams (g, n)
    = (fst (Spec.playlist_adds config streams g),
       (snd (Spec.playlist_adds config streams g), (n + k)%nat))
    /\ (k <= 1)%nat
    /\ (forall a, fst (Spec.playlist_adds config streams g) = inr a ->
                  k = 1%nat).
Proof.
  unfold Spec.playlist_adds.
  destruct (truediv_int streams (PLAYLIST_ADDS_DIVISOR config)) as [e|q].
  - exists 0%nat. cbn [fst snd]. rewrite Nat.add_0_r.
    split; [reflexivity|]. split; [lia | discriminate].
  - cbn [np_random_uniform np_random_random counted Counting.source fst snd].
    destruct (np_random_uniform lit_0_8 lit_1_2 g) as [v g1].
    exists 1%nat. cbn [fst snd].
    replace (n + 1)%nat with (S n) by lia. auto.
Qed.

(** One triple, counted: the outcome and the state of the wrapped source
    are those of the plain triple; the count grows by at most 5, and by at
    least 3 when the triple returns (base, [random()], variance), the other
    two being the weekend and viral multipliers. *)
Lemma simulate_triple_counted t (g : G) (n : nat) :
  exists k : nat,
    Spec.simulate_triple (RS := counted) config t (g, n)
    = (fst (Spec.simulate_triple config t g),
       (snd (Spec.simulate_triple config t g), (n + k)%nat))
    /\ (k <= 5)%nat
    /\ (forall r, fst (Spec.simulate_triple config t g) = inr r ->
                  (3 <= k)%nat
                  /\ (Spec.weekend_day (fst (fst t)) = false -> (k <= 4)%nat)).
Proof.
  destruct t as [[day track] region]. unfold Spec.simulate_triple.
  destruct (layered_streams_counted (popularity track) day g n)
    as (k1 & Heq1 & Hk1 & Hw1).
  rewrite Heq1.
  destruct (Spec.layered_streams config (popularity track) day g)
    as [[e|streams] g1]; cbn [fst snd].
  - exists k1. split; [reflexivity|]. split; [lia | discriminate].
  - destruct (playlist_adds_counted streams g1 (n + k1)) as (k2 & Heq2 & Hk2 & Hr2).
    rewrite Heq2.
    destruct (Spec.playlist_adds config streams g1) as [[e|adds] g2];
      cbn [fst snd] in *.
    + exists (k1 + k2)%nat. rewrite Nat.add_assoc.
      split; [reflexivity|]. split; [lia | discriminate].
    + exists (k1 + k2)%nat. rewrite Nat.add_assoc.
      split; [reflexivity|]. split; [lia|].
      intros r _. specialize (Hr2 adds eq_refl). split; [lia|].
      intros Hw. specialize (Hw1 Hw). lia.
Qed.

Lemma counted_chain ts (s : G * nat) rs (s' : G * nat) :
  Chain (triple_step (RS := counted) config) ts s rs s' ->
  Chain (triple_step config) ts (fst s) rs (fst s')
  /\ (snd s + 3 * List.length rs <= snd s' <= snd s + 5 * List.length rs)%nat.
Proof.
  induction 1 as [[g n]|t ts [g n] r [g1 n1] rs [g2 n2] Hstep Hrest IH]; simpl.
  - split; [constructor | lia].
  - destruct (simulate_triple_counted t g n) as (k & Heq & Hk5 & Hk3).
    unfold triple_step in Hstep. rewrite Heq in Hstep.
    injection Hstep as Hr Hg Hn.
    destruct (Hk3 r Hr) as [H3 _]. simpl in IH. destruct IH as [IHc IHn].
    split; [|lia].
    econstructor; [|exact IHc].
    unfold triple_step. rewrite <- Hg.
    destruct (Spec.simulate_triple config t g) as [r0 g0]. simpl in *.
    now subst.
Qed.

End DrawCount.

Lemma for_each_returned {G X S : Type} (body : X -> S -> M G S) (xs : list X) :
  forall s w s' w',
    for_ xs body s w = (inr s', w') ->
    forall x, In x xs -> exists s0 w0 s1 w1, body x s0 w0 = (inr s1, w1).
Proof.
  induction xs as [|y xs IH]; intros s w s' w' Hrun x Hin; [contradiction|].
  simpl in Hrun. unfold bind in Hrun.
  destruct (body y s w) as [[e|s1] w1] eqn:Hy; [discriminate|].
  destruct Hin as [<-|Hin]; [eauto | eapply IH; eauto].
Qed.

Lemma range_mem n k : 0 <= k < n -> In k (range n).
Proof.
  intros Hk. unfold range. apply in_map_iff.
  exists (Z.to_nat k). split; [lia | apply in_seq; lia].
Qed.

Section Calendar.

Context {G : Type} {RS : RandomSource G}.
Variable config : Config.

(** A run that returns has its whole horizon within the calendar. *)
Lemma generate_calendar tracks num_days start_date regions (w : world G)
      records w' start :
  generate_streaming_data config tracks num_days start_date regions w
  = (inr records, w') ->
  strptime_ymd start_date = inr start ->
  num_days <= 0 \/ start + num_days - 1 <= _MAXORDINAL.
Proof.
  intros Hrun Hs. destruct (Z_le_gt_dec num_days 0) as [Hn|Hn]; [now left|].
  right. unfold generate_streaming_data in Hrun.
  unfold bind at 1 in Hrun. unfold logger_info at 1 in Hrun.
  unfold bind at 1 in Hrun. unfold lift at 1 in Hrun. rewrite Hs in Hrun.
  unfold bind at 1 in Hrun.
  match type of Hrun with
  | context [for_ ?xs ?body ?acc ?v] =>
      destruct (for_ xs body acc v) as [[e|recs] w1] eqn:Hloop;
      [discriminate|]
  end.
  eapply for_each_returned with (x := num_days - 1) in Hloop;
    [|apply range_mem; lia].
  destruct Hloop as (s0 & w0 & s1 & w2 & Hbody).
  unfold bind at 1 in Hbody. unfold lift at 1 in Hbody. unfold add_days in Hbody.
  destruct ((0 <? start + (num_days - 1))
            && (start + (num_days - 1) <=? _MAXORDINAL)) eqn:Hc;
    [|discriminate].
  apply andb_true_iff in Hc. destruct Hc as [_ Hc]. apply Z.leb_le in Hc. lia.
Qed.

End Calendar.

Section DrawCountRun.

Context {G : Type} {RS : RandomSource G}.
Variable config : Config.

(** A run that returns [N] records has consumed between [3 N] and [5 N]
    draws (none when it returns no record), and counting the draws changes
    nothing: the plain run returns the same records and leaves the wrapped
    source in the same state. *)
Theorem generate_streaming_data_draws :
  forall tracks num_days start_date regions (w : world (G * nat)) records w',
    generate_streaming_data (RS := Counting.source RS) config tracks num_days
      start_date regions w = (inr records, w') ->
    (snd (rng w) + 3 * List.length records <= snd (rng w')
     <= snd (rng w) + 5 * List.length records)%nat
    /\ exists v',
        generate_streaming_data config tracks num_days start_date regions
          (mkWorld (fst (rng w)) (log w)) = (inr records, v')
        /\ rng v' = fst (rng w').
Proof.
  intros * Hrun.
  destruct (generate_chain (RS := Counting.source RS) config _ _ _ _ _ _ _ Hrun)
    as (start & Hs & Hc).
  pose proof (generate_calendar (RS := Counting.source RS) config _ _ _ _ _ _ _
                _ Hrun Hs) as Hcal.
  apply counted_chain in Hc. destruct Hc as [Hc Hn].
  split; [exact Hn|].
  exact (generate_returns config tracks num_days start_date regions
           (mkWorld (fst (rng w)) (log w)) start records (fst (rng w'))
           Hs Hcal Hc).
Qed.

End DrawCountRun.

(** The demonstration run, its draws counted from 0. *)
Module CountedDemo.

Definition w0 : world (list float * nat) := mkWorld (rng Demo.w0, 0%nat) [].

Definition run : result (list StreamingRecord) * world (list float * nat) :=
  Eval vm_compute in
    generate_streaming_data (RS := Counting.source Tape.source) Demo.cfg
      Demo.tracks 3 "2023-01-07" Demo.regions w0.

Lemma counted_run_eq :
  generate_streaming_data (RS := Counting.source Tape.source) Demo.cfg
    Demo.tracks 3 "2023-01-07" Demo.regions w0 = (inr Demo.records, snd run).
Proof. vm_compute. reflexivity. Defined.

End CountedDemo.

(** Six records: a Saturday, a Sunday and a Monday, two tracks, no viral
    spike; 2 * 4 + 4 * 3 = 20 draws. *)
Example counted_demo_draws : snd (rng (snd CountedDemo.run)) = 20%nat.
Proof. reflexivity. Qed.

Lemma generate_streaming_data_draws_witness :
  generate_streaming_data (RS := Counting.source Tape.source) Demo.cfg
    Demo.tracks 3 "2023-01-07" Demo.regions CountedDemo.w0
  = (inr Demo.records, snd CountedDemo.run)
  /\ (snd (rng CountedDemo.w0) + 3 * List.length Demo.records
      <= snd (rng (snd CountedDemo.run))
      <= snd (rng CountedDemo.w0) + 5 * List.length Demo.records)%nat
  /\ exists v',
      generate_streaming_data Demo.cfg Demo.tracks 3 "2023-01-07" Demo.regions
        (mkWorld (fst (rng CountedDemo.w0)) (log CountedDemo.w0))
      = (inr Demo.records, v')
      /\ rng v' = fst (rng (snd CountedDemo.run)).
Proof.
  split; [exact CountedDemo.counted_run_eq|].
  exact (generate_streaming_data_draws Demo.cfg _ _ _ _ _ _ _
           CountedDemo.counted_run_eq).
Defined.

(** ** What the counts depend on *)

Lemma Forall2_flat_map {A B C D : Type} (Q : A -> B -> Prop)
      (P : C -> D -> Prop) (f : A -> list C) (h : B -> list D) xs ys :
  (forall x y, Q x y -> Forall2 P (f x) (h y)) ->
  Forall2 Q xs ys -> Forall2 P (flat_map f xs) (flat_map h ys).
Proof.
  intros Hfh. induction 1; simpl; [constructor|].
  apply Forall2_app; auto.
Qed.

Lemma Forall2_same_length {A B : Type} (xs : list A) (ys : list B) :
  List.length xs = List.length ys -> Forall2 (fun _ _ => True) xs ys.
Proof.
  revert ys. induction xs as [|x xs IH]; intros [|y ys] Hlen;
    try discriminate; constructor; auto.
Qed.

Lemma Forall2_map_eq {A B : Type} (f : A -> B) xs ys :
  map f xs = map f ys -> Forall2 (fun a b => f a = f b) xs ys.
Proof.
  revert ys. induction xs as [|x xs IH]; intros [|y ys] Heq;
    try discriminate; constructor; injection Heq; auto.
Qed.

Lemma Forall2_refl {A : Type} (P : A -> A -> Prop) xs :
  (forall x, P x x) -> Forall2 P xs xs.
Proof. intros Hp. induction xs; constructor; auto. Qed.

(** Two triples of the same day whose tracks have the same popularity. *)
Definition same_inputs (t t' : Spec.triple) : Prop :=
  fst (fst t) = fst (fst t')
  /\ popularity (snd (fst t)) = popularity (snd (fst t')).

(** Two records with the same date and the same two counts. *)
Definition same_counts (r r' : StreamingRecord) : Prop :=
  r_date r = r_date r'
  /\ r_streams r = r_streams r'
  /\ r_playlist_adds r = r_playlist_adds r'.

Section CountsDependOn.

Context {G : Type} {RS : RandomSource G}.
Variable config : Config.

Lemma simulate_triple_same_inputs t t' (g : G) r g' :
  same_inputs t t' ->
  Spec.simulate_triple config t g = (inr r, g') ->
  exists r', Spec.simulate_triple config t' g = (inr r', g')
             /\ same_counts r r'.
Proof.
  destruct t as [[day track] region], t' as [[day' track'] region'].
  intros [Hd Hp]. simpl in Hd, Hp. subst day'.
  unfold Spec.simulate_triple. rewrite <- Hp.
  destruct (Spec.layered_streams config (popularity track) day g)
    as [[e|streams] g1]; [discriminate|].
  destruct (Spec.playlist_adds config streams g1) as [[e|adds] g2];
    [discriminate|].
  intros [= <- <-]. eexists. split; [reflexivity|].
  repeat split.
Qed.

Lemma chain_same_inputs ts ts' (g : G) rs g' :
  Forall2 same_inputs ts ts' ->
  Chain (triple_step config) ts g rs g' ->
  exists rs', Chain (triple_step config) ts' g rs' g'
              /\ Forall2 same_counts rs rs'.
Proof.
  intros Hts Hc. revert ts' Hts.
  induction Hc as [g|t ts g r g1 rs g2 Hstep Hrest IH]; intros ts' Hts.
  - inversion Hts; subst. exists []. split; constructor.
  - inversion Hts as [|t0 t' ts0 ts'' Ht Hrest']; subst.
    destruct (simulate_triple_same_inputs _ _ _ _ _ Ht Hstep) as (r' & Hr' & Hc').
    destruct (IH _ Hrest') as (rs' & Hcs & Hall).
    exists (r' :: rs'). split; [econstructor; eauto | constructor; auto].
Qed.

Lemma triples_same_inputs start num_days tracks tracks' regions regions' :
  map popularity tracks = map popularity tracks' ->
  List.length regions = List.length regions' ->
  Forall2 same_inputs (Spec.triples start num_days tracks regions)
          (Spec.triples start num_days tracks' regions').
Proof.
  intros Hp Hr. unfold Spec.triples.
  apply Forall2_flat_map with (Q := eq);
    [|apply Forall2_refl; reflexivity].
  intros k k' <-. unfold Spec.triples_of_day.
  apply Forall2_flat_map
    with (Q := fun a b : Track => popularity a = popularity b);
    [|now apply Forall2_map_eq].
  intros track track' Hpop. unfold Spec.triples_of_track.
  apply Forall2_same_length in Hr.
  induction Hr; simpl; constructor; auto. split; auto.
Qed.

(** The counts of a run depend on the catalog through the popularities
    only, and on the region list through its length only: a run over
    another catalog with the same popularities, in the same order, and over
    as many regions returns records with the same dates, streaming counts
    and playlist-add counts, and leaves the generator in the same state. *)
Theorem counts_depend_on_popularity_only :
  forall tracks tracks' regions regions' num_days start_date (w : world G)
         records w1,
    map popularity tracks = map popularity tracks' ->
    List.length regions = List.length regions' ->
    generate_streaming_data config tracks num_days start_date regions w
    = (inr records, w1) ->
    exists records' w2,
      generate_streaming_data config tracks' num_days start_date regions' w
      = (inr records', w2)
      /\ rng w2 = rng w1
      /\ Forall2 same_counts records records'.
Proof.
  intros * Hp Hr Hrun.
  destruct (generate_chain config _ _ _ _ _ _ _ Hrun) as (start & Hs & Hc).
  pose proof (generate_calendar config _ _ _ _ _ _ _ _ Hrun Hs) as Hcal.
  destruct (chain_same_inputs _ _ _ _ _
              (triples_same_inputs start num_days _ _ _ _ Hp Hr) Hc)
    as (records' & Hc' & Hsame).
  destruct (generate_returns config tracks' num_days start_date regions' w
              start records' (rng w1) Hs Hcal Hc') as (w2 & Hrun' & Hg).
  exists records', w2. auto.
Qed.

End CountsDependOn.

(** The demonstration catalog under other names, in another market. *)
Module Renamed.

Definition tracks : list Track :=
  [{| track_id := "x1"; track_name := "Other"; artists := "C"; popularity := 50 |};
   {| track_id := "x0"; track_name := "Names"; artists := "D"; popularity := 0 |}].

Definition regions : list string := ["BR"%string].

End Renamed.

Lemma counts_depend_on_popularity_only_witness :
  map popularity Demo.tracks = map popularity Renamed.tracks
  /\ List.length Demo.regions = List.length Renamed.regions
  /\ generate_streaming_data Demo.cfg Demo.tracks 3 "2023-01-07" Demo.regions
       Demo.w0 = (inr Demo.records, snd Demo.run)
  /\ exists records' w2,
      generate_streaming_data Demo.cfg Renamed.tracks 3 "2023-01-07"
        Renamed.regions Demo.w0 = (inr records', w2)
      /\ rng w2 = rng (snd Demo.run)
      /\ Forall2 same_counts Demo.records records'.
Proof.
  split; [reflexivity|]. split; [reflexivity|].
  split; [exact Demo.demo_run_eq|].
  exact (counts_depend_on_popularity_only Demo.cfg Demo.tracks Renamed.tracks
           Demo.regions Renamed.regions 3 "2023-01-07" Demo.w0 _ _
           eq_refl eq_refl Demo.demo_run_eq).
Defined.

(** ** The calendar: ordinals and dates

    [_ymd2ord] and [_ord2ymd] are inverse of each other on the dates of the
    calendar; the proof follows the decomposition of an ordinal into cycles
    of 400, 100, 4 and 1 years that [_ord2ymd] computes. *)

(** The month and the day of day [n] (from 0) of a year, as the last lines
    of [_ord2ymd] compute them. *)
Definition month_day (n : Z) (leapyear : bool) : Z * Z :=
  let month := Z.shiftr (n + 50) 5 in
  let preceding :=
    nth (Z.to_nat month) _DAYS_BEFORE_MONTH 0
    + (if (2 <? month) && leapyear then 1 else 0) in
  if n <? preceding
  then
    let month := month - 1 in
    let preceding :=
      preceding - (nth (Z.to_nat month) _DAYS_IN_MONTH 0
                   + (if (month =? 2) && leapyear then 1 else 0)) in
    (month, n - preceding + 1)
  else (month, n - preceding + 1).

(** Days in a month and before it, the leap flag given. *)
Definition dim (leap : bool) (m : Z) : Z :=
  if (m =? 2) && leap then 29 else nth (Z.to_nat m) _DAYS_IN_MONTH 0.

Definition dbm (leap : bool) (m : Z) : Z :=
  nth (Z.to_nat m) _DAYS_BEFORE_MONTH 0 + (if (2 <? m) && leap then 1 else 0).

Definition year_length (leap : bool) : Z := if leap then 366 else 365.

Lemma month_day_table_dates :
  forallb (fun leap =>
    forallb (fun i =>
      forallb (fun j =>
        let m := 1 + i in
        let d := 1 + j in
        if d <=? dim leap m
        then
          let '(m', d') := month_day (dbm leap m + d - 1) leap in
          (m' =? m) && (d' =? d) && (dbm leap m + d <=? year_length leap)
        else true) (range 31)) (range 12)) [true; false] = true.
Proof. vm_compute. reflexivity. Qed.

Lemma month_day_table_days :
  forallb (fun leap =>
    forallb (fun n =>
      if n <? year_length leap
      then
        let '(m, d) := month_day n leap in
        (1 <=? m) && (m <=? 12) && (1 <=? d) && (d <=? dim leap m)
        && (dbm leap m + d =? n + 1)
      else true) (range 366)) [true; false] = true.
Proof. vm_compute. reflexivity. Qed.

Lemma month_day_of_date leap m d :
  1 <= m <= 12 -> 1 <= d <= dim leap m ->
  month_day (dbm leap m + d - 1) leap = (m, d)
  /\ dbm leap m + d <= year_length leap.
Proof.
  intros Hm Hd.
  assert (Hd31 : d <= 31).
  { destruct Hd as [_ Hd]. revert Hd. unfold dim.
    assert (Hcases : m = 1 \/ m = 2 \/ m = 3 \/ m = 4 \/ m = 5 \/ m = 6
                     \/ m = 7 \/ m = 8 \/ m = 9 \/ m = 10 \/ m = 11 \/ m = 12)
      by lia.
    repeat (destruct Hcases as [->|Hcases]); try subst m;
      destruct leap; simpl; lia. }
  pose proof month_day_table_dates as Htab.
  rewrite forallb_forall in Htab.
  assert (Hleap : In leap [true; false]) by (destruct leap; simpl; auto).
  specialize (Htab leap Hleap). rewrite forallb_forall in Htab.
  specialize (Htab (m - 1) (range_mem 12 (m - 1) ltac:(lia))).
  rewrite forallb_forall in Htab.
  specialize (Htab (d - 1) (range_mem 31 (d - 1) ltac:(lia))).
  cbv zeta in Htab.
  replace (1 + (m - 1)) with m in Htab by lia.
  replace (1 + (d - 1)) with d in Htab by lia.
  replace (d <=? dim leap m) with true in Htab
    by (symmetry; apply Z.leb_le; lia).
  destruct (month_day (dbm leap m + d - 1) leap) as [m' d'].
  apply andb_true_iff in Htab. destruct Htab as [Htab Hlen].
  apply andb_true_iff in Htab. destruct Htab as [Hm' Hd'].
  apply Z.eqb_eq in Hm'. apply Z.eqb_eq in Hd'. apply Z.leb_le in Hlen.
  subst. auto.
Qed.

Lemma month_day_of_day leap n :
  0 <= n < year_length leap ->
  let '(m, d) := month_day n leap in
  1 <= m <= 12 /\ 1 <= d <= dim leap m /\ dbm leap m + d = n + 1.
Proof.
  intros Hn.
  pose proof month_day_table_days as Htab.
  rewrite forallb_forall in Htab.
  assert (Hleap : In leap [true; false]) by (destruct leap; simpl; auto).
  specialize (Htab leap Hleap). rewrite forallb_forall in Htab.
  assert (Hn366 : n < 366) by (destruct leap; simpl in Hn; lia).
  specialize (Htab n (range_mem 366 n ltac:(lia))).
  replace (n <? year_length leap) with true in Htab
    by (symmetry; apply Z.ltb_lt; lia).
  destruct (month_day n leap) as [m d].
  repeat (apply andb_true_iff in Htab; destruct Htab as [Htab ?]).
  repeat match goal with
         | H : (_ <=? _) = true |- _ => apply Z.leb_le in H
         | H : (_ =? _) = true |- _ => apply Z.eqb_eq in H
         end.
  apply Z.leb_le in Htab. lia.
Qed.

(** [_ord2ymd], its last lines named. *)
Lemma _ord2ymd_unfold n :
  _ord2ymd n
  = let n0 := n - 1 in
    let n400 := n0 / 146097 in
    let r400 := n0 mod 146097 in
    let n100 := r400 / 36524 in
    let r100 := r400 mod 36524 in
    let n4 := r100 / 1461 in
    let r4 := r100 mod 1461 in
    let n1 := r4 / 365 in
    let r1 := r4 mod 365 in
    let year := n400 * 400 + 1 + (n100 * 100 + n4 * 4 + n1) in
    if (n1 =? 4) || (n100 =? 4) then (year - 1, 12, 31)
    else
      let '(m, d) :=
        month_day r1 ((n1 =? 3) && (negb (n4 =? 24) || (n100 =? 3))) in
      (year, m, d).
Proof.
  unfold _ord2ymd, month_day, _DI400Y, _DI100Y, _DI4Y. cbv zeta.
  destruct ((_ =? 4) || (_ =? 4)); [reflexivity|].
  match goal with
  | |- context [if ?c then _ else _] => destruct c; reflexivity
  end.
Qed.

(** The leap flag of a year written in cycles of 400, 100, 4 and 1 years. *)
Lemma _is_leap_digits a b c e :
  0 <= b <= 3 -> 0 <= c <= 24 -> 0 <= e <= 3 ->
  _is_leap (400 * a + 100 * b + 4 * c + e + 1)
  = (e =? 3) && (negb (c =? 24) || (b =? 3)).
Proof.
  intros Hb Hc He. unfold _is_leap.
  set (y := 400 * a + 100 * b + 4 * c + e + 1).
  assert (H4 : y mod 4 = (e + 1) mod 4).
  { unfold y. replace (400 * a + 100 * b + 4 * c + e + 1)
      with (e + 1 + (100 * a + 25 * b + c) * 4) by lia.
    apply Z.mod_add. lia. }
  assert (H100 : y mod 100 = (4 * c + e + 1) mod 100).
  { unfold y. replace (400 * a + 100 * b + 4 * c + e + 1)
      with (4 * c + e + 1 + (4 * a + b) * 100) by lia.
    apply Z.mod_add. lia. }
  assert (H400 : y mod 400 = (100 * b + 4 * c + e + 1) mod 400).
  { unfold y. replace (400 * a + 100 * b + 4 * c + e + 1)
      with (100 * b + 4 * c + e + 1 + a * 400) by lia.
    apply Z.mod_add. lia. }
  rewrite H4, H100, H400.
  destruct (Z.eq_dec e 3) as [->|He3].
  - change ((3 + 1) mod 4) with 0. cbn [Z.eqb andb].
    destruct (Z.eq_dec c 24) as [->|Hc24].
    + change ((4 * 24 + 3 + 1) mod 100) with 0. cbn [Z.eqb negb orb].
      destruct (Z.eq_dec b 3) as [->|Hb3]; [reflexivity|].
      replace (100 * b + 4 * 24 + 3 + 1) with (100 * (b + 1)) by lia.
      rewrite Z.mod_small by lia.
      replace (b =? 3) with false by (symmetry; apply Z.eqb_neq; lia).
      apply Z.eqb_neq. lia.
    + replace (c =? 24) with false by (symmetry; apply Z.eqb_neq; lia).
      rewrite Z.mod_small by lia.
      replace (4 * c + 3 + 1 =? 0) with false
        by (symmetry; apply Z.eqb_neq; lia).
      reflexivity.
  - replace (e =? 3) with false by (symmetry; apply Z.eqb_neq; lia).
    rewrite Z.mod_small by lia.
    replace (e + 1 =? 0) with false by (symmetry; apply Z.eqb_neq; lia).
    reflexivity.
Qed.

Lemma _days_before_year_digits a b c e :
  0 <= b <= 3 -> 0 <= c <= 24 -> 0 <= e <= 3 ->
  _days_before_year (400 * a + 100 * b + 4 * c + e + 1)
  = 146097 * a + 36524 * b + 1461 * c + 365 * e.
Proof.
  intros Hb Hc He. unfold _days_before_year. cbv zeta.
  replace (400 * a + 100 * b + 4 * c + e + 1 - 1)
    with (400 * a + 100 * b + 4 * c + e) by lia.
  replace ((400 * a + 100 * b + 4 * c + e) / 4) with (100 * a + 25 * b + c)
    by (apply Z.div_unique with (r := e); lia).
  replace ((400 * a + 100 * b + 4 * c + e) / 100) with (4 * a + b)
    by (apply Z.div_unique with (r := 4 * c + e); lia).
  replace ((400 * a + 100 * b + 4 * c + e) / 400) with a
    by (apply Z.div_unique with (r := 100 * b + 4 * c + e); lia).
  lia.
Qed.

(** [_ord2ymd] on day [doy] (from 0, the last day of a leap year apart) of
    the year written [a b c e]. *)
Lemma _ord2ymd_digits a b c e doy :
  0 <= b <= 3 -> 0 <= c <= 24 -> 0 <= e <= 3 -> 0 <= doy <= 364 ->
  _ord2ymd (146097 * a + 36524 * b + 1461 * c + 365 * e + doy + 1)
  = let '(m, d) :=
      month_day doy ((e =? 3) && (negb (c =? 24) || (b =? 3))) in
    (400 * a + 100 * b + 4 * c + e + 1, m, d).
Proof.
  intros Hb Hc He Hdoy. rewrite _ord2ymd_unfold. cbv zeta.
  replace (146097 * a + 36524 * b + 1461 * c + 365 * e + doy + 1 - 1)
    with (146097 * a + (36524 * b + 1461 * c + 365 * e + doy)) by lia.
  assert (H400 : (146097 * a + (36524 * b + 1461 * c + 365 * e + doy)) / 146097
                 = a)
    by (symmetry;
        apply Z.div_unique with (r := 36524 * b + 1461 * c + 365 * e + doy);
        lia).
  assert (R400 : (146097 * a + (36524 * b + 1461 * c + 365 * e + doy))
                   mod 146097
                 = 36524 * b + (1461 * c + 365 * e + doy))
    by (symmetry; apply Z.mod_unique with (q := a); lia).
  rewrite H400, R400.
  assert (H100 : (36524 * b + (1461 * c + 365 * e + doy)) / 36524 = b)
    by (symmetry; apply Z.div_unique with (r := 1461 * c + 365 * e + doy);
        lia).
  assert (R100 : (36524 * b + (1461 * c + 365 * e + doy)) mod 36524
                 = 1461 * c + (365 * e + doy))
    by (symmetry; apply Z.mod_unique with (q := b); lia).
  rewrite H100, R100.
  assert (H4 : (1461 * c + (365 * e + doy)) / 1461 = c)
    by (symmetry; apply Z.div_unique with (r := 365 * e + doy); lia).
  assert (R4 : (1461 * c + (365 * e + doy)) mod 1461 = 365 * e + doy)
    by (symmetry; apply Z.mod_unique with (q := c); lia).
  rewrite H4, R4.
  assert (H1 : (365 * e + doy) / 365 = e)
    by (symmetry; apply Z.div_unique with (r := doy); lia).
  assert (R1 : (365 * e + doy) mod 365 = doy)
    by (symmetry; apply Z.mod_unique with (q := e); lia).
  rewrite H1, R1.
  replace (e =? 4) with false by (symmetry; apply Z.eqb_neq; lia).
  replace (b =? 4) with false by (symmetry; apply Z.eqb_neq; lia).
  cbn [orb].
  destruct (month_day doy _) as [m d]. f_equal. f_equal. lia.
Qed.

(** [_ord2ymd] on the last day of a leap year. *)
Lemma _ord2ymd_digits_last a b c :
  0 <= b <= 3 -> 0 <= c <= 24 -> c <> 24 \/ b = 3 ->
  _ord2ymd (146097 * a + 36524 * b + 1461 * c + 365 * 3 + 365 + 1)
  = (400 * a + 100 * b + 4 * c + 3 + 1, 12, 31).
Proof.
  intros Hb Hc Hleap. rewrite _ord2ymd_unfold. cbv zeta.
  replace (146097 * a + 36524 * b + 1461 * c + 365 * 3 + 365 + 1 - 1)
    with (146097 * a + (36524 * b + 1461 * c + 1460)) by lia.
  assert (H400 : (146097 * a + (36524 * b + 1461 * c + 1460)) / 146097 = a)
    by (symmetry; apply Z.div_unique with (r := 36524 * b + 1461 * c + 1460);
        lia).
  assert (R400 : (146097 * a + (36524 * b + 1461 * c + 1460)) mod 146097
                 = 36524 * b + 1461 * c + 1460)
    by (symmetry; apply Z.mod_unique with (q := a); lia).
  rewrite H400, R400.
  destruct (Z.eq_dec c 24) as [->|Hc24].
  - assert (b = 3) by lia. subst b.
    change ((36524 * 3 + 1461 * 24 + 1460) / 36524) with 4.
    change ((36524 * 3 + 1461 * 24 + 1460) mod 36524) with 0.
    change (0 / 1461) with 0. change (0 mod 1461) with 0.
    change (0 / 365) with 0.
    change (0 =? 4) with false. change (4 =? 4) with true.
    cbn [orb]. cbv iota. f_equal. f_equal. lia.
  - assert (H100 : (36524 * b + 1461 * c + 1460) / 36524 = b)
      by (symmetry; apply Z.div_unique with (r := 1461 * c + 1460); lia).
    assert (R100 : (36524 * b + 1461 * c + 1460) mod 36524 = 1461 * c + 1460)
      by (symmetry; apply Z.mod_unique with (q := b); lia).
    rewrite H100, R100.
    assert (H4 : (1461 * c + 1460) / 1461 = c)
      by (symmetry; apply Z.div_unique with (r := 1460); lia).
    assert (R4 : (1461 * c + 1460) mod 1461 = 1460)
      by (symmetry; apply Z.mod_unique with (q := c); lia).
    rewrite H4, R4.
    change (1460 / 365) with 4. change (4 =? 4) with true. cbn [orb].
    cbv iota. f_equal. f_equal. lia.
Qed.

Lemma _days_in_month_dim y m : _days_in_month y m = dim (_is_leap y) m.
Proof. reflexivity. Qed.

Lemma _days_before_month_dbm y m : _days_before_month y m = dbm (_is_leap y) m.
Proof. reflexivity. Qed.

Lemma dbm_nonneg leap m : 1 <= m <= 12 -> 0 <= dbm leap m.
Proof.
  intros Hm.
  assert (Hcases : m = 1 \/ m = 2 \/ m = 3 \/ m = 4 \/ m = 5 \/ m = 6
                   \/ m = 7 \/ m = 8 \/ m = 9 \/ m = 10 \/ m = 11 \/ m = 12)
    by lia.
  repeat (destruct Hcases as [->|Hcases]); try subst m;
    destruct leap; unfold dbm; simpl; lia.
Qed.

(** Every year is [400 a + 100 b + 4 c + e + 1] with digits in range. *)
Lemma year_digits y :
  exists a b c e,
    y = 400 * a + 100 * b + 4 * c + e + 1
    /\ 0 <= b <= 3 /\ 0 <= c <= 24 /\ 0 <= e <= 3.
Proof.
  exists ((y - 1) / 400), ((y - 1) mod 400 / 100),
         ((y - 1) mod 400 mod 100 / 4), ((y - 1) mod 400 mod 100 mod 4).
  pose proof (Z.div_mod (y - 1) 400 ltac:(lia)).
  pose proof (Z.mod_pos_bound (y - 1) 400 ltac:(lia)).
  pose proof (Z.div_mod ((y - 1) mod 400) 100 ltac:(lia)).
  pose proof (Z.mod_pos_bound ((y - 1) mod 400) 100 ltac:(lia)).
  pose proof (Z.div_mod ((y - 1) mod 400 mod 100) 4 ltac:(lia)).
  pose proof (Z.mod_pos_bound ((y - 1) mod 400 mod 100) 4 ltac:(lia)).
  pose proof (Z.div_pos ((y - 1) mod 400) 100 ltac:(lia) ltac:(lia)).
  pose proof (Z.div_pos ((y - 1) mod 400 mod 100) 4 ltac:(lia) ltac:(lia)).
  repeat split; lia.
Qed.

(** Every ordinal is a day of a year written in digits: a day from 0 to
    364, or day 365 of a leap year. *)
Lemma ordinal_digits n :
  exists a b c e doy,
    n = 146097 * a + 36524 * b + 1461 * c + 365 * e + doy + 1
    /\ 0 <= b <= 3 /\ 0 <= c <= 24 /\ 0 <= e <= 3
    /\ (0 <= doy <= 364 \/ doy = 365 /\ e = 3 /\ (c <> 24 \/ b = 3)).
Proof.
  set (a := (n - 1) / 146097). set (r400 := (n - 1) mod 146097).
  assert (E400 : n - 1 = 146097 * a + r400) by (apply Z.div_mod; lia).
  assert (B400 : 0 <= r400 < 146097) by (apply Z.mod_pos_bound; lia).
  destruct (Z.eq_dec r400 146096) as [Hlast|Hlast].
  { exists a, 3, 24, 3, 365. lia. }
  set (b := r400 / 36524). set (r100 := r400 mod 36524).
  assert (E100 : r400 = 36524 * b + r100) by (apply Z.div_mod; lia).
  assert (B100 : 0 <= r100 < 36524) by (apply Z.mod_pos_bound; lia).
  assert (Bb : 0 <= b <= 3) by lia.
  set (c := r100 / 1461). set (r4 := r100 mod 1461).
  assert (E4 : r100 = 1461 * c + r4) by (apply Z.div_mod; lia).
  assert (B4 : 0 <= r4 < 1461) by (apply Z.mod_pos_bound; lia).
  assert (Bc : 0 <= c <= 24) by lia.
  destruct (Z.eq_dec r4 1460) as [Hlast4|Hlast4].
  { exists a, b, c, 3, 365. lia. }
  set (e := r4 / 365). set (doy := r4 mod 365).
  assert (E1 : r4 = 365 * e + doy) by (apply Z.div_mod; lia).
  assert (B1 : 0 <= doy < 365) by (apply Z.mod_pos_bound; lia).
  exists a, b, c, e, doy. lia.
Qed.

(** *** The ordinal of a date, and the date of an ordinal *)

Lemma ymd_ord_ymd y m d :
  1 <= m <= 12 -> 1 <= d <= _days_in_month y m ->
  _ord2ymd (_ymd2ord y m d) = (y, m, d).
Proof.
  intros Hm Hd. rewrite _days_in_month_dim in Hd.
  destruct (year_digits y) as (a & b & c & e & -> & Hb & Hc & He).
  unfold _ymd2ord.
  rewrite _days_before_month_dbm, _days_before_year_digits by assumption.
  rewrite _is_leap_digits in * by assumption.
  set (L := (e =? 3) && (negb (c =? 24) || (b =? 3))) in *.
  destruct (month_day_of_date L m d Hm Hd) as [Hmd Hlen].
  destruct (Z_le_gt_dec (dbm L m + d - 1) 364) as [Hdoy|Hdoy].
  - pose proof (dbm_nonneg L m Hm) as Hpos.
    replace (146097 * a + 36524 * b + 1461 * c + 365 * e + dbm L m + d)
      with (146097 * a + 36524 * b + 1461 * c + 365 * e
            + (dbm L m + d - 1) + 1) by lia.
    rewrite _ord2ymd_digits by (try assumption; lia).
    fold L. rewrite Hmd. reflexivity.
  - assert (HL : L = true)
      by (destruct L; [reflexivity | unfold year_length in Hlen; lia]).
    unfold year_length in Hlen. rewrite HL in *.
    assert (Hdoy' : dbm true m + d - 1 = 365) by lia.
    rewrite Hdoy' in Hmd. vm_compute in Hmd. injection Hmd as <- <-.
    unfold L in HL. apply andb_true_iff in HL. destruct HL as [He3 Hcb].
    apply Z.eqb_eq in He3. subst e.
    replace (146097 * a + 36524 * b + 1461 * c + 365 * 3 + dbm true 12 + 31)
      with (146097 * a + 36524 * b + 1461 * c + 365 * 3 + 365 + 1)
      by (vm_compute (dbm true 12); lia).
    apply _ord2ymd_digits_last; try assumption.
    apply orb_true_iff in Hcb. destruct Hcb as [Hc24|Hb3].
    + left. apply negb_true_iff, Z.eqb_neq in Hc24. exact Hc24.
    + right. now apply Z.eqb_eq.
Qed.

Lemma ord_ymd_ord n :
  let '(y, m, d) := _ord2ymd n in
  1 <= m <= 12 /\ 1 <= d <= _days_in_month y m /\ _ymd2ord y m d = n.
Proof.
  destruct (ordinal_digits n)
    as (a & b & c & e & doy & -> & Hb & Hc & He & Hdoy).
  destruct Hdoy as [Hdoy|(-> & -> & Hleap)].
  - rewrite _ord2ymd_digits by assumption.
    set (L := (e =? 3) && (negb (c =? 24) || (b =? 3))).
    assert (Hlen : 0 <= doy < year_length L)
      by (unfold year_length; destruct L; lia).
    pose proof (month_day_of_day L doy Hlen) as Hday.
    destruct (month_day doy L) as [m d]. destruct Hday as (Hm & Hd & Hsum).
    unfold _ymd2ord.
    rewrite _days_in_month_dim, _days_before_month_dbm,
      _days_before_year_digits, _is_leap_digits by assumption.
    fold L. repeat split; lia.
  - rewrite _ord2ymd_digits_last by (try assumption; lia).
    unfold _ymd2ord.
    rewrite _days_in_month_dim, _days_before_month_dbm,
      _days_before_year_digits, _is_leap_digits by lia.
    assert (HL : (3 =? 3) && (negb (c =? 24) || (b =? 3)) = true).
    { change (3 =? 3) with true. cbn [andb]. apply orb_true_iff.
      destruct Hleap as [Hc24|Hb3].
      - left. now apply negb_true_iff, Z.eqb_neq.
      - right. now apply Z.eqb_eq. }
    rewrite HL. vm_compute (dim true 12). vm_compute (dbm true 12).
    repeat split; lia.
Qed.

(** The year of an ordinal, from the digits. *)
Lemma year_of_ordinal n :
  (364878 <= n -> 1000 <= year n) /\ (n <= _MAXORDINAL -> year n <= 9999)
  /\ (1000 <= year n -> 364878 <= n).
Proof.
  unfold year, _MAXORDINAL.
  destruct (ordinal_digits n)
    as (a & b & c & e & doy & -> & Hb & Hc & He & Hdoy).
  destruct Hdoy as [Hdoy|(-> & -> & Hleap)].
  - rewrite _ord2ymd_digits by assumption.
    destruct (month_day doy _) as [m d]. cbn [fst]. lia.
  - rewrite _ord2ymd_digits_last by (try assumption; lia).
    cbn [fst]. lia.
Qed.

(** *** The text of a date *)

Lemma digit_of_digit_char v : digit_of (digit_char v) = Some (v mod 10).
Proof.
  pose proof (Z.mod_pos_bound v 10 ltac:(lia)) as Hv.
  unfold digit_of, digit_char.
  rewrite nat_ascii_embedding by lia.
  rewrite Z2Nat.id by lia.
  replace (48 <=? 48 + v mod 10) with true by (symmetry; apply Z.leb_le; lia).
  replace (48 + v mod 10 <=? 57) with true by (symmetry; apply Z.leb_le; lia).
  cbn [andb]. f_equal. lia.
Qed.

Lemma match_year_pad4 y rest :
  0 <= y <= 9999 ->
  match_year (pad4 y ++ String "-" rest) = Some (y, rest).
Proof.
  intros Hy. unfold pad4, pad2. cbn [append]. unfold match_year.
  rewrite !digit_of_digit_char. unfold then_dash.
  change (is_dash "-") with true. cbv iota. do 2 f_equal.
  pose proof (Z.div_mod y 10 ltac:(lia)).
  pose proof (Z.mod_pos_bound y 10 ltac:(lia)).
  pose proof (Z.div_mod (y / 10) 10 ltac:(lia)).
  pose proof (Z.mod_pos_bound (y / 10) 10 ltac:(lia)).
  pose proof (Z.div_mod (y / 100) 10 ltac:(lia)).
  pose proof (Z.mod_pos_bound (y / 100) 10 ltac:(lia)).
  pose proof (Z.div_mod (y / 100 / 10) 10 ltac:(lia)).
  pose proof (Z.mod_pos_bound (y / 100 / 10) 10 ltac:(lia)).
  assert (y / 100 = y / 10 / 10) by (rewrite Z.div_div by lia; reflexivity).
  assert (y / 100 / 10 / 10 = 0).
  { apply Z.div_small. split.
    - repeat apply Z.div_pos; lia.
    - rewrite !Z.div_div by lia. apply Z.div_lt_upper_bound; lia. }
  lia.
Qed.

Lemma match_month_pad2 m rest :
  1 <= m <= 12 -> match_month (pad2 m ++ String "-" rest) = Some (m, rest).
Proof.
  intros Hm.
  assert (Hcases : m = 1 \/ m = 2 \/ m = 3 \/ m = 4 \/ m = 5 \/ m = 6
                   \/ m = 7 \/ m = 8 \/ m = 9 \/ m = 10 \/ m = 11 \/ m = 12)
    by lia.
  repeat (destruct Hcases as [->|Hcases]); try subst m; reflexivity.
Qed.

Lemma match_day_pad2 d :
  1 <= d <= 31 -> match_day (pad2 d) = Some (d, EmptyString).
Proof.
  intros Hd.
  pose proof (range_mem 31 (d - 1) ltac:(lia)) as Hin.
  assert (Hall : forallb (fun j =>
            match match_day (pad2 (1 + j)) with
            | Some (v, EmptyString) => v =? 1 + j
            | _ => false
            end) (range 31) = true) by (vm_compute; reflexivity).
  rewrite forallb_forall in Hall. specialize (Hall _ Hin).
  replace (1 + (d - 1)) with d in Hall by lia.
  destruct (match_day (pad2 d)) as [[v [|? ?]]|]; try discriminate.
  apply Z.eqb_eq in Hall. now subst v.
Qed.

Lemma dim_le_31 leap m : 1 <= m <= 12 -> dim leap m <= 31.
Proof.
  intros Hm.
  assert (Hcases : m = 1 \/ m = 2 \/ m = 3 \/ m = 4 \/ m = 5 \/ m = 6
                   \/ m = 7 \/ m = 8 \/ m = 9 \/ m = 10 \/ m = 11 \/ m = 12)
    by lia.
  repeat (destruct Hcases as [->|Hcases]); try subst m;
    destruct leap; unfold dim; simpl; lia.
Qed.

Lemma string_app_String a s t : (String a s ++ t = String a (s ++ t))%string.
Proof. reflexivity. Qed.

Lemma year_text_pad4 y : 1000 <= y -> year_text y = pad4 y.
Proof.
  intros Hy. unfold year_text.
  replace (y <? 10) with false by (symmetry; apply Z.ltb_ge; lia).
  replace (y <? 100) with false by (symmetry; apply Z.ltb_ge; lia).
  replace (y <? 1000) with false by (symmetry; apply Z.ltb_ge; lia).
  reflexivity.
Qed.

(** The text [strftime] writes for a day of the years 1000 to 9999 is read
    back by [strptime] as that day. *)
Lemma strptime_strftime n :
  364878 <= n <= _MAXORDINAL -> strptime_ymd (strftime_ymd n) = inr n.
Proof.
  intros Hn.
  destruct (year_of_ordinal n) as (Hlo & Hhi & _).
  specialize (Hlo ltac:(lia)). specialize (Hhi ltac:(lia)).
  pose proof (ord_ymd_ord n) as Hrt.
  unfold strftime_ymd, strptime_ymd, parse_ymd, year, month, day in *.
  destruct (_ord2ymd n) as [[y m] d]. cbn [fst snd] in *.
  destruct Hrt as (Hm & Hd & Hord).
  pose proof (dim_le_31 (_is_leap y) m Hm) as H31.
  rewrite _days_in_month_dim in Hd.
  rewrite year_text_pad4 by lia.
  change ("-" ++ pad2 m ++ "-" ++ pad2 d)%string
    with (String "-" (pad2 m ++ String "-" (pad2 d))).
  rewrite match_year_pad4 by lia.
  rewrite match_month_pad2 by lia.
  rewrite match_day_pad2 by lia.
  replace (y <? MINYEAR) with false
    by (symmetry; apply Z.ltb_ge; unfold MINYEAR; lia).
  rewrite _days_in_month_dim.
  replace (dim (_is_leap y) m <? d) with false
    by (symmetry; apply Z.ltb_ge; lia).
  now rewrite Hord.
Qed.

(** The text [strftime] writes for the day that [strptime] read, in a year
    of four digits, is the date read, every field on its full width. *)
Lemma strftime_strptime s y m d n :
  parse_ymd s = inr (y, m, d) -> strptime_ymd s = inr n -> 1000 <= y ->
  strftime_ymd n = (pad4 y ++ "-" ++ pad2 m ++ "-" ++ pad2 d)%string.
Proof.
  intros Hparse Hs Hy.
  assert (Hb : 1 <= m <= 12 /\ 1 <= d).
  { unfold parse_ymd in Hparse.
    destruct (match_year s) as [[y0 rest]|]; [|discriminate].
    destruct (match_month rest) as [[m0 rest1]|] eqn:Hm; [|discriminate].
    destruct (match_day rest1) as [[d0 [|c rest2]]|] eqn:Hd; try discriminate.
    injection Hparse as <- <- <-.
    apply match_month_bounds in Hm. apply match_day_bounds in Hd. lia. }
  unfold strptime_ymd in Hs. rewrite Hparse in Hs.
  destruct (y <? MINYEAR); [discriminate|].
  destruct (_days_in_month y m <? d) eqn:Hd; [discriminate|].
  injection Hs as <-. apply Z.ltb_ge in Hd.
  unfold strftime_ymd, year, month, day.
  rewrite ymd_ord_ymd by lia. cbn [fst snd].
  now rewrite year_text_pad4 by exact Hy.
Qed.

(** ** The dates of a run *)

(** In a concatenation of blocks of the same length [m], the element at
    index [i] is element [i mod m] of block [i / m]. *)
Lemma flat_map_nth_block {A B} (f : A -> list B) (m : nat) (xs : list A) :
  (forall x, List.length (f x) = m) ->
  forall i b, nth_error (flat_map f xs) i = Some b ->
  exists x, nth_error xs (i / m) = Some x
            /\ nth_error (f x) (i mod m) = Some b.
Proof.
  intros Hf. induction xs as [|y xs IH]; intros i b Hi.
  - destruct i; discriminate.
  - simpl in Hi.
    assert (Hm : m <> 0%nat).
    { intros ->. assert (Hnil : forall x, f x = []).
      { intros x. specialize (Hf x). now destruct (f x). }
      assert (Hall : flat_map f xs = []).
      { clear -Hnil. induction xs as [|? ? IH']; simpl;
          [reflexivity | now rewrite Hnil, IH']. }
      rewrite Hnil, Hall in Hi. destruct i; discriminate. }
    destruct (Nat.lt_ge_cases i m) as [Hlt|Hge].
    + rewrite nth_error_app1 in Hi by (rewrite Hf; exact Hlt).
      exists y. rewrite Nat.div_small, Nat.mod_small by exact Hlt.
      split; [reflexivity | exact Hi].
    + rewrite nth_error_app2 in Hi by (rewrite Hf; exact Hge).
      rewrite Hf in Hi. destruct (IH _ _ Hi) as (x & Hx & Hb).
      exists x.
      replace i with (i - m + 1 * m)%nat by lia.
      rewrite Nat.div_add, Nat.Div0.mod_add by exact Hm.
      replace (((i - m) / m + 1))%nat with (S ((i - m) / m)) by lia.
      split; [exact Hx | exact Hb].
Qed.

Lemma nth_error_range n k v :
  nth_error (range n) k = Some v -> v = Z.of_nat k /\ (k < Z.to_nat n)%nat.
Proof.
  intros Hk.
  assert (Hlt : (k < Z.to_nat n)%nat).
  { rewrite <- range_length. apply nth_error_Some. congruence. }
  rewrite range_nth in Hk by exact Hlt. split; [congruence | exact Hlt].
Qed.

(** The triple at index [i] is one of day [i / (|tracks| * |regions|)]. *)
Lemma triples_day_of_index start num_days tracks regions i day track region :
  nth_error (Spec.triples start num_days tracks regions) i
  = Some (day, track, region) ->
  day = start + Z.of_nat (i / (List.length tracks * List.length regions))
  /\ Z.of_nat (i / (List.length tracks * List.length regions)) < num_days.
Proof.
  intros Hi. unfold Spec.triples in Hi.
  apply flat_map_nth_block
    with (m := (List.length tracks * List.length regions)%nat) in Hi;
    [|intros; apply triples_of_day_length].
  destruct Hi as (k & Hk & Hin).
  apply nth_error_range in Hk. destruct Hk as [-> Hlt].
  apply nth_error_In in Hin.
  unfold Spec.triples_of_day, Spec.triples_of_track in Hin.
  apply in_flat_map in Hin. destruct Hin as (t & _ & Hin).
  apply in_map_iff in Hin. destruct Hin as (reg & [= <- _ _] & _).
  split; [reflexivity | lia].
Qed.

Lemma Forall2_nth_error_r {A B} (P : A -> B -> Prop) xs ys :
  Forall2 P xs ys ->
  forall i y, nth_error ys i = Some y ->
  exists x, nth_error xs i = Some x /\ P x y.
Proof.
  induction 1 as [|x0 y0 xs ys Hxy Hrest IH]; intros i y Hi.
  - destruct i; discriminate.
  - destruct i as [|i]; simpl in *.
    + injection Hi as ->. eauto.
    + eauto.
Qed.

Section RunDates.

Context {G : Type} {RS : RandomSource G}.
Variable config : Config.

Lemma triple_step_date t g r g' :
  triple_step config t g r g' -> r_date r = strftime_ymd (fst (fst t)).
Proof.
  unfold triple_step, Spec.simulate_triple. destruct t as [[day track] region].
  destruct (Spec.layered_streams config (popularity track) day g)
    as [[e|streams] g1]; [discriminate|].
  destruct (Spec.playlist_adds config streams g1) as [[e|adds] g2];
    [discriminate|].
  intros [= <- _]. reflexivity.
Qed.

(** Record number [i] of a run that returns is dated [i / (T * R)] days
    after the start, [T] tracks and [R] regions given. *)
Lemma record_day tracks num_days start_date regions (w : world G) records w'
      start i r :
  generate_streaming_data config tracks num_days start_date regions w
  = (inr records, w') ->
  strptime_ymd start_date = inr start ->
  nth_error records i = Some r ->
  let k := Z.of_nat (i / (List.length tracks * List.length regions)) in
  r_date r = strftime_ymd (start + k) /\ 0 <= k < num_days.
Proof.
  intros Hrun Hs Hi.
  destruct (generate_chain config _ _ _ _ _ _ _ Hrun) as (start' & Hs' & Hc).
  assert (start' = start) by congruence. subst start'.
  pose proof (Chain_Forall2 _ (fun t r => r_date r = strftime_ymd (fst (fst t)))
                _ _ _ _ triple_step_date Hc) as Hall.
  destruct (Forall2_nth_error_r _ _ _ Hall _ _ Hi) as ([[day track] region] & Ht & Hd).
  apply triples_day_of_index in Ht. destruct Ht as [-> Hlt].
  cbn [fst] in Hd. cbv zeta. split; [exact Hd | lia].
Qed.

(** X8. The dates of a run that starts in year 1000 or later are written so
    that [strptime], with the format of [start_date], reads them back: record
    number [i] carries the day [i / (T * R)] days after the start. *)
Theorem record_dates_read_back :
  forall tracks num_days start_date regions (w : world G) records w' start i r,
    generate_streaming_data config tracks num_days start_date regions w
    = (inr records, w') ->
    strptime_ymd start_date = inr start ->
    1000 <= year start ->
    nth_error records i = Some r ->
    strptime_ymd (r_date r)
    = inr (start
           + Z.of_nat (i / (List.length tracks * List.length regions))).
Proof.
  intros * Hrun Hs Hy Hi.
  destruct (record_day _ _ _ _ _ _ _ _ _ _ Hrun Hs Hi) as [Hd Hk].
  pose proof (generate_calendar config _ _ _ _ _ _ _ _ Hrun Hs) as Hcal.
  destruct (year_of_ordinal start) as (_ & _ & Hlo). specialize (Hlo Hy).
  rewrite Hd. apply strptime_strftime. lia.
Qed.

(** X9. The records of the first day carry the date that [start_date]
    gives, every field on its full width: the year on four digits, the month
    and the day on two, whether [start_date] pads them or not. *)
Theorem first_day_carries_start_date :
  forall tracks num_days start_date regions (w : world G) records w' y m d i r,
    generate_streaming_data config tracks num_days start_date regions w
    = (inr records, w') ->
    parse_ymd start_date = inr (y, m, d) ->
    1000 <= y ->
    (i < List.length tracks * List.length regions)%nat ->
    nth_error records i = Some r ->
    r_date r = (pad4 y ++ "-" ++ pad2 m ++ "-" ++ pad2 d)%string.
Proof.
  intros * Hrun Hparse Hy Hlt Hi.
  destruct (generate_chain config _ _ _ _ _ _ _ Hrun) as (start & Hs & _).
  destruct (record_day _ _ _ _ _ _ _ _ _ _ Hrun Hs Hi) as [Hd _].
  rewrite Nat.div_small in Hd by exact Hlt.
  change (Z.of_nat 0) with 0 in Hd. rewrite Z.add_0_r in Hd.
  rewrite Hd. eapply strftime_strptime; eassumption.
Qed.

End RunDates.

Lemma record_dates_read_back_witness :
  generate_streaming_data Demo.cfg Demo.tracks 3 "2023-01-07" Demo.regions
    Demo.w0 = (inr Demo.records, snd Demo.run)
  /\ strptime_ymd "2023-01-07" = inr 738527
  /\ 1000 <= year 738527
  /\ exists r,
      nth_error Demo.records 5 = Some r
      /\ strptime_ymd (r_date r) = inr (738527 + 2).
Proof.
  split; [exact Demo.demo_run_eq|]. split; [reflexivity|].
  split; [vm_compute; discriminate|].
  eexists. split; [reflexivity|].
  exact (record_dates_read_back Demo.cfg _ _ _ _ _ _ _ _ 5%nat _
           Demo.demo_run_eq eq_refl ltac:(vm_compute; discriminate) eq_refl).
Defined.

(** A run whose start date is written without padding. *)
Module ShortDate.

Import Tape.

Definition run : result (list StreamingRecord) * world (list float) :=
  Eval vm_compute in
    generate_streaming_data Demo.cfg Demo.tracks 2 "2023-1-7" Demo.regions
      Demo.w0.

Definition records : list StreamingRecord :=
  match fst run with inr rs => rs | inl _ => [] end.

Lemma short_run_eq :
  generate_streaming_data Demo.cfg Demo.tracks 2 "2023-1-7" Demo.regions
    Demo.w0 = (inr records, snd run).
Proof. vm_compute. reflexivity. Defined.

End ShortDate.

Lemma first_day_carries_start_date_witness :
  generate_streaming_data Demo.cfg Demo.tracks 2 "2023-1-7" Demo.regions
    Demo.w0 = (inr ShortDate.records, snd ShortDate.run)
  /\ parse_ymd "2023-1-7" = inr (2023, 1, 7)
  /\ 1000 <= 2023
  /\ (1 < List.length Demo.tracks * List.length Demo.regions)%nat
  /\ exists r,
      nth_error ShortDate.records 1 = Some r
      /\ r_date r = "2023-01-07"%string.
Proof.
  split; [exact ShortDate.short_run_eq|]. split; [reflexivity|].
  split; [lia|]. split; [simpl; lia|].
  eexists. split; [reflexivity|].
  exact (first_day_carries_start_date Demo.cfg _ _ _ _ _ _ _ 2023 1 7 1%nat _
           ShortDate.short_run_eq eq_refl ltac:(lia) ltac:(simpl; lia)
           eq_refl).
Defined.

(** ** The summer months *)

(** Day [doy] (from 0) of year [y]. *)
Lemma _ord2ymd_day_of_year y doy :
  0 <= doy < year_length (_is_leap y) ->
  _ord2ymd (_days_before_year y + doy + 1)
  = let '(m, d) := month_day doy (_is_leap y) in (y, m, d).
Proof.
  intros Hdoy. pose proof (month_day_of_day (_is_leap y) doy Hdoy) as Hday.
  destruct (month_day doy (_is_leap y)) as [m d].
  destruct Hday as (Hm & Hd & Hsum).
  replace (_days_before_year y + doy + 1) with (_ymd2ord y m d)
    by (unfold _ymd2ord; rewrite _days_before_month_dbm; lia).
  apply ymd_ord_ymd; [exact Hm | now rewrite _days_in_month_dim].
Qed.

Lemma leb_shift a b c d : a - b = c - d -> (a <=? b) = (c <=? d).
Proof.
  intros H. destruct (Z.leb_spec a b), (Z.leb_spec c d); try reflexivity; lia.
Qed.

Lemma summer_table :
  forallb (fun leap =>
    forallb (fun n =>
      if n <? year_length leap
      then Bool.eqb (existsb (Z.eqb (fst (month_day n leap))) [6; 7; 8])
                    ((dbm leap 6 <=? n) && (n <=? dbm leap 8 + 30))
      else true) (range 366)) [true; false] = true.
Proof. vm_compute. reflexivity. Qed.

(** X10. Within a year, the days that [is_summer_month] accepts are the 92
    days from the first of June to the last of August. *)
Theorem is_summer_month_june_to_august :
  forall y d,
    _ymd2ord y 1 1 <= d <= _ymd2ord y 12 31 ->
    is_summer_month d = (_ymd2ord y 6 1 <=? d) && (d <=? _ymd2ord y 8 31)
    /\ _ymd2ord y 8 31 - _ymd2ord y 6 1 + 1 = 92.
Proof.
  intros y d. unfold _ymd2ord. rewrite !_days_before_month_dbm.
  set (L := _is_leap y). intros Hd.
  assert (Hdoy : 0 <= d - _days_before_year y - 1 < year_length L)
    by (revert Hd; destruct L; vm_compute (dbm _ _); unfold year_length; lia).
  split; [|destruct L; vm_compute (dbm _ _); lia].
  unfold is_summer_month, month.
  replace d with (_days_before_year y + (d - _days_before_year y - 1) + 1)
    at 1 by lia.
  rewrite _ord2ymd_day_of_year by exact Hdoy. fold L.
  pose proof summer_table as Htab. rewrite forallb_forall in Htab.
  assert (Hleap : In L [true; false]) by (destruct L; simpl; auto).
  specialize (Htab L Hleap). rewrite forallb_forall in Htab.
  specialize (Htab _ (range_mem 366 (d - _days_before_year y - 1)
                        ltac:(unfold year_length in Hdoy; destruct L; lia))).
  cbv beta in Htab.
  replace (d - _days_before_year y - 1 <? year_length L) with true in Htab
    by (symmetry; apply Z.ltb_lt; lia).
  apply Bool.eqb_prop in Htab.
  destruct (month_day (d - _days_before_year y - 1) L) as [m dd].
  cbn [fst snd] in *. rewrite Htab. f_equal.
  - apply leb_shift; lia.
  - apply leb_shift; lia.
Qed.

(** 2023-07-04 is a summer day, 2023-01-07 is not. *)
Lemma is_summer_month_june_to_august_witness :
  _ymd2ord 2023 1 1 <= 738705 <= _ymd2ord 2023 12 31
  /\ is_summer_month 738705
     = (_ymd2ord 2023 6 1 <=? 738705) && (738705 <=? _ymd2ord 2023 8 31)
  /\ _ymd2ord 2023 8 31 - _ymd2ord 2023 6 1 + 1 = 92.
Proof.
  split; [split; vm_compute; discriminate|].
  apply (is_summer_month_june_to_august 2023 738705).
  split; vm_compute; discriminate.
Defined.

Example summer_days_2023 :
  map is_summer_month [738527; 738671; 738672; 738705; 738763; 738764]
  = [false; false; true; true; true; false].
Proof. reflexivity. Qed.

(** * The driver: [save_streaming_data] and [main]

    The two functions around the simulator.  What they ask of pandas and of
    the file system is an interface: [pd.read_csv], the creation of the
    output directory and [to_csv] act on a file system of type [FS]
    (interface [FileSystem]); [DataFrame.sample] and the texts of the sum and
    of the mean of a column are parameters.  The table [pd.DataFrame(records)]
    is represented by the list of records it is built from: it has the eight
    columns of a record when the list has a record, and no column at all when
    the list is empty. *)

(** The constants of [config] that [main] reads. *)
Record RunConfig : Type := {
  SPOTIFY_DATASET_PATH : string;
  SAMPLE_TRACKS : Z;
  NUM_DAYS : Z;
  START_DATE : string;
  REGIONS : list string;
  OUTPUT_PATH : string
}.

Module Process.

(** The exceptions of the driver: those of the loader and of the simulator,
    the [KeyError] of a table asked for a column it does not have, and the
    errors of the file system. *)
Inductive failure : Type :=
| Raised (e : exn)
| KeyError (key : string)
| OSError (msg : string).

(** [str(e)]; a [KeyError] prints the [repr] of its key. *)
Definition str_failure (f : failure) : string :=
  match f with
  | Raised e => str_exn e
  | KeyError key => "'" ++ key ++ "'"
  | OSError msg => msg
  end.

(** The state of the process: the generator and the log, and the files. *)
Record machine (G FS : Type) : Type := mkMachine {
  proc : world G;
  files : FS
}.
Arguments mkMachine {G FS} _ _.
Arguments proc {G FS} _.
Arguments files {G FS} _.

Definition IO (G FS A : Type) : Type :=
  machine G FS -> (failure + A) * machine G FS.

Definition io_ret {G FS A} (a : A) : IO G FS A := fun s => (inr a, s).

Definition io_bind {G FS A B} (m : IO G FS A) (k : A -> IO G FS B)
  : IO G FS B :=
  fun s =>
    match m s with
    | (inr a, s') => k a s'
    | (inl e, s') => (inl e, s')
    end.

Definition io_raise {G FS A} (e : failure) : IO G FS A := fun s => (inl e, s).

(** A pure call that may raise. *)
Definition io_lift {G FS A} (r : failure + A) : IO G FS A := fun s => (r, s).

(** [try: m except Exception as e: handler e] *)
Definition io_try_except {G FS A} (m : IO G FS A)
           (handler : failure -> IO G FS A) : IO G FS A :=
  fun s =>
    match m s with
    | (inr a, s') => (inr a, s')
    | (inl e, s') => handler e s'
    end.

(** A call of the loader or of the simulator: it leaves the files alone. *)
Definition io_of {G FS A} (m : M G A) : IO G FS A :=
  fun s =>
    let (r, w) := m (proc s) in
    (match r with inl e => inl (Raised e) | inr a => inr a end,
     mkMachine w (files s)).

(** A call on the file system: it leaves the generator and the log alone. *)
Definition io_files {G FS A} (op : FS -> (failure + A) * FS) : IO G FS A :=
  fun s => let (r, fs) := op (files s) in (r, mkMachine (proc s) fs).

Definition info {G FS} (msg : string) : IO G FS unit :=
  io_of (logger_info msg).

Definition error {G FS} (msg : string) : IO G FS unit :=
  io_of (logger_error msg).

End Process.

Import Process.

Declare Scope io_scope.
Delimit Scope io_scope with io.
Notation "x <- m ;; k" := (io_bind m (fun x => k))
  (at level 61, m at next level, right associativity) : io_scope.
Notation "m ;; k" := (io_bind m (fun _ => k))
  (at level 61, right associativity) : io_scope.

(** What the driver asks of the file system. *)
Class FileSystem (FS : Type) : Type := {
  (** [pd.read_csv(path)] *)
  fs_read_csv : FS -> string -> result (DataFrame Track);
  (** [Path(path).parent.mkdir(parents=True, exist_ok=True)] *)
  fs_mkdir_parent : string -> FS -> (failure + unit) * FS;
  (** [df.to_csv(path, index=False)], [df] built from the records given *)
  fs_to_csv : list StreamingRecord -> string -> FS -> (failure + unit) * FS
}.

(** ** Columns and their summaries *)

(** [df[key]]: the values of a column, or [KeyError] for the table without
    columns that an empty list of records gives. *)
Definition column {A : Type} (key : string) (field : StreamingRecord -> A)
           (df : list StreamingRecord) : failure + list A :=
  match df with
  | [] => inl (KeyError key)
  | _ :: _ => inr (map field df)
  end.

(** [min()] and [max()] of a column of strings, compared as Python compares
    [str]: character by character, by code point. *)
Definition series_min (l : list string) : string :=
  match l with
  | [] => "nan"
  | x :: rest =>
      fold_left (fun m s => if String.ltb s m then s else m) rest x
  end.

Definition series_max (l : list string) : string :=
  match l with
  | [] => "nan"
  | x :: rest =>
      fold_left (fun m s => if String.ltb m s then s else m) rest x
  end.

(** [unique()]: the distinct values in the order of their first
    occurrence; [nunique()] counts them. *)
Fixpoint unique_from (seen l : list string) : list string :=
  match l with
  | [] => []
  | x :: rest =>
      if existsb (String.eqb x) seen then unique_from seen rest
      else x :: unique_from (x :: seen) rest
  end.

Definition unique (l : list string) : list string := unique_from [] l.

Definition nunique (l : list string) : Z := Z.of_nat (List.length (unique l)).

(** [f"{n:,}"] for an integer: its digits in groups of three, from the
    right. *)
Fixpoint group3 (digits : list ascii) : list ascii :=
  match digits with
  | a :: b :: c :: ((_ :: _) as rest) =>
      a :: b :: c :: ","%char :: group3 rest
  | _ => digits
  end.

Definition format_thousands (n : Z) : string :=
  ((if (n <? 0)%Z then "-" else "")
   ++ string_of_list_ascii
        (rev (group3 (rev (list_ascii_of_string (str_int (Z.abs n)))))))%string.

Definition newline : string := String "010"%char EmptyString.

Section Driver.

Context {G : Type} {RS : RandomSource G} {FS : Type} {Disk : FileSystem FS}.
Variable config : Config.
Variable settings : RunConfig.

(** [tracks_df.sample(n=n, random_state=42)]: the draw is made by a generator
    of its own, seeded with 42; the one behind [np.random] is not used. *)
Variable sample : DataFrame Track -> Z -> result (DataFrame Track).

(** [f"{s.sum():,}"] and [f"{s.mean():.0f}"] for a column of integers. *)
Variable sum_text : list Z -> string.
Variable mean_text : list Z -> string.

Local Open Scope io_scope.

Definition save_streaming_data (df : list StreamingRecord)
           (output_path : string) : IO G FS unit :=
  io_try_except
    (io_files (fs_mkdir_parent output_path) ;;
     info ("Saving streaming data to " ++ output_path) ;;
     io_files (fs_to_csv df output_path) ;;
     info ("Successfully saved " ++ str_int (Z.of_nat (List.length df))
           ++ " records to " ++ output_path) ;;
     info (newline ++ "=== Data Summary ===") ;;
     dates <- io_lift (column "date" r_date df) ;;
     dates' <- io_lift (column "date" r_date df) ;;
     info ("Date range: " ++ series_min dates ++ " to " ++ series_max dates') ;;
     info ("Total records: " ++ format_thousands (Z.of_nat (List.length df))) ;;
     ids <- io_lift (column "track_id" r_track_id df) ;;
     info ("Unique tracks: " ++ str_int (nunique ids)) ;;
     regions <- io_lift (column "region" r_region df) ;;
     info ("Regions: " ++ repr_list (unique regions)) ;;
     streams <- io_lift (column "streams" r_streams df) ;;
     info ("Total streams: " ++ sum_text streams) ;;
     streams <- io_lift (column "streams" r_streams df) ;;
     info ("Avg daily streams per track: " ++ mean_text streams) ;;
     adds <- io_lift (column "playlist_adds" r_playlist_adds df) ;;
     info ("Total playlist adds: " ++ sum_text adds))
    (fun e =>
       error ("Error saving data: " ++ str_failure e) ;;
       io_raise e).

Definition main : IO G FS unit :=
  io_try_except
    (info "=== Starting Streaming Data Generation ===" ;;
     tracks_df <-
       (fun s =>
          io_of (load_spotify_dataset (fs_read_csv (files s))
                   (SPOTIFY_DATASET_PATH settings)) s) ;;
     tracks_df <-
       (if SAMPLE_TRACKS settings <? Z.of_nat (List.length (rows tracks_df))
        then
          info ("Sampling " ++ str_int (SAMPLE_TRACKS settings)
                ++ " tracks from "
                ++ str_int (Z.of_nat (List.length (rows tracks_df)))
                ++ " total tracks") ;;
          io_of (lift (sample tracks_df (SAMPLE_TRACKS settings)))
        else io_ret tracks_df) ;;
     streaming_df <-
       io_of (generate_streaming_data config (rows tracks_df)
                (NUM_DAYS settings) (START_DATE settings)
                (REGIONS settings)) ;;
     save_streaming_data streaming_df (OUTPUT_PATH settings) ;;
     info "=== Streaming Data Generation Complete ===")
    (fun e =>
       error ("Fatal error in data generation: " ++ str_failure e) ;;
       io_raise e).

End Driver.

Example format_thousands_examples :
  map format_thousands [0; 999; 1000; 1234567; -1234]
  = ["0"; "999"; "1,000"; "1,234,567"; "-1,234"]%string.
Proof. reflexivity. Qed.

Example unique_order :
  unique ["US"; "UK"; "US"; "DE"; "UK"]%string = ["US"; "UK"; "DE"]%string.
Proof. reflexivity. Qed.

Example series_min_max :
  (series_min ["2023-01-08"; "2023-01-07"; "2023-01-09"]%string,
   series_max ["2023-01-08"; "2023-01-07"; "2023-01-09"]%string)
  = ("2023-01-07", "2023-01-09")%string.
Proof. reflexivity. Qed.

(** ** Facts about the driver *)

Section DriverFacts.

Context {G : Type} {RS : RandomSource G} {FS : Type} {Disk : FileSystem FS}.
Variable config : Config.
Variable settings : RunConfig.
Variable sample : DataFrame Track -> Z -> result (DataFrame Track).
Variable sum_text : list Z -> string.
Variable mean_text : list Z -> string.

Lemma io_bind_eq {A B} (m : IO G FS A) (k : A -> IO G FS B) s :
  io_bind m k s
  = match m s with
    | (inr a, s') => k a s'
    | (inl e, s') => (inl e, s')
    end.
Proof. reflexivity. Qed.

Lemma info_eq msg (s : machine G FS) :
  info msg s
  = (inr tt,
     mkMachine (mkWorld (rng (proc s)) (log (proc s) ++ [(INFO, msg)]))
               (files s)).
Proof. reflexivity. Qed.

Lemma error_eq msg (s : machine G FS) :
  error msg s
  = (inr tt,
     mkMachine (mkWorld (rng (proc s)) (log (proc s) ++ [(ERROR, msg)]))
               (files s)).
Proof. reflexivity. Qed.

(** The line the loader logs for the exception it lets through. *)
Definition loader_line (dataset_path : string) (e : exn) : level * string :=
  (ERROR,
   match e with
   | FileNotFoundError _ => "Dataset file not found: " ++ dataset_path
   | _ => "Error loading dataset: " ++ str_exn e
   end)%string.

(** What stops the loader: the exception of [pd.read_csv], or the
    [ValueError] for the required columns the table lacks. *)
Definition loader_stops (r : result (DataFrame Track)) (e : exn) : Prop :=
  match r with
  | inl e0 => e = e0
  | inr df =>
      missing_columns_of df <> []
      /\ e = ValueError ("Missing required columns: "
                         ++ repr_list (missing_columns_of df))
  end.

Lemma load_raises (read_csv : string -> result (DataFrame Track)) path e
      (w : world G) :
  loader_stops (read_csv path) e ->
  load_spotify_dataset read_csv path w
  = (inl e,
     mkWorld (rng w)
       (log w ++ [(INFO, ("Loading Spotify dataset from " ++ path)%string);
                  loader_line path e])).
Proof.
  unfold loader_stops, load_spotify_dataset, try_except, bind, lift,
    logger_info, logger_error, raise, ret, missing_columns_of, loader_line.
  destruct (read_csv path) as [e0|df].
  - intros ->. destruct e0; cbn [rng log]; rewrite <- app_assoc; reflexivity.
  - intros [Hmiss ->].
    destruct (filter _ required_columns) as [|c rest]; [contradiction|].
    cbn [rng log]. rewrite <- app_assoc. reflexivity.
Qed.

Lemma load_returns (read_csv : string -> result (DataFrame Track)) path df
      (w : world G) :
  read_csv path = inr df -> missing_columns_of df = [] ->
  load_spotify_dataset read_csv path w
  = (inr df,
     mkWorld (rng w)
       (log w ++ [(INFO, ("Loading Spotify dataset from " ++ path)%string);
                  (INFO, ("Loaded "
                          ++ str_int (Z.of_nat (List.length (rows df)))
                          ++ " tracks from dataset")%string)])).
Proof.
  intros Hread Hmiss.
  unfold load_spotify_dataset, try_except, bind, lift,
    logger_info, logger_error, raise, ret.
  rewrite Hread. unfold missing_columns_of in Hmiss. rewrite Hmiss.
  cbn [rng log]. rewrite <- app_assoc. reflexivity.
Qed.

(** The loader returns or is stopped. *)
Lemma load_cases (read_csv : string -> result (DataFrame Track)) path :
  (exists e, loader_stops (read_csv path) e)
  \/ (exists df, read_csv path = inr df /\ missing_columns_of df = []).
Proof.
  unfold loader_stops. destruct (read_csv path) as [e|df]; [left; eauto|].
  destruct (missing_columns_of df) eqn:Hm.
  - right. eauto.
  - left. eexists. split; [discriminate | reflexivity].
Qed.

(** X11. When the catalog cannot be read, or lacks a required column,
    [main] raises the exception of the loader, having logged four lines
    (its announcement, the two of the loader, the fatal error); it takes no
    draw and leaves the files as they are. *)
Theorem main_stops_at_the_loader :
  forall (s : machine G FS) (e : exn),
    loader_stops (fs_read_csv (files s) (SPOTIFY_DATASET_PATH settings)) e ->
    main config settings sample sum_text mean_text s
    = (inl (Raised e),
       mkMachine
         (mkWorld (rng (proc s))
            (log (proc s)
             ++ [(INFO, "=== Starting Streaming Data Generation ==="%string);
                 (INFO, ("Loading Spotify dataset from "
                         ++ SPOTIFY_DATASET_PATH settings)%string);
                 loader_line (SPOTIFY_DATASET_PATH settings) e;
                 (ERROR, ("Fatal error in data generation: "
                          ++ str_exn e)%string)]))
         (files s)).
Proof.
  intros s e Hstop. unfold main, io_try_except.
  rewrite io_bind_eq, info_eq. cbv iota beta.
  rewrite io_bind_eq. unfold io_of at 1. cbn [proc files].
  rewrite (load_raises _ _ _ _ Hstop). cbv iota beta.
  rewrite io_bind_eq, error_eq. cbv iota beta. unfold io_raise.
  cbn [proc files rng log]. rewrite <- !app_assoc. reflexivity.
Qed.

(** *** Saving *)

Lemma io_files_eq {A} (op : FS -> (failure + A) * FS) (s : machine G FS) :
  io_files op s = (fst (op (files s)), mkMachine (proc s) (snd (op (files s)))).
Proof. unfold io_files. destruct (op (files s)); reflexivity. Qed.

(** The table without rows: the file is written, and the summary stops at
    its first column. *)
Lemma save_empty_table (s : machine G FS) output_path fs1 fs2 :
  fs_mkdir_parent output_path (files s) = (inr tt, fs1) ->
  fs_to_csv [] output_path fs1 = (inr tt, fs2) ->
  save_streaming_data sum_text mean_text [] output_path s
  = (inl (KeyError "date"),
     mkMachine
       (mkWorld (rng (proc s))
          (log (proc s)
           ++ [(INFO, ("Saving streaming data to " ++ output_path)%string);
               (INFO, ("Successfully saved 0 records to "
                       ++ output_path)%string);
               (INFO, (newline ++ "=== Data Summary ===")%string);
               (ERROR, "Error saving data: 'date'"%string)]))
       fs2).
Proof.
  intros Hdir Hcsv. unfold save_streaming_data, io_try_except.
  rewrite io_bind_eq, io_files_eq, Hdir. cbn [fst snd]. cbv iota beta.
  rewrite io_bind_eq, info_eq. cbv iota beta. cbn [proc files rng log].
  rewrite io_bind_eq, io_files_eq. cbn [proc files]. rewrite Hcsv.
  cbn [fst snd]. cbv iota beta.
  rewrite io_bind_eq, info_eq. cbv iota beta. cbn [proc files rng log].
  rewrite io_bind_eq, info_eq. cbv iota beta. cbn [proc files rng log].
  rewrite io_bind_eq. unfold io_lift at 1, column at 1. cbv iota beta.
  rewrite io_bind_eq, error_eq. cbv iota beta. unfold io_raise.
  cbn [proc files rng log]. rewrite <- !app_assoc. reflexivity.
Qed.

(** A call that returns has made the directory and written the table, which
    has a row. *)
Lemma save_returns (s s' : machine G FS) df output_path :
  save_streaming_data sum_text mean_text df output_path s = (inr tt, s') ->
  exists fs1,
    fs_mkdir_parent output_path (files s) = (inr tt, fs1)
    /\ fs_to_csv df output_path fs1 = (inr tt, files s')
    /\ df <> []
    /\ rng (proc s') = rng (proc s).
Proof.
  unfold save_streaming_data, io_try_except.
  rewrite io_bind_eq, io_files_eq.
  destruct (fs_mkdir_parent output_path (files s)) as [[f|[]] fs1] eqn:Hdir;
    cbn [fst snd]; cbv iota beta;
    [rewrite io_bind_eq, error_eq; discriminate|].
  rewrite io_bind_eq, info_eq. cbv iota beta. cbn [proc files rng log].
  rewrite io_bind_eq, io_files_eq. cbn [proc files].
  destruct (fs_to_csv df output_path fs1) as [[f|[]] fs2] eqn:Hcsv;
    cbn [fst snd]; cbv iota beta;
    [rewrite io_bind_eq, error_eq; discriminate|].
  rewrite io_bind_eq, info_eq. cbv iota beta. cbn [proc files rng log].
  rewrite io_bind_eq, info_eq. cbv iota beta. cbn [proc files rng log].
  destruct df as [|r df].
  - rewrite io_bind_eq. unfold io_lift at 1, column at 1. cbv iota beta.
    rewrite io_bind_eq, error_eq. discriminate.
  - unfold column, io_lift.
    repeat (rewrite io_bind_eq; cbv iota beta;
            try (rewrite info_eq; cbv iota beta; cbn [proc files rng log])).
    try (rewrite info_eq; cbn [proc files rng log]).
    intros [= <-]. cbn [proc files rng log].
    exists fs1. split; [reflexivity|]. split; [exact Hcsv|].
    split; [discriminate | reflexivity].
Qed.

(** *** The whole run *)

Lemma Chain_no_output {T A S : Type} (R : T -> S -> A -> S -> Prop) ts g g' :
  Chain R ts g [] g' -> g' = g.
Proof. inversion 1. reflexivity. Qed.

Lemma generate_empty_run tracks num_days start_date regions (w w' : world G) :
  generate_streaming_data config tracks num_days start_date regions w
  = (inr [], w') ->
  rng w' = rng w.
Proof.
  intros Hrun. destruct (generate_chain config _ _ _ _ _ _ _ Hrun)
    as (start & _ & Hc).
  exact (Chain_no_output _ _ _ _ Hc).
Qed.

Lemma generate_length tracks num_days start_date regions (w w' : world G)
      records :
  generate_streaming_data config tracks num_days start_date regions w
  = (inr records, w') ->
  List.length records
  = (Z.to_nat num_days * (List.length tracks * List.length regions))%nat.
Proof.
  intros Hrun. destruct (generate_chain config _ _ _ _ _ _ _ Hrun)
    as (start & _ & Hc).
  rewrite (Chain_length _ _ _ _ _ Hc). apply triples_length.
Qed.

(** The catalog the simulator is given: a sample of [SAMPLE_TRACKS] rows
    when the catalog has more. *)
Definition catalog_given (df : DataFrame Track) : result (DataFrame Track) :=
  if SAMPLE_TRACKS settings <? Z.of_nat (List.length (rows df))
  then sample df (SAMPLE_TRACKS settings)
  else inr df.

(** [main] from the loaded catalog to the call of the simulator. *)
Lemma main_body_unfold (s : machine G FS) df tracks_df :
  fs_read_csv (files s) (SPOTIFY_DATASET_PATH settings) = inr df ->
  missing_columns_of df = [] ->
  catalog_given df = inr tracks_df ->
  exists lines,
    main config settings sample sum_text mean_text s
    = let s1 := mkMachine (mkWorld (rng (proc s)) (log (proc s) ++ lines))
                          (files s) in
      io_try_except
        (io_bind
           (io_of (generate_streaming_data config (rows tracks_df)
                     (NUM_DAYS settings) (START_DATE settings)
                     (REGIONS settings)))
           (fun streaming_df =>
              io_bind
                (save_streaming_data sum_text mean_text streaming_df
                   (OUTPUT_PATH settings))
                (fun _ => info "=== Streaming Data Generation Complete ===")))
        (fun e =>
           io_bind
             (error ("Fatal error in data generation: " ++ str_failure e))
             (fun _ => io_raise e))
        s1.
Proof.
  intros Hread Hmiss Hgiven. unfold main, io_try_except, catalog_given in *.
  rewrite io_bind_eq, info_eq. cbv iota beta. cbn [proc files rng log].
  rewrite io_bind_eq. unfold io_of at 1. cbn [proc files].
  rewrite (load_returns _ _ _ _ Hread Hmiss). cbv iota beta.
  cbn [proc files rng log]. rewrite io_bind_eq.
  destruct (SAMPLE_TRACKS settings <? Z.of_nat (List.length (rows df))).
  - rewrite io_bind_eq, info_eq. cbv iota beta. cbn [proc files rng log].
    unfold io_of at 1, lift at 1. rewrite Hgiven. cbv iota beta.
    cbn [proc files rng log]. rewrite <- !app_assoc.
    eexists. cbv zeta. reflexivity.
  - injection Hgiven as <-. unfold io_ret at 1. cbv iota beta.
    rewrite <- !app_assoc. eexists. cbv zeta. reflexivity.
Qed.

(** A run that returns has loaded the catalog and, where it had to, drawn
    the sample. *)
Lemma main_returns_loaded (s s' : machine G FS) :
  main config settings sample sum_text mean_text s = (inr tt, s') ->
  exists df tracks_df,
    fs_read_csv (files s) (SPOTIFY_DATASET_PATH settings) = inr df
    /\ missing_columns_of df = []
    /\ catalog_given df = inr tracks_df.
Proof.
  unfold main, io_try_except, catalog_given.
  rewrite io_bind_eq, info_eq. cbv iota beta. cbn [proc files rng log].
  rewrite io_bind_eq. unfold io_of at 1. cbn [proc files].
  destruct (load_cases (fs_read_csv (files s)) (SPOTIFY_DATASET_PATH settings))
    as [[e Hstop]|(df & Hread & Hmiss)].
  - rewrite (load_raises _ _ _ _ Hstop). cbv iota beta.
    rewrite io_bind_eq, error_eq. discriminate.
  - rewrite (load_returns _ _ _ _ Hread Hmiss). cbv iota beta.
    cbn [proc files rng log]. rewrite io_bind_eq.
    destruct (SAMPLE_TRACKS settings <? Z.of_nat (List.length (rows df)))
      eqn:Hmore.
    + rewrite io_bind_eq, info_eq. cbv iota beta. cbn [proc files rng log].
      unfold io_of at 1, lift at 1.
      destruct (sample df (SAMPLE_TRACKS settings)) as [e|tracks_df]
        eqn:Hsample.
      * cbv iota beta. rewrite io_bind_eq, error_eq. discriminate.
      * intros _. exists df, tracks_df. rewrite Hmore. auto.
    + intros _. exists df, df. rewrite Hmore. auto.
Qed.

(** X13. A run that has nothing to simulate (no day, no track or no region)
    still writes its table, which is empty and has no column, and then
    fails: the summary asks the table for its ['date'] column, and [main]
    raises the [KeyError], logged by [save_streaming_data] and by [main]. *)
Theorem main_fails_on_an_empty_table :
  forall (s : machine G FS) df tracks_df start fs1 fs2,
    fs_read_csv (files s) (SPOTIFY_DATASET_PATH settings) = inr df ->
    missing_columns_of df = [] ->
    catalog_given df = inr tracks_df ->
    strptime_ymd (START_DATE settings) = inr start ->
    NUM_DAYS settings <= 0
    \/ (start + NUM_DAYS settings - 1 <= _MAXORDINAL
        /\ (rows tracks_df = [] \/ REGIONS settings = [])) ->
    fs_mkdir_parent (OUTPUT_PATH settings) (files s) = (inr tt, fs1) ->
    fs_to_csv [] (OUTPUT_PATH settings) fs1 = (inr tt, fs2) ->
    exists lines,
      main config settings sample sum_text mean_text s
      = (inl (KeyError "date"),
         mkMachine
           (mkWorld (rng (proc s))
              (lines
               ++ [(INFO, ("Saving streaming data to "
                           ++ OUTPUT_PATH settings)%string);
                   (INFO, ("Successfully saved 0 records to "
                           ++ OUTPUT_PATH settings)%string);
                   (INFO, (newline ++ "=== Data Summary ===")%string);
                   (ERROR, "Error saving data: 'date'"%string);
                   (ERROR, "Fatal error in data generation: 'date'"%string)]))
           fs2).
Proof.
  intros s df tracks_df start fs1 fs2 Hread Hmiss Hgiven Hstart Hempty
         Hdir Hcsv.
  destruct (main_body_unfold s df tracks_df Hread Hmiss Hgiven)
    as [lines0 ->].
  cbv zeta. unfold io_try_except. rewrite io_bind_eq.
  unfold io_of at 1. cbn [proc files].
  match goal with
  | |- context [generate_streaming_data ?c ?t ?n ?d ?r ?w] =>
      assert (Hgen : fst (generate_streaming_data c t n d r w) = inr []);
      [ destruct Hempty as [Hdays|[Hend Hnone]];
        [ eapply generate_no_days; eassumption
        | eapply generate_nothing_to_do; eassumption ]
      | destruct (generate_streaming_data c t n d r w) as [[e|records] w2]
          eqn:Hrun; cbn [fst] in Hgen; [discriminate|] ]
  end.
  injection Hgen as ->.
  pose proof (generate_empty_run _ _ _ _ _ _ Hrun) as Hrng.
  cbn [rng] in Hrng. cbv iota beta. rewrite io_bind_eq.
  rewrite (save_empty_table _ _ fs1 fs2) by assumption.
  cbv iota beta. rewrite io_bind_eq, error_eq. cbv iota beta.
  unfold io_raise. cbn [proc files rng log str_failure].
  rewrite Hrng. exists (log w2). rewrite <- !app_assoc. reflexivity.
Qed.

Section Sampling.

(** [sample(n=n)] returns [n] rows when it returns. *)
Hypothesis sample_size :
  forall df n df',
    sample df n = inr df' -> 0 <= n /\ Z.of_nat (List.length (rows df')) = n.

(** X12. A run of [main] that returns has read the catalog, made the output
    directory and written one table at [OUTPUT_PATH]; the table has
    [NUM_DAYS * min(len(catalog), SAMPLE_TRACKS) * len(REGIONS)] records, at
    least one. *)
Theorem main_writes_the_generated_table :
  forall (s s' : machine G FS),
    main config settings sample sum_text mean_text s = (inr tt, s') ->
    exists df records fs1,
      fs_read_csv (files s) (SPOTIFY_DATASET_PATH settings) = inr df
      /\ missing_columns_of df = []
      /\ fs_mkdir_parent (OUTPUT_PATH settings) (files s) = (inr tt, fs1)
      /\ fs_to_csv records (OUTPUT_PATH settings) fs1 = (inr tt, files s')
      /\ records <> []
      /\ Z.of_nat (List.length records)
         = NUM_DAYS settings
           * Z.min (Z.of_nat (List.length (rows df))) (SAMPLE_TRACKS settings)
           * Z.of_nat (List.length (REGIONS settings)).
Proof.
  intros s s' Hmain.
  destruct (main_returns_loaded _ _ Hmain)
    as (df & tracks_df & Hread & Hmiss & Hgiven).
  destruct (main_body_unfold s df tracks_df Hread Hmiss Hgiven)
    as [lines0 Hbody].
  rewrite Hbody in Hmain. clear Hbody. cbv zeta in Hmain.
  unfold io_try_except in Hmain. rewrite io_bind_eq in Hmain.
  unfold io_of at 1 in Hmain. cbn [proc files] in Hmain.
  destruct (generate_streaming_data config (rows tracks_df)
              (NUM_DAYS settings) (START_DATE settings) (REGIONS settings) _)
    as [[e|records] w2] eqn:Hrun; cbv iota beta in Hmain;
    [rewrite io_bind_eq, error_eq in Hmain; discriminate|].
  rewrite io_bind_eq in Hmain.
  destruct (save_streaming_data sum_text mean_text records
              (OUTPUT_PATH settings) _) as [[f|[]] s3] eqn:Hsave;
    cbv iota beta in Hmain;
    [rewrite io_bind_eq, error_eq in Hmain; discriminate|].
  rewrite info_eq in Hmain. injection Hmain as <-.
  destruct (save_returns _ _ _ _ Hsave) as (fs1 & Hdir & Hcsv & Hne & _).
  cbn [proc files] in *.
  exists df, records, fs1. repeat (split; [assumption|]).
  pose proof (generate_length _ _ _ _ _ _ _ Hrun) as Hlen.
  assert (Hdays : 0 < NUM_DAYS settings).
  { destruct (Z_lt_le_dec 0 (NUM_DAYS settings)) as [H|H]; [exact H|].
    replace (Z.to_nat (NUM_DAYS settings)) with 0%nat in Hlen by lia.
    destruct records; [contradiction | discriminate]. }
  assert (Hrows : Z.of_nat (List.length (rows tracks_df))
                  = Z.min (Z.of_nat (List.length (rows df)))
                          (SAMPLE_TRACKS settings)).
  { unfold catalog_given in Hgiven.
    destruct (Z.ltb_spec (SAMPLE_TRACKS settings)
                (Z.of_nat (List.length (rows df)))) as [Hlt|Hge].
    - apply sample_size in Hgiven. lia.
    - injection Hgiven as <-. lia. }
  rewrite Hlen, !Nat2Z.inj_mul, Z2Nat.id, Hrows by lia. ring.
Qed.

End Sampling.

End DriverFacts.

(** ** A file system for the examples

    One directory of catalogs to read and of tables written, every write
    allowed.  [sample] keeps the first rows; the text of a sum is the sum in
    full, that of a mean is the mean rounded to the nearest integer. *)
Module Desk.

Import Tape.

Record disk : Type := {
  catalogs : list (string * DataFrame Track);
  written : list (string * list StreamingRecord)
}.

Fixpoint lookup (path : string) (l : list (string * DataFrame Track))
  : result (DataFrame Track) :=
  match l with
  | [] => inl (FileNotFoundError "No such file or directory")
  | (p, df) :: rest => if String.eqb p path then inr df else lookup path rest
  end.

#[global] Instance disk_files : FileSystem disk := {
  fs_read_csv := fun d path => lookup path (catalogs d);
  fs_mkdir_parent := fun _ d => (inr tt, d);
  fs_to_csv := fun df path d =>
    (inr tt, {| catalogs := catalogs d;
                written := written d ++ [(path, df)] |})
}.

Definition sample (df : DataFrame Track) (n : Z) : result (DataFrame Track) :=
  if n <? 0
  then inl (ValueError "A negative number of rows requested")
  else if Z.of_nat (List.length (rows df)) <? n
  then inl (ValueError "Cannot take a larger sample than population")
  else inr {| columns := columns df; rows := firstn (Z.to_nat n) (rows df) |}.

Definition sum_text (l : list Z) : string :=
  format_thousands (fold_right Z.add 0 l).

Definition mean_text (l : list Z) : string :=
  let total := fold_right Z.add 0 l in
  let n := Z.of_nat (List.length l) in
  let q := total / n in
  let r := total mod n in
  str_int (if (n <? 2 * r) || ((n =? 2 * r) && Z.odd q) then q + 1 else q).

Lemma desk_sample_size df n df' :
  sample df n = inr df' -> 0 <= n /\ Z.of_nat (List.length (rows df')) = n.
Proof.
  unfold sample.
  destruct (Z.ltb_spec n 0) as [Hneg|Hpos]; [discriminate|].
  destruct (Z.ltb_spec (Z.of_nat (List.length (rows df))) n) as [Hbig|Hfit];
    [discriminate|].
  intros [= <-]. cbn [rows]. rewrite length_firstn. lia.
Defined.

Definition catalog : DataFrame Track := {|
  columns := ["track_id"; "track_name"; "artists"; "popularity"]%string;
  rows := Demo.tracks
|}.

Definition d0 : disk := {|
  catalogs := [("tracks.csv"%string, catalog)];
  written := []
|}.

Definition s0 : machine (list float) disk := mkMachine Demo.w0 d0.

(** Three days, one track of the two, one region. *)
Definition settings : RunConfig := {|
  SPOTIFY_DATASET_PATH := "tracks.csv";
  SAMPLE_TRACKS := 1;
  NUM_DAYS := 3;
  START_DATE := "2023-01-07";
  REGIONS := ["US"%string];
  OUTPUT_PATH := "out/streams.csv"
|}.

(** The same, without a day to simulate. *)
Definition no_day : RunConfig := {|
  SPOTIFY_DATASET_PATH := "tracks.csv";
  SAMPLE_TRACKS := 1;
  NUM_DAYS := 0;
  START_DATE := "2023-01-07";
  REGIONS := ["US"%string];
  OUTPUT_PATH := "out/streams.csv"
|}.

(** The same, the catalog sought where there is none. *)
Definition no_catalog : RunConfig := {|
  SPOTIFY_DATASET_PATH := "missing.csv";
  SAMPLE_TRACKS := 1;
  NUM_DAYS := 3;
  START_DATE := "2023-01-07";
  REGIONS := ["US"%string];
  OUTPUT_PATH := "out/streams.csv"
|}.

Definition run : (failure + unit) * machine (list float) disk :=
  Eval vm_compute in main Demo.cfg settings sample sum_text mean_text s0.

Lemma desk_run_eq :
  main Demo.cfg settings sample sum_text mean_text s0 = (inr tt, snd run).
Proof. vm_compute. reflexivity. Defined.

End Desk.

Example desk_run_log :
  map snd (log (proc (snd Desk.run)))
  = ["=== Starting Streaming Data Generation ===";
     "Loading Spotify dataset from tracks.csv";
     "Loaded 2 tracks from dataset";
     "Sampling 1 tracks from 2 total tracks";
     "Generating 3 days of streaming data for 1 tracks";
     "Generated 3 streaming records";
     "Saving streaming data to out/streams.csv";
     "Successfully saved 3 records to out/streams.csv";
     newline ++ "=== Data Summary ===";
     "Date range: 2023-01-07 to 2023-01-09";
     "Total records: 3";
     "Unique tracks: 1";
     "Regions: ['US']";
     "Total streams: 87,656";
     "Avg daily streams per track: 29219";
     "Total playlist adds: 876";
     "=== Streaming Data Generation Complete ==="]%string.
Proof. vm_compute. reflexivity. Qed.

Lemma main_stops_at_the_loader_witness :
  loader_stops
    (fs_read_csv (files Desk.s0) (SPOTIFY_DATASET_PATH Desk.no_catalog))
    (FileNotFoundError "No such file or directory")
  /\ main Demo.cfg Desk.no_catalog Desk.sample Desk.sum_text Desk.mean_text
       Desk.s0
     = (inl (Raised (FileNotFoundError "No such file or directory")),
        mkMachine
          (mkWorld (rng (proc Desk.s0))
             (log (proc Desk.s0)
              ++ [(INFO, "=== Starting Streaming Data Generation ==="%string);
                  (INFO, ("Loading Spotify dataset from "
                          ++ SPOTIFY_DATASET_PATH Desk.no_catalog)%string);
                  loader_line (SPOTIFY_DATASET_PATH Desk.no_catalog)
                    (FileNotFoundError "No such file or directory");
                  (ERROR, ("Fatal error in data generation: "
                           ++ str_exn (FileNotFoundError
                                         "No such file or directory"))%string)]))
          (files Desk.s0)).
Proof.
  split; [reflexivity|].
  exact (main_stops_at_the_loader Demo.cfg Desk.no_catalog Desk.sample
           Desk.sum_text Desk.mean_text Desk.s0 _ eq_refl).
Defined.

Example main_without_catalog_log :
  map snd
    (log (proc (snd (main Demo.cfg Desk.no_catalog Desk.sample Desk.sum_text
                       Desk.mean_text Desk.s0))))
  = ["=== Starting Streaming Data Generation ===";
     "Loading Spotify dataset from missing.csv";
     "Dataset file not found: missing.csv";
     "Fatal error in data generation: No such file or directory"]%string.
Proof. vm_compute. reflexivity. Qed.

Lemma main_fails_on_an_empty_table_witness :
  fs_read_csv (files Desk.s0) (SPOTIFY_DATASET_PATH Desk.no_day)
  = inr Desk.catalog
  /\ missing_columns_of Desk.catalog = []
  /\ catalog_given Desk.no_day Desk.sample Desk.catalog
     = inr {| columns := columns Desk.catalog; rows := [Demo.hit] |}
  /\ strptime_ymd (START_DATE Desk.no_day) = inr 738527
  /\ NUM_DAYS Desk.no_day <= 0
  /\ fs_mkdir_parent (OUTPUT_PATH Desk.no_day) (files Desk.s0)
     = (inr tt, Desk.d0)
  /\ fs_to_csv [] (OUTPUT_PATH Desk.no_day) Desk.d0
     = (inr tt, {| Desk.catalogs := Desk.catalogs Desk.d0;
                   Desk.written := [("out/streams.csv"%string, [])] |})
  /\ exists lines,
      main Demo.cfg Desk.no_day Desk.sample Desk.sum_text Desk.mean_text
        Desk.s0
      = (inl (KeyError "date"),
         mkMachine
           (mkWorld (rng (proc Desk.s0))
              (lines
               ++ [(INFO, ("Saving streaming data to "
                           ++ OUTPUT_PATH Desk.no_day)%string);
                   (INFO, ("Successfully saved 0 records to "
                           ++ OUTPUT_PATH Desk.no_day)%string);
                   (INFO, (newline ++ "=== Data Summary ===")%string);
                   (ERROR, "Error saving data: 'date'"%string);
                   (ERROR, "Fatal error in data generation: 'date'"%string)]))
           {| Desk.catalogs := Desk.catalogs Desk.d0;
              Desk.written := [("out/streams.csv"%string, [])] |}).
Proof.
  repeat (split; [reflexivity || (unfold Desk.no_day, NUM_DAYS; lia)|]).
  refine (main_fails_on_an_empty_table Demo.cfg Desk.no_day Desk.sample
            Desk.sum_text Desk.mean_text Desk.s0 Desk.catalog _ 738527
            Desk.d0 _ eq_refl eq_refl eq_refl eq_refl _ eq_refl eq_refl).
  left. unfold Desk.no_day, NUM_DAYS. lia.
Defined.

Lemma main_writes_the_generated_table_witness :
  (forall df n df',
      Desk.sample df n = inr df' ->
      0 <= n /\ Z.of_nat (List.length (rows df')) = n)
  /\ main Demo.cfg Desk.settings Desk.sample Desk.sum_text Desk.mean_text
       Desk.s0 = (inr tt, snd Desk.run)
  /\ exists df records fs1,
      fs_read_csv (files Desk.s0) (SPOTIFY_DATASET_PATH Desk.settings) = inr df
      /\ missing_columns_of df = []
      /\ fs_mkdir_parent (OUTPUT_PATH Desk.settings) (files Desk.s0)
         = (inr tt, fs1)
      /\ fs_to_csv records (OUTPUT_PATH Desk.settings) fs1
         = (inr tt, files (snd Desk.run))
      /\ records <> []
      /\ Z.of_nat (List.length records)
         = NUM_DAYS Desk.settings
           * Z.min (Z.of_nat (List.length (rows df)))
                   (SAMPLE_TRACKS Desk.settings)
           * Z.of_nat (List.length (REGIONS Desk.settings)).
Proof.
  split; [exact Desk.desk_sample_size|]. split; [exact Desk.desk_run_eq|].
  exact (main_writes_the_generated_table Demo.cfg Desk.settings Desk.sample
           Desk.sum_text Desk.mean_text Desk.desk_sample_size _ _
           Desk.desk_run_eq).
Defined.

(** ** The order of dates *)

Lemma _days_before_year_succ y :
  _days_before_year (y + 1) = _days_before_year y + year_length (_is_leap y).
Proof.
  destruct (year_digits y) as (a & b & c & e & -> & Hb & Hc & He).
  rewrite _is_leap_digits, _days_before_year_digits by assumption.
  unfold year_length.
  destruct (Z.eq_dec e 3) as [->|He3].
  - change (3 =? 3) with true. cbn [andb].
    destruct (Z.eq_dec c 24) as [->|Hc24].
    + change (24 =? 24) with true. cbn [negb orb].
      destruct (Z.eq_dec b 3) as [->|Hb3].
      * change (3 =? 3) with true. cbv iota.
        replace (400 * a + 100 * 3 + 4 * 24 + 3 + 1 + 1)
          with (400 * (a + 1) + 100 * 0 + 4 * 0 + 0 + 1) by lia.
        rewrite _days_before_year_digits by lia. lia.
      * replace (b =? 3) with false by (symmetry; apply Z.eqb_neq; lia).
        cbv iota.
        replace (400 * a + 100 * b + 4 * 24 + 3 + 1 + 1)
          with (400 * a + 100 * (b + 1) + 4 * 0 + 0 + 1) by lia.
        rewrite _days_before_year_digits by lia. lia.
    + replace (c =? 24) with false by (symmetry; apply Z.eqb_neq; lia).
      cbn [negb orb]. cbv iota.
      replace (400 * a + 100 * b + 4 * c + 3 + 1 + 1)
        with (400 * a + 100 * b + 4 * (c + 1) + 0 + 1) by lia.
      rewrite _days_before_year_digits by lia. lia.
  - replace (e =? 3) with false by (symmetry; apply Z.eqb_neq; lia).
    cbn [andb]. cbv iota.
    replace (400 * a + 100 * b + 4 * c + e + 1 + 1)
      with (400 * a + 100 * b + 4 * c + (e + 1) + 1) by lia.
    rewrite _days_before_year_digits by lia. lia.
Qed.

Lemma year_length_bounds leap : 365 <= year_length leap <= 366.
Proof. destruct leap; unfold year_length; lia. Qed.

(** The first day of a later year comes after the last day of this one. *)
Lemma _days_before_year_later y y' :
  y < y' ->
  _days_before_year y + year_length (_is_leap y) <= _days_before_year y'.
Proof.
  intros Hlt. replace y' with (y + 1 + Z.of_nat (Z.to_nat (y' - y - 1))) by lia.
  induction (Z.to_nat (y' - y - 1)) as [|k IH].
  - rewrite Z.add_0_r, _days_before_year_succ. lia.
  - rewrite Nat2Z.inj_succ.
    replace (y + 1 + Z.succ (Z.of_nat k)) with (y + 1 + Z.of_nat k + 1) by lia.
    rewrite _days_before_year_succ.
    pose proof (year_length_bounds (_is_leap (y + 1 + Z.of_nat k))). lia.
Qed.

Lemma month_order_table :
  forallb (fun leap =>
    forallb (fun i =>
      forallb (fun j =>
        if i <? j
        then dbm leap (1 + i) + dim leap (1 + i) <=? dbm leap (1 + j)
        else true) (range 12)) (range 12)) [true; false] = true.
Proof. vm_compute. reflexivity. Qed.

(** The first day of a later month comes after the last day of this one. *)
Lemma dbm_later leap m m' :
  1 <= m -> m < m' -> m' <= 12 -> dbm leap m + dim leap m <= dbm leap m'.
Proof.
  intros Hm Hlt Hm'.
  pose proof month_order_table as Htab. rewrite forallb_forall in Htab.
  assert (Hleap : In leap [true; false]) by (destruct leap; simpl; auto).
  specialize (Htab leap Hleap). rewrite forallb_forall in Htab.
  specialize (Htab (m - 1) (range_mem 12 (m - 1) ltac:(lia))).
  rewrite forallb_forall in Htab.
  specialize (Htab (m' - 1) (range_mem 12 (m' - 1) ltac:(lia))).
  cbv beta in Htab.
  replace (m - 1 <? m' - 1) with true in Htab
    by (symmetry; apply Z.ltb_lt; lia).
  replace (1 + (m - 1)) with m in Htab by lia.
  replace (1 + (m' - 1)) with m' in Htab by lia.
  now apply Z.leb_le.
Qed.

(** The order of two dates, field by field. *)
Definition ymd_le (a b : Z * Z * Z) : Prop :=
  let '(y, m, d) := a in
  let '(y', m', d') := b in
  y < y' \/ (y = y' /\ (m < m' \/ (m = m' /\ d <= d'))).

(** A later day has a later date. *)
Lemma _ord2ymd_monotone n n' :
  n <= n' -> ymd_le (_ord2ymd n) (_ord2ymd n').
Proof.
  intros Hle.
  pose proof (ord_ymd_ord n) as H1. pose proof (ord_ymd_ord n') as H2.
  destruct (_ord2ymd n) as [[y m] d]. destruct (_ord2ymd n') as [[y' m'] d'].
  destruct H1 as (Hm & Hd & Hn). destruct H2 as (Hm' & Hd' & Hn').
  unfold ymd_le. unfold _ymd2ord in Hn, Hn'.
  rewrite _days_before_month_dbm in Hn, Hn'.
  rewrite _days_in_month_dim in Hd, Hd'.
  destruct (month_day_of_date _ _ _ Hm Hd) as [_ Hy].
  destruct (month_day_of_date _ _ _ Hm' Hd') as [_ Hy'].
  pose proof (dbm_nonneg (_is_leap y) m Hm).
  pose proof (dbm_nonneg (_is_leap y') m' Hm').
  destruct (Z.lt_trichotomy y y') as [Hlt|[Heq|Hgt]].
  - now left.
  - right. split; [exact Heq|]. subst y'.
    destruct (Z.lt_trichotomy m m') as [Hmlt|[Hmeq|Hmgt]].
    + now left.
    + right. split; [exact Hmeq|]. subst m'. lia.
    + exfalso.
      pose proof (dbm_later (_is_leap y) m' m ltac:(lia) Hmgt ltac:(lia)).
      lia.
  - exfalso. pose proof (_days_before_year_later y' y Hgt). lia.
Qed.

(** ** The order of the texts of dates *)

Lemma digit_char_compare_table :
  forallb (fun u =>
    forallb (fun v =>
      match Ascii.compare (digit_char u) (digit_char v), u ?= v with
      | Eq, Eq | Lt, Lt | Gt, Gt => true
      | _, _ => false
      end) (range 10)) (range 10) = true.
Proof. vm_compute. reflexivity. Qed.

Lemma digit_char_mod v : digit_char (v mod 10) = digit_char v.
Proof. unfold digit_char. now rewrite Z.mod_mod by lia. Qed.

Lemma digit_char_compare u v :
  Ascii.compare (digit_char u) (digit_char v) = (u mod 10 ?= v mod 10).
Proof.
  rewrite <- (digit_char_mod u), <- (digit_char_mod v).
  pose proof (Z.mod_pos_bound u 10 ltac:(lia)) as Hu.
  pose proof (Z.mod_pos_bound v 10 ltac:(lia)) as Hv.
  pose proof digit_char_compare_table as Htab.
  rewrite forallb_forall in Htab.
  specialize (Htab _ (range_mem 10 (u mod 10) Hu)).
  rewrite forallb_forall in Htab.
  specialize (Htab _ (range_mem 10 (v mod 10) Hv)). cbv beta in Htab.
  destruct (Ascii.compare _ _), (u mod 10 ?= v mod 10);
    reflexivity || discriminate.
Qed.

(** Two digits at the head of a text are compared as the number they
    write. *)
Lemma compare_pad2 a b r1 r2 :
  String.compare (pad2 a ++ r1) (pad2 b ++ r2)
  = match a mod 100 ?= b mod 100 with
    | Eq => String.compare r1 r2
    | c => c
    end.
Proof.
  unfold pad2. cbn [append String.compare].
  rewrite !digit_char_compare.
  pose proof (Z.div_mod a 10 ltac:(lia)).
  pose proof (Z.mod_pos_bound a 10 ltac:(lia)).
  pose proof (Z.div_mod (a / 10) 10 ltac:(lia)).
  pose proof (Z.mod_pos_bound (a / 10) 10 ltac:(lia)).
  pose proof (Z.div_mod b 10 ltac:(lia)).
  pose proof (Z.mod_pos_bound b 10 ltac:(lia)).
  pose proof (Z.div_mod (b / 10) 10 ltac:(lia)).
  pose proof (Z.mod_pos_bound (b / 10) 10 ltac:(lia)).
  assert (Ha : a mod 100 = 10 * (a / 10 mod 10) + a mod 10).
  { symmetry. apply Z.mod_unique with (q := a / 10 / 10); lia. }
  assert (Hb : b mod 100 = 10 * (b / 10 mod 10) + b mod 10).
  { symmetry. apply Z.mod_unique with (q := b / 10 / 10); lia. }
  rewrite Ha, Hb.
  destruct (Z.compare_spec (a / 10 mod 10) (b / 10 mod 10)) as [E1|L1|G1];
    destruct (Z.compare_spec (a mod 10) (b mod 10)) as [E2|L2|G2];
    destruct (Z.compare_spec (10 * (a / 10 mod 10) + a mod 10)
                             (10 * (b / 10 mod 10) + b mod 10));
    reflexivity || (exfalso; lia).
Qed.

Lemma compare_dash r1 r2 :
  String.compare (String "-" r1) (String "-" r2) = String.compare r1 r2.
Proof. reflexivity. Qed.

Lemma pad2_alone v : pad2 v = (pad2 v ++ "")%string.
Proof. reflexivity. Qed.

(** The text of a date, from its fields. *)
Definition text_of_ymd (a : Z * Z * Z) : string :=
  let '(y, m, d) := a in (pad4 y ++ "-" ++ pad2 m ++ "-" ++ pad2 d)%string.

Lemma strftime_ymd_text n :
  1000 <= year n -> strftime_ymd n = text_of_ymd (_ord2ymd n).
Proof.
  unfold strftime_ymd, text_of_ymd, year, month, day.
  destruct (_ord2ymd n) as [[y m] d]. cbn [fst snd]. intros Hy.
  now rewrite year_text_pad4 by exact Hy.
Qed.

(** On years of four digits and months and days of two, the texts are
    ordered as the dates. *)
Lemma text_of_ymd_monotone y m d y' m' d' :
  0 <= y <= 9999 -> 0 <= y' <= 9999 ->
  0 <= m <= 99 -> 0 <= m' <= 99 -> 0 <= d <= 99 -> 0 <= d' <= 99 ->
  ymd_le (y, m, d) (y', m', d') ->
  String.leb (text_of_ymd (y, m, d)) (text_of_ymd (y', m', d')) = true.
Proof.
  intros Hy Hy' Hm Hm' Hd Hd' Hle. unfold String.leb, text_of_ymd, pad4.
  rewrite !string_app_assoc. rewrite compare_pad2, compare_pad2.
  cbn [append]. rewrite compare_dash, compare_pad2. cbn [append].
  rewrite compare_dash, (pad2_alone d), (pad2_alone d'), compare_pad2.
  cbn [String.compare].
  pose proof (Z.div_mod y 100 ltac:(lia)).
  pose proof (Z.mod_pos_bound y 100 ltac:(lia)).
  pose proof (Z.div_mod y' 100 ltac:(lia)).
  pose proof (Z.mod_pos_bound y' 100 ltac:(lia)).
  assert (y / 100 mod 100 = y / 100)
    by (apply Z.mod_small; split;
        [apply Z.div_pos | apply Z.div_lt_upper_bound]; lia).
  assert (y' / 100 mod 100 = y' / 100)
    by (apply Z.mod_small; split;
        [apply Z.div_pos | apply Z.div_lt_upper_bound]; lia).
  rewrite (Z.mod_small m), (Z.mod_small m'), (Z.mod_small d),
    (Z.mod_small d') by lia.
  unfold ymd_le in Hle.
  destruct (Z.compare_spec (y / 100 mod 100) (y' / 100 mod 100));
    destruct (Z.compare_spec (y mod 100) (y' mod 100));
    destruct (Z.compare_spec m m'); destruct (Z.compare_spec d d');
    reflexivity || (exfalso; lia).
Qed.

(** A later day of the years 1000 to 9999 has a later text. *)
Lemma strftime_ymd_monotone n n' :
  364878 <= n -> n <= n' -> n' <= _MAXORDINAL ->
  String.leb (strftime_ymd n) (strftime_ymd n') = true.
Proof.
  intros Hlo Hle Hhi.
  destruct (year_of_ordinal n) as (Hy1 & Hy2 & _).
  destruct (year_of_ordinal n') as (Hy1' & Hy2' & _).
  specialize (Hy1 Hlo). specialize (Hy1' ltac:(lia)).
  rewrite (strftime_ymd_text n Hy1), (strftime_ymd_text n' Hy1').
  pose proof (_ord2ymd_monotone n n' Hle) as Hord.
  pose proof (ord_ymd_ord n) as H1. pose proof (ord_ymd_ord n') as H2.
  unfold year in *.
  destruct (_ord2ymd n) as [[y m] d]. destruct (_ord2ymd n') as [[y' m'] d'].
  cbn [fst] in *.
  destruct H1 as (Hm & Hd & _). destruct H2 as (Hm' & Hd' & _).
  rewrite _days_in_month_dim in Hd, Hd'.
  pose proof (dim_le_31 (_is_leap y) m Hm).
  pose proof (dim_le_31 (_is_leap y') m' Hm').
  apply text_of_ymd_monotone; try lia. exact Hord.
Qed.

(** ** The date range of the summary *)

Lemma ltb_of_leb s m : String.leb m s = true -> String.ltb s m = false.
Proof.
  unfold String.leb, String.ltb. rewrite (String.compare_antisym m s).
  destruct (String.compare s m); simpl; congruence.
Qed.

Lemma leb_not_ltb m s :
  String.leb m s = true -> String.ltb m s = false -> m = s.
Proof.
  unfold String.leb, String.ltb. intros Hle Hlt.
  apply String.compare_eq_iff. destruct (String.compare m s); congruence.
Qed.

(** The least of a column is the value that is below all the others. *)
Lemma series_min_least l z :
  In z l -> Forall (fun s => String.leb z s = true) l -> series_min l = z.
Proof.
  unfold series_min. destruct l as [|x l]; [contradiction|].
  revert x. induction l as [|s l IH]; intros x Hin Hall.
  - destruct Hin as [->|[]]. reflexivity.
  - cbn [fold_left]. apply IH.
    + destruct Hin as [->|[->|Hin]].
      * inversion Hall as [|? ? _ Hrest]. inversion Hrest as [|? ? Hs _].
        rewrite (ltb_of_leb _ _ Hs). now left.
      * inversion Hall as [|? ? Hx _].
        destruct (String.ltb z x) eqn:Hlt; [now left|].
        left. symmetry. now apply leb_not_ltb.
      * now right.
    + inversion Hall as [|? ? Hx Hrest]. inversion Hrest as [|? ? Hs Hl].
      constructor; [|exact Hl]. now destruct (String.ltb s x).
Qed.

(** The greatest of a column is the value that is above all the others. *)
Lemma series_max_greatest l z :
  In z l -> Forall (fun s => String.leb s z = true) l -> series_max l = z.
Proof.
  unfold series_max. destruct l as [|x l]; [contradiction|].
  revert x. induction l as [|s l IH]; intros x Hin Hall.
  - destruct Hin as [->|[]]. reflexivity.
  - cbn [fold_left]. apply IH.
    + destruct Hin as [->|[->|Hin]].
      * inversion Hall as [|? ? _ Hrest]. inversion Hrest as [|? ? Hs _].
        rewrite (ltb_of_leb _ _ Hs). now left.
      * inversion Hall as [|? ? Hx _].
        destruct (String.ltb x z) eqn:Hlt; [now left|].
        left. now apply leb_not_ltb.
      * now right.
    + inversion Hall as [|? ? Hx Hrest]. inversion Hrest as [|? ? Hs Hl].
      constructor; [|exact Hl]. now destruct (String.ltb x s).
Qed.

Section DateRange.

Context {G : Type} {RS : RandomSource G} {FS : Type} {Disk : FileSystem FS}.
Variable config : Config.
Variable sum_text : list Z -> string.
Variable mean_text : list Z -> string.

(** The lines of a call that returns. *)
Lemma save_returns_log (s s' : machine G FS) df output_path :
  save_streaming_data sum_text mean_text df output_path s = (inr tt, s') ->
  log (proc s')
  = log (proc s)
    ++ [(INFO, ("Saving streaming data to " ++ output_path)%string);
        (INFO, ("Successfully saved " ++ str_int (Z.of_nat (List.length df))
                ++ " records to " ++ output_path)%string);
        (INFO, (newline ++ "=== Data Summary ===")%string);
        (INFO, ("Date range: " ++ series_min (map r_date df) ++ " to "
                ++ series_max (map r_date df))%string);
        (INFO, ("Total records: "
                ++ format_thousands (Z.of_nat (List.length df)))%string);
        (INFO, ("Unique tracks: "
                ++ str_int (nunique (map r_track_id df)))%string);
        (INFO, ("Regions: " ++ repr_list (unique (map r_region df)))%string);
        (INFO, ("Total streams: " ++ sum_text (map r_streams df))%string);
        (INFO, ("Avg daily streams per track: "
                ++ mean_text (map r_streams df))%string);
        (INFO, ("Total playlist adds: "
                ++ sum_text (map r_playlist_adds df))%string)].
Proof.
  unfold save_streaming_data, io_try_except.
  rewrite io_bind_eq, io_files_eq.
  destruct (fs_mkdir_parent output_path (files s)) as [[f|[]] fs1] eqn:Hdir;
    cbn [fst snd]; cbv iota beta;
    [rewrite io_bind_eq, error_eq; discriminate|].
  rewrite io_bind_eq, info_eq. cbv iota beta. cbn [proc files rng log].
  rewrite io_bind_eq, io_files_eq. cbn [proc files].
  destruct (fs_to_csv df output_path fs1) as [[f|[]] fs2] eqn:Hcsv;
    cbn [fst snd]; cbv iota beta;
    [rewrite io_bind_eq, error_eq; discriminate|].
  rewrite io_bind_eq, info_eq. cbv iota beta. cbn [proc files rng log].
  rewrite io_bind_eq, info_eq. cbv iota beta. cbn [proc files rng log].
  destruct df as [|r df].
  - rewrite io_bind_eq. unfold io_lift at 1, column at 1. cbv iota beta.
    rewrite io_bind_eq, error_eq. discriminate.
  - unfold column, io_lift.
    repeat (rewrite io_bind_eq; cbv iota beta;
            try (rewrite info_eq; cbv iota beta; cbn [proc files rng log])).
    try (rewrite info_eq; cbn [proc files rng log]).
    intros [= <-]. cbn [proc files rng log].
    rewrite <- !app_assoc. reflexivity.
Qed.

(** X14. The summary of a table that the simulator returned, from a start
    date of year 1000 or later, reports as its date range the start date and
    the last day simulated, [num_days - 1] days later. *)
Theorem summary_date_range :
  forall tracks num_days start_date regions (w w' : world G) records start
         output_path (s s' : machine G FS),
    generate_streaming_data config tracks num_days start_date regions w
    = (inr records, w') ->
    strptime_ymd start_date = inr start ->
    1000 <= year start ->
    save_streaming_data sum_text mean_text records output_path s
    = (inr tt, s') ->
    In (INFO, ("Date range: " ++ strftime_ymd start ++ " to "
               ++ strftime_ymd (start + (num_days - 1)))%string)
       (log (proc s')).
Proof.
  intros * Hrun Hs Hy Hsave.
  rewrite (save_returns_log _ _ _ _ Hsave).
  destruct (save_returns _ _ _ _ _ _ Hsave) as (_ & _ & _ & Hne & _).
  pose proof (generate_calendar config _ _ _ _ _ _ _ _ Hrun Hs) as Hcal.
  pose proof (generate_length config _ _ _ _ _ _ _ Hrun) as Hlen.
  destruct (year_of_ordinal start) as (_ & _ & Hlo). specialize (Hlo Hy).
  set (block := (List.length tracks * List.length regions)%nat) in *.
  assert (Hpos : (0 < List.length records)%nat)
    by (destruct records; [contradiction | simpl; lia]).
  assert (Hblock : (0 < block)%nat) by nia.
  assert (Hdays : (0 < Z.to_nat num_days)%nat) by nia.
  assert (Hend : start + num_days - 1 <= _MAXORDINAL) by lia.
  assert (Hdates : forall x, In x (map r_date records) ->
            exists k, 0 <= k < num_days /\ x = strftime_ymd (start + k)).
  { intros x Hx. apply in_map_iff in Hx. destruct Hx as (r & <- & Hr).
    apply In_nth_error in Hr. destruct Hr as [i Hi].
    destruct (record_day config _ _ _ _ _ _ _ _ _ _ Hrun Hs Hi) as [Hd Hk].
    eauto. }
  assert (Hfirst : In (strftime_ymd start) (map r_date records)).
  { destruct records as [|r0 rest]; [contradiction|].
    destruct (record_day config _ _ _ _ _ _ _ _ 0%nat r0 Hrun Hs eq_refl)
      as [Hd _].
    rewrite Nat.Div0.div_0_l in Hd. change (Z.of_nat 0) with 0 in Hd.
    rewrite Z.add_0_r in Hd. left. exact Hd. }
  assert (Hlast : In (strftime_ymd (start + (num_days - 1)))
                     (map r_date records)).
  { destruct (nth_error records (List.length records - 1)) as [r|] eqn:Hi;
      [|apply nth_error_None in Hi; lia].
    destruct (record_day config _ _ _ _ _ _ _ _ _ _ Hrun Hs Hi) as [Hd _].
    fold block in Hd.
    replace ((List.length records - 1) / block)%nat
      with (Z.to_nat num_days - 1)%nat in Hd.
    - replace (Z.of_nat (Z.to_nat num_days - 1)) with (num_days - 1) in Hd
        by lia.
      rewrite <- Hd. apply in_map. eapply nth_error_In; exact Hi.
    - apply Nat.div_unique with (r := (block - 1)%nat); [lia|].
      rewrite Hlen. nia. }
  rewrite (series_min_least _ _ Hfirst), (series_max_greatest _ _ Hlast).
  - apply in_or_app. right. simpl. tauto.
  - apply Forall_forall. intros x Hx.
    destruct (Hdates x Hx) as (k & Hk & ->).
    apply strftime_ymd_monotone; lia.
  - apply Forall_forall. intros x Hx.
    destruct (Hdates x Hx) as (k & Hk & ->).
    apply strftime_ymd_monotone; lia.
Qed.

End DateRange.

Lemma summary_date_range_witness :
  generate_streaming_data Demo.cfg Demo.tracks 3 "2023-01-07" Demo.regions
    Demo.w0 = (inr Demo.records, snd Demo.run)
  /\ strptime_ymd "2023-01-07" = inr 738527
  /\ 1000 <= year 738527
  /\ save_streaming_data Desk.sum_text Desk.mean_text Demo.records
       "out/streams.csv" Desk.s0
     = (inr tt,
        snd (save_streaming_data Desk.sum_text Desk.mean_text Demo.records
               "out/streams.csv" Desk.s0))
  /\ In (INFO, ("Date range: " ++ strftime_ymd 738527 ++ " to "
                ++ strftime_ymd (738527 + (3 - 1)))%string)
        (log (proc (snd (save_streaming_data Desk.sum_text Desk.mean_text
                           Demo.records "out/streams.csv" Desk.s0)))).
Proof.
  split; [exact Demo.demo_run_eq|]. split; [reflexivity|].
  split; [vm_compute; discriminate|]. split; [vm_compute; reflexivity|].
  refine (summary_date_range Demo.cfg Desk.sum_text Desk.mean_text _ _ _ _ _ _
            _ _ _ Desk.s0 _ Demo.demo_run_eq eq_refl _ _).
  - vm_compute. discriminate.
  - vm_compute. reflexivity.
Defined.

Example summary_date_range_demo :
  (strftime_ymd 738527, strftime_ymd (738527 + (3 - 1)))
  = ("2023-01-07", "2023-01-09")%string.
Proof. reflexivity. Qed.

(** ** The regions and the tracks of the summary *)

(** The texts that [repr] writes between single quotes as they are: those
    of printable ASCII characters, the single quote and the backslash
    excepted.  On a list of such texts [repr_list] is the [repr] of
    Python. *)
Definition plain_char (c : ascii) : bool :=
  let n := nat_of_ascii c in
  (32 <=? n)%nat && (n <=? 126)%nat && negb (n =? 39)%nat && negb (n =? 92)%nat.

Definition plain_text (s : string) : bool :=
  forallb plain_char (list_ascii_of_string s).

Lemma seen_spec x (seen : list string) :
  existsb (String.eqb x) seen = true <-> In x seen.
Proof.
  rewrite existsb_exists. split.
  - intros (y & Hy & Heq). apply String.eqb_eq in Heq. now subst.
  - intros Hin. exists x. split; [exact Hin | apply String.eqb_refl].
Qed.

(** [unique_from] looks at what has been seen, not at its order. *)
Lemma unique_from_ext seen seen' l :
  (forall x, In x seen <-> In x seen') ->
  unique_from seen l = unique_from seen' l.
Proof.
  revert seen seen'. induction l as [|x l IH]; intros seen seen' Hsame;
    [reflexivity|].
  cbn [unique_from].
  assert (Hx : existsb (String.eqb x) seen = existsb (String.eqb x) seen').
  { apply eq_true_iff_eq. rewrite !seen_spec. apply Hsame. }
  rewrite Hx. destruct (existsb (String.eqb x) seen').
  - now apply IH.
  - f_equal. apply IH. intros y. simpl. now rewrite Hsame.
Qed.

Lemma unique_from_app seen l l' :
  unique_from seen (l ++ l')
  = unique_from seen l ++ unique_from (l ++ seen) l'.
Proof.
  revert seen. induction l as [|x l IH]; intros seen; [reflexivity|].
  cbn [app unique_from].
  destruct (existsb (String.eqb x) seen) eqn:Hx.
  - rewrite IH. f_equal. apply unique_from_ext.
    intros y. apply seen_spec in Hx. cbn [app In]. rewrite !in_app_iff.
    split; [tauto|]. intros [<-|Hy]; tauto.
  - rewrite IH. cbn [app]. f_equal. f_equal. apply unique_from_ext.
    intros y. cbn [app In]. rewrite !in_app_iff. cbn [In]. tauto.
Qed.

Lemma unique_from_seen seen l :
  (forall x, In x l -> In x seen) -> unique_from seen l = [].
Proof.
  induction l as [|x l IH]; intros Hall; [reflexivity|].
  cbn [unique_from].
  replace (existsb (String.eqb x) seen) with true
    by (symmetry; apply seen_spec, Hall; now left).
  apply IH. intros y Hy. apply Hall. now right.
Qed.

(** Values that occur again later do not change [unique]. *)
Lemma unique_app_again l rest :
  (forall x, In x rest -> In x l) -> unique (l ++ rest) = unique l.
Proof.
  intros Hall. unfold unique. rewrite unique_from_app.
  rewrite (unique_from_seen (l ++ []) rest).
  - apply app_nil_r.
  - intros x Hx. rewrite app_nil_r. now apply Hall.
Qed.

(** Nor does a value repeated on the spot. *)
Lemma unique_from_repeat seen x n l :
  unique_from seen (repeat x (S n) ++ l) = unique_from seen (x :: l).
Proof.
  revert seen. induction n as [|n IH]; intros seen; [reflexivity|].
  change (repeat x (S (S n)) ++ l) with (x :: (repeat x (S n) ++ l)).
  cbn [unique_from].
  destruct (existsb (String.eqb x) seen) eqn:Hx.
  - rewrite IH. cbn [unique_from]. now rewrite Hx.
  - rewrite IH. cbn [unique_from].
    replace (existsb (String.eqb x) (x :: seen)) with true
      by (symmetry; apply seen_spec; now left).
    reflexivity.
Qed.

Lemma unique_from_repeats seen (xs : list string) n :
  unique_from seen (flat_map (fun x => repeat x (S n)) xs)
  = unique_from seen xs.
Proof.
  revert seen. induction xs as [|x xs IH]; intros seen; [reflexivity|].
  cbn [flat_map]. rewrite unique_from_repeat. cbn [unique_from].
  destruct (existsb (String.eqb x) seen); now rewrite IH.
Qed.

Lemma Forall2_maps {A B C : Type} (f : A -> C) (g : B -> C) xs ys :
  Forall2 (fun a b => f a = g b) xs ys -> map f xs = map g ys.
Proof. induction 1; simpl; congruence. Qed.

Lemma map_flat_map {A B C : Type} (g : B -> C) (f : A -> list B) xs :
  map g (flat_map f xs) = flat_map (fun x => map g (f x)) xs.
Proof.
  induction xs as [|x xs IH]; simpl; [reflexivity|].
  now rewrite map_app, IH.
Qed.

Lemma flat_map_map {A B C : Type} (f : B -> list C) (g : A -> B) xs :
  flat_map f (map g xs) = flat_map (fun x => f (g x)) xs.
Proof. induction xs as [|x xs IH]; simpl; congruence. Qed.

Lemma range_first n :
  0 < n -> range n = 0 :: map Z.succ (range (n - 1)).
Proof.
  intros Hn. unfold range.
  replace (Z.to_nat n) with (S (Z.to_nat (n - 1))) by lia.
  cbn [seq map]. f_equal. rewrite <- seq_shift, !map_map.
  apply map_ext. intros k. lia.
Qed.

(** The regions of the triples: those of the first track of the first day,
    then regions among them. *)
Lemma triples_regions start num_days tracks regions :
  0 < num_days -> tracks <> [] ->
  exists rest,
    map snd (Spec.triples start num_days tracks regions) = regions ++ rest
    /\ forall x, In x rest -> In x regions.
Proof.
  intros Hdays Htracks. unfold Spec.triples.
  rewrite (range_first num_days Hdays). cbn [flat_map].
  unfold Spec.triples_of_day at 1.
  destruct tracks as [|t ts]; [contradiction|].
  cbn [flat_map]. rewrite <- app_assoc, map_app.
  unfold Spec.triples_of_track at 1. rewrite map_map. cbn [snd].
  rewrite map_id. eexists. split; [reflexivity|].
  intros x Hx. apply in_map_iff in Hx.
  destruct Hx as ([[d t'] reg] & <- & Hin). cbn [snd].
  apply in_app_iff in Hin. destruct Hin as [Hin|Hin].
  - apply in_flat_map in Hin. destruct Hin as (t0 & _ & Hin).
    apply in_map_iff in Hin. now destruct Hin as (reg' & [= _ _ <-] & Hreg).
  - apply in_flat_map in Hin. destruct Hin as (k & _ & Hin).
    unfold Spec.triples_of_day in Hin.
    apply in_flat_map in Hin. destruct Hin as (t0 & _ & Hin).
    apply in_map_iff in Hin. now destruct Hin as (reg' & [= _ _ <-] & Hreg).
Qed.

(** The track ids of the triples: those of the first day, each as many
    times as there are regions, then ids among them. *)
Lemma triples_track_ids start num_days tracks regions :
  0 < num_days ->
  exists rest,
    map (fun t : Spec.triple => track_id (snd (fst t)))
        (Spec.triples start num_days tracks regions)
    = flat_map (fun x => repeat x (List.length regions))
               (map track_id tracks) ++ rest
    /\ forall x, In x rest -> In x (map track_id tracks).
Proof.
  intros Hdays. unfold Spec.triples.
  rewrite (range_first num_days Hdays). cbn [flat_map]. rewrite map_app.
  eexists. split.
  - f_equal. unfold Spec.triples_of_day.
    rewrite map_flat_map, flat_map_map.
    apply flat_map_ext. intros t. unfold Spec.triples_of_track.
    rewrite map_map. cbn [fst snd].
    induction regions as [|reg regs IH]; [reflexivity|].
    cbn [map List.length repeat]. now rewrite IH.
  - intros x Hx. apply in_map_iff in Hx.
    destruct Hx as ([[d t'] reg] & <- & Hin). cbn [fst snd].
    apply in_flat_map in Hin. destruct Hin as (k & _ & Hin).
    unfold Spec.triples_of_day in Hin.
    apply in_flat_map in Hin. destruct Hin as (t0 & Ht0 & Hin).
    apply in_map_iff in Hin. destruct Hin as (reg' & [= _ <- _] & _).
    now apply in_map.
Qed.

Section SummaryColumns.

Context {G : Type} {RS : RandomSource G} {FS : Type} {Disk : FileSystem FS}.
Variable config : Config.
Variable sum_text : list Z -> string.
Variable mean_text : list Z -> string.

Lemma triple_step_labels t g r g' :
  triple_step config t g r g' ->
  r_region r = snd t /\ r_track_id r = track_id (snd (fst t)).
Proof.
  unfold triple_step, Spec.simulate_triple. destruct t as [[day track] region].
  destruct (Spec.layered_streams config (popularity track) day g)
    as [[e|streams] g1]; [discriminate|].
  destruct (Spec.playlist_adds config streams g1) as [[e|adds] g2];
    [discriminate|].
  intros [= <- _]. split; reflexivity.
Qed.

(** X15. The summary of a table that the simulator returned lists every
    region of [regions] once, in the order of [regions], and counts the
    distinct track ids of the catalog it was given.  The regions are taken
    to be plain texts, which [repr] writes as they are. *)
Theorem summary_regions_and_tracks :
  forall tracks num_days start_date regions (w w' : world G) records
         output_path (s s' : machine G FS),
    generate_streaming_data config tracks num_days start_date regions w
    = (inr records, w') ->
    forallb plain_text regions = true ->
    save_streaming_data sum_text mean_text records output_path s
    = (inr tt, s') ->
    In (INFO, ("Regions: " ++ repr_list (unique regions))%string)
       (log (proc s'))
    /\ In (INFO, ("Unique tracks: "
                  ++ str_int (nunique (map track_id tracks)))%string)
          (log (proc s')).
Proof.
  intros * Hrun _ Hsave.
  rewrite (save_returns_log _ _ _ _ _ _ Hsave).
  destruct (save_returns _ _ _ _ _ _ Hsave) as (_ & _ & _ & Hne & _).
  pose proof (generate_length config _ _ _ _ _ _ _ Hrun) as Hlen.
  destruct (generate_chain config _ _ _ _ _ _ _ Hrun) as (start & _ & Hc).
  assert (Hpos : (0 < List.length records)%nat)
    by (destruct records; [contradiction | simpl; lia]).
  assert (Hdays : 0 < num_days) by nia.
  assert (Htracks : tracks <> []) by (intros ->; simpl in Hlen; nia).
  assert (Hregions : exists n, List.length regions = S n).
  { destruct regions as [|reg regs]; [simpl in Hlen; nia|].
    simpl. eauto. }
  pose proof (Chain_Forall2 _
                (fun t r => r_region r = snd t
                            /\ r_track_id r = track_id (snd (fst t)))
                _ _ _ _ triple_step_labels Hc) as Hall.
  assert (Hreg : map r_region records
                 = map snd (Spec.triples start num_days tracks regions)).
  { apply Forall2_maps. apply Forall2_flip.
    eapply Forall2_impl; [|exact Hall]. now intros t r [H _]. }
  assert (Hids : map r_track_id records
                 = map (fun t : Spec.triple => track_id (snd (fst t)))
                       (Spec.triples start num_days tracks regions)).
  { apply Forall2_maps. apply Forall2_flip.
    eapply Forall2_impl; [|exact Hall]. now intros t r [_ H]. }
  destruct (triples_regions start num_days tracks regions Hdays Htracks)
    as (rest & Hsplit & Hrest).
  destruct (triples_track_ids start num_days tracks regions Hdays)
    as (rest' & Hsplit' & Hrest').
  destruct Hregions as [n Hn].
  assert (Huniq : unique (map r_region records) = unique regions).
  { rewrite Hreg, Hsplit. now apply unique_app_again. }
  assert (Hnum : nunique (map r_track_id records)
                 = nunique (map track_id tracks)).
  { unfold nunique. f_equal. f_equal. rewrite Hids, Hsplit', Hn.
    unfold unique. rewrite unique_from_app, unique_from_repeats.
    rewrite (unique_from_seen _ rest'); [apply app_nil_r|].
    intros x Hx. rewrite app_nil_r. apply in_flat_map.
    exists x. split; [now apply Hrest' | now left]. }
  rewrite Huniq, Hnum. split; apply in_or_app; right; simpl; tauto.
Qed.

End SummaryColumns.

Lemma summary_regions_and_tracks_witness :
  generate_streaming_data Demo.cfg Demo.tracks 3 "2023-01-07" Demo.regions
    Demo.w0 = (inr Demo.records, snd Demo.run)
  /\ forallb plain_text Demo.regions = true
  /\ save_streaming_data Desk.sum_text Desk.mean_text Demo.records
       "out/streams.csv" Desk.s0
     = (inr tt,
        snd (save_streaming_data Desk.sum_text Desk.mean_text Demo.records
               "out/streams.csv" Desk.s0))
  /\ In (INFO, ("Regions: " ++ repr_list (unique Demo.regions))%string)
        (log (proc (snd (save_streaming_data Desk.sum_text Desk.mean_text
                           Demo.records "out/streams.csv" Desk.s0))))
  /\ In (INFO, ("Unique tracks: "
                ++ str_int (nunique (map track_id Demo.tracks)))%string)
        (log (proc (snd (save_streaming_data Desk.sum_text Desk.mean_text
                           Demo.records "out/streams.csv" Desk.s0)))).
Proof.
  split; [exact Demo.demo_run_eq|]. split; [reflexivity|].
  split; [vm_compute; reflexivity|].
  refine (summary_regions_and_tracks Demo.cfg Desk.sum_text Desk.mean_text
            _ _ _ _ _ _ _ _ Desk.s0 _ Demo.demo_run_eq eq_refl _).
  vm_compute. reflexivity.
Defined.

(** ** No table before the simulation is over *)

Section NoPartialTable.

Context {G : Type} {RS : RandomSource G} {FS : Type} {Disk : FileSystem FS}.
Variable config : Config.
Variable settings : RunConfig.
Variable sample : DataFrame Track -> Z -> result (DataFrame Track).
Variable sum_text : list Z -> string.
Variable mean_text : list Z -> string.


End NoPartialTable.

(** A start date that is no date: the run stops in the simulator. *)
Module BadDate.

Definition settings : RunConfig := {|
  SPOTIFY_DATASET_PATH := "tracks.csv";
  SAMPLE_TRACKS := 1;
  NUM_DAYS := 3;
  START_DATE := "2023-02-30";
  REGIONS := ["US"%string];
  OUTPUT_PATH := "out/streams.csv"
|}.

Definition run : (failure + unit) * machine (list float) Desk.disk :=
  Eval vm_compute in
    main Demo.cfg settings Desk.sample Desk.sum_text Desk.mean_text Desk.s0.


End BadDate.

Example bad_date_run :
  fst BadDate.run = inl (Raised (ValueError "day is out of range for month"))
  /\ files (snd BadDate.run) = Desk.d0.
Proof. split; reflexivity. Qed.

